(** * deepsignal_plant.call_modifications: the streaming scoring pipeline

    A shallow embedding of [call_modifications.py]: the reader of
    pre-extracted feature files, the scorer ([_call_mods]), the worker
    loops that share a queue and re-post the ["kill"] sentinel, and the
    start-up part of the orchestrators (validation, pool sizing, device
    assignment).

    Python integers are [Z], Python lists are [list], Python [str] is
    [string], floating-point scalars are [spec_float] (the IEEE 754 values
    of the Standard Library) in a binary format [(prec, emax)]. A raised
    exception is the [Raise] branch of [result]. *)

From Stdlib Require Import ZArith String Ascii Bool Lia.
From Stdlib Require Import Floats.SpecFloat.
From Stdlib Require Import DecimalString.
From stdpp Require Import base list strings.

Local Open Scope Z_scope.

(** ** Exceptions and results *)

Inductive exn : Set :=
| StopIteration
| IndexError
| KeyError
| ValueError
| ZeroDivisionError
| RuntimeError.

Inductive result (A : Type) : Type :=
| Ok (a : A)
| Raise (e : exn).
Arguments Ok {A} a.
Arguments Raise {A} e.

#[global] Instance result_ret : MRet result := fun _ a => Ok a.
#[global] Instance result_bind : MBind result := fun _ _ f m =>
  match m with
  | Ok a => f a
  | Raise e => Raise e
  end.

(** [for x in xs: ys.append(f(x))], stopping at the first exception. *)
Fixpoint mapR {A B : Type} (f : A -> result B) (xs : list A) : result (list B) :=
  match xs with
  | [] => Ok []
  | x :: xs' => y ← f x; ys ← mapR f xs'; Ok (y :: ys)
  end.

(** ** Effects

    A function that puts messages on a queue or starts processes is a
    value of [act E A]: the effects it performed, in order, and how it
    ended. The effects performed before an exception stay performed. *)

Definition act (E A : Type) : Type := (list E * result A)%type.

#[global] Instance act_ret {E} : MRet (act E) := fun _ a => ([], Ok a).
#[global] Instance act_bind {E} : MBind (act E) := fun _ _ f m =>
  match m with
  | (tr, Ok a) => let '(tr', r) := f a in (tr ++ tr', r)
  | (tr, Raise e) => (tr, Raise e)
  end.

Definition emit {E} (ev : E) : act E unit := ([ev], Ok tt).
Definition lift {E A} (r : result A) : act E A := ([], r).
Definition raise {E A} (e : exn) : act E A := ([], Raise e).

(** ** Python built-ins used by the module *)

Module Py.

(** [l[i]] for a non-negative literal or loop index [i]. *)
Definition index {A : Type} (l : list A) (i : nat) : result A :=
  match l !! i with
  | Some a => Ok a
  | None => Raise IndexError
  end.

(** [d[k]] for a dict [d] given by its lookup function. *)
Definition getitem {K V : Type} (d : K -> option V) (k : K) : result V :=
  match d k with
  | Some v => Ok v
  | None => Raise KeyError
  end.

(** One bound of a slice of a sequence of length [len], as CPython
    adjusts it: a negative bound counts from the end, and the outcome is
    clipped to [0 .. len]. *)
Definition adjust (len i : Z) : Z :=
  if i <? 0 then (if i + len <? 0 then 0 else i + len)
  else if len <=? i then len else i.

(** [l[s:e]] on a list. *)
Definition slice {A : Type} (l : list A) (s e : Z) : list A :=
  let len := Z.of_nat (length l) in
  let s' := adjust len s in
  let e' := adjust len e in
  take (Z.to_nat (e' - s')) (drop (Z.to_nat s') l).

(** [t[s:e]] on a str. *)
Definition str_slice (t : string) (s e : Z) : string :=
  let len := Z.of_nat (String.length t) in
  let s' := adjust len s in
  let e' := adjust len e in
  substring (Z.to_nat s') (Z.to_nat (e' - s')) t.

(** [sep.join(ws)]. *)
Definition join (sep : string) (ws : list string) : string :=
  String.concat sep ws.

(** [str(n)] for an integer. *)
Definition str_int (n : Z) : string :=
  NilZero.string_of_int (Z.to_int n).

(** [range(n)]. *)
Definition range (n : Z) : list nat := seq 0 (Z.to_nat n).

(** [np.arange(0, stop, step)] for integers: the values [0, step,
    2*step, ...] below [stop]; a zero step raises. *)
Definition arange0 (stop step : Z) : result (list Z) :=
  if step =? 0 then Raise ZeroDivisionError
  else Ok ((fun k : nat => Z.of_nat k * step) <$>
           seq 0 (Z.to_nat (- ((- stop) / step)))).

Definition tab : string := String "009"%char EmptyString.

(** [t.split(sep)] for a separator of one character. *)
Fixpoint split (sep : ascii) (t : string) : list string :=
  match t with
  | EmptyString => [EmptyString]
  | String c t' =>
      if Ascii.eqb c sep then EmptyString :: split sep t'
      else match split sep t' with
           | w :: ws => String c w :: ws
           | [] => [String c EmptyString]
           end
  end.

(** [a % b] on integers. *)
Definition mod_ (a b : Z) : result Z :=
  if b =? 0 then Raise ZeroDivisionError else Ok (a mod b).

(** [float(t)] and [int(t)], given the parser: a [ValueError] where it
    rejects the text. *)
Definition parse {A : Type} (p : string -> option A) (t : string) : result A :=
  match p t with
  | Some v => Ok v
  | None => Raise ValueError
  end.

End Py.

(** ** Data model *)

(** A Feature Batch: the tuple of seven parallel lists that travels on the
    feature-batch queue. *)
Record features_batch : Type := FeaturesBatch {
  sampleinfo : list string;
  kmers : list (list Z);
  base_means : list (list spec_float);
  base_stds : list (list spec_float);
  base_signal_lens : list (list Z);
  k_signals : list (list (list spec_float));
  labels : list Z
}.

(** The five parts of one output line. *)
Record pred : Type := Pred {
  p_info : string;
  p_prob0 : spec_float;
  p_prob1 : spec_float;
  p_label : Z;
  p_seq : string
}.

(** ** The scorer: [_call_mods] *)

Definition is_nan (x : spec_float) : bool :=
  match x with
  | S754_nan => true
  | _ => false
  end.

(** The index that [torch.max(t, 1)] returns for one row: that of the
    first maximal entry, a NaN counting as maximal. [best] is the maximum
    of the entries before position [i] and [besti] its index. *)
Fixpoint argmax_from (best : spec_float) (besti i : Z) (row : list spec_float) : Z :=
  match row with
  | [] => besti
  | x :: row' =>
      if negb (is_nan best) && (is_nan x || SFltb best x)
      then argmax_from x i (i + 1) row'
      else argmax_from best besti (i + 1) row'
  end.

Definition torch_argmax (row : list spec_float) : result Z :=
  match row with
  | [] => Raise IndexError
  | x :: row' => Ok (argmax_from x 0 1 row')
  end.

Section Scorer.

(** The binary format of the classifier's outputs. *)
Variables prec emax : Z.
(** [round(x, 6)] and [str(x)] on a floating-point scalar. *)
Variable py_round6 : spec_float -> spec_float.
Variable str_float : spec_float -> string.
(** The table [code2base_dna] of [utils.process_utils]. *)
Variable code2base_dna : Z -> option string.
(** [sklearn.metrics.accuracy_score] and [np.mean]. *)
Variable accuracy_score : list Z -> list Z -> result spec_float.
Variable np_mean : list spec_float -> spec_float.
(** The classifier, on the five tensors of a sub-batch; the rows of its
    second output ([vlogits]). *)
Variable model :
  list (list Z) -> list (list spec_float) -> list (list spec_float) ->
  list (list Z) -> list (list (list spec_float)) ->
  result (list (list spec_float)).

(** The line of the output file for one prediction. *)
Definition pred_line (p : pred) : string :=
  Py.join Py.tab
    [p_info p; str_float (p_prob0 p); str_float (p_prob1 p);
     Py.str_int (p_label p); p_seq p].

(** [bkmer_start] and [bkmer_end] for a sequence of length [len]. *)
Definition bkmer_start (len : Z) : Z :=
  let center_idx := len / 2 in
  if 0 <=? center_idx - 2 then center_idx - 2 else 0.

Definition bkmer_end (len : Z) : Z :=
  let center_idx := len / 2 in
  if center_idx + 3 <=? len then center_idx + 3 else len.

(** The 5-base window [b_idx_kmer[bkmer_start:bkmer_end]]. *)
Definition kmer_window (b_idx_kmer : string) : string :=
  let len := Z.of_nat (String.length b_idx_kmer) in
  Py.str_slice b_idx_kmer (bkmer_start len) (bkmer_end len).

(** [''.join([code2base_dna[x] for x in kmer])]. *)
Definition decode_kmer (kmer : list Z) : result string :=
  bases ← mapR (Py.getitem code2base_dna) kmer;
  Ok (Py.join "" bases).

(** The body of [for idx in range(len(b_sampleinfo))]. *)
Definition pred_of_idx (b_sampleinfo : list string) (b_kmers : list (list Z))
    (logits : list (list spec_float)) (predicted : list Z) (idx : nat)
  : result pred :=
  row ← Py.index logits idx;
  prob_0 ← Py.index row 0;
  prob_1 ← Py.index row 1;
  let prob_0_norm := py_round6 (SFdiv prec emax prob_0 (SFadd prec emax prob_0 prob_1)) in
  let prob_1_norm := py_round6 (SFsub prec emax (SFone prec emax) prob_0_norm) in
  kmer ← Py.index b_kmers idx;
  b_idx_kmer ← decode_kmer kmer;
  info ← Py.index b_sampleinfo idx;
  label ← Py.index predicted idx;
  Ok (Pred info prob_0_norm prob_1_norm label (kmer_window b_idx_kmer)).

(** The state of the outer loop: [pred_str], [accuracys], [batch_num]. *)
Definition scorer_state : Type := (list pred * list spec_float * Z)%type.

(** One turn of [for i in np.arange(0, len(sampleinfo), batch_size)]. *)
Definition call_mods_step (fb : features_batch) (batch_size : Z)
    (st : scorer_state) (i : Z) : result scorer_state :=
  let '(pred_str, accuracys, batch_num) := st in
  let batch_s := i in
  let batch_e := i + batch_size in
  let b_sampleinfo := Py.slice (sampleinfo fb) batch_s batch_e in
  let b_kmers := Py.slice (kmers fb) batch_s batch_e in
  let b_base_means := Py.slice (base_means fb) batch_s batch_e in
  let b_base_stds := Py.slice (base_stds fb) batch_s batch_e in
  let b_base_signal_lens := Py.slice (base_signal_lens fb) batch_s batch_e in
  let b_k_signals := Py.slice (k_signals fb) batch_s batch_e in
  let b_labels := Py.slice (labels fb) batch_s batch_e in
  if 0 <? Z.of_nat (length b_sampleinfo) then
    logits ← model b_kmers b_base_means b_base_stds b_base_signal_lens b_k_signals;
    predicted ← mapR torch_argmax logits;
    acc_batch ← accuracy_score b_labels predicted;
    new ← mapR (pred_of_idx b_sampleinfo b_kmers logits predicted)
               (Py.range (Z.of_nat (length b_sampleinfo)));
    Ok (pred_str ++ new, accuracys ++ [acc_batch], batch_num + 1)
  else Ok st.

Fixpoint call_mods_loop (fb : features_batch) (batch_size : Z)
    (st : scorer_state) (starts : list Z) : result scorer_state :=
  match starts with
  | [] => Ok st
  | i :: starts' =>
      st' ← call_mods_step fb batch_size st i;
      call_mods_loop fb batch_size st' starts'
  end.

(** The predictions of a batch as records, before they are rendered. *)
Definition call_mods_preds (fb : features_batch) (batch_size : Z)
  : result scorer_state :=
  starts ← Py.arange0 (Z.of_nat (length (sampleinfo fb))) batch_size;
  call_mods_loop fb batch_size ([], [], 0) starts.

(** [_call_mods(features_batch, model, batch_size, device)]:
    [(pred_str, accuracy, batch_num)]. Each element of [pred_str] is
    rendered by [pred_line] when it is appended; here the rendering is
    applied to the finished list, which gives the same strings. *)
Definition _call_mods (fb : features_batch) (batch_size : Z)
  : result (list string * spec_float * Z) :=
  st ← call_mods_preds fb batch_size;
  let '(preds, accuracys, batch_num) := (st : scorer_state) in
  let accuracy :=
    if 0 <? Z.of_nat (length accuracys) then np_mean accuracys
    else S754_zero false in
  Ok (pred_line <$> preds, accuracy, batch_num).

(** The call of the classifier on the sub-batch that starts at [s]. *)
Definition model_on (fb : features_batch) (batch_size s : Z)
  : result (list (list spec_float)) :=
  model (Py.slice (kmers fb) s (s + batch_size))
        (Py.slice (base_means fb) s (s + batch_size))
        (Py.slice (base_stds fb) s (s + batch_size))
        (Py.slice (base_signal_lens fb) s (s + batch_size))
        (Py.slice (k_signals fb) s (s + batch_size)).

(** The raw outputs of the classifier for record [i] of a batch: row
    [i mod batch_size] of its answer on sub-batch [i / batch_size]. *)
Definition logits_of (fb : features_batch) (batch_size : Z) (i : nat)
  : option (list spec_float) :=
  match model_on fb batch_size (Z.of_nat i / batch_size * batch_size) with
  | Ok rows => rows !! Z.to_nat (Z.of_nat i mod batch_size)
  | Raise _ => None
  end.

(** [p] is what the inner loop makes of record [i] of the batch. *)
Definition scored_at (fb : features_batch) (batch_size : Z) (i : nat) (p : pred)
  : Prop :=
  let s := Z.of_nat i / batch_size * batch_size in
  exists rows predicted,
    model_on fb batch_size s = Ok rows
    /\ mapR torch_argmax rows = Ok predicted
    /\ pred_of_idx (Py.slice (sampleinfo fb) s (s + batch_size))
                   (Py.slice (kmers fb) s (s + batch_size))
                   rows predicted (Z.to_nat (Z.of_nat i mod batch_size)) = Ok p.

End Scorer.


(** ** Messages *)

(** What travels on a queue: a payload or the sentinel ["kill"]. *)
Inductive msg (A : Type) : Type :=
| Item (a : A)
| Kill.
Arguments Item {A} a.
Arguments Kill {A}.

(** ** The reader of a pre-extracted feature file *)

(** One parsed line: what lines 111-117 append to the seven lists. *)
Record sample : Type := Sample {
  s_info : string;
  s_kmer : list Z;
  s_means : list spec_float;
  s_stds : list spec_float;
  s_lens : list Z;
  s_signals : list (list spec_float);
  s_label : Z
}.

Definition empty_batch : features_batch := FeaturesBatch [] [] [] [] [] [] [].

(** The seven [append] calls. *)
Definition push_sample (acc : features_batch) (x : sample) : features_batch :=
  FeaturesBatch
    (sampleinfo acc ++ [s_info x])
    (kmers acc ++ [s_kmer x])
    (base_means acc ++ [s_means x])
    (base_stds acc ++ [s_stds x])
    (base_signal_lens acc ++ [s_lens x])
    (k_signals acc ++ [s_signals x])
    (labels acc ++ [s_label x]).

(** The local variables of [_read_features_file] inside its loop. *)
Record reader_locals : Type := ReaderLocals {
  rl_acc : features_batch;
  rl_readid_pre : string;
  rl_r_num : Z;
  rl_b_num : Z
}.

(** *** The flush law, in the words of the specification

    The records of a file fall into runs of consecutive records with the
    same read identifier; the runs are cut into groups of [F]; each group
    is one Feature Batch, holding the records of its runs in file order. *)

Definition batch_of (xs : list sample) : features_batch :=
  FeaturesBatch (s_info <$> xs) (s_kmer <$> xs) (s_means <$> xs) (s_stds <$> xs)
                (s_lens <$> xs) (s_signals <$> xs) (s_label <$> xs).

(** The maximal runs of consecutive records with equal keys. *)
Fixpoint runs {V : Type} (l : list (string * V)) : list (list (string * V)) :=
  match l with
  | [] => []
  | x :: l' =>
      match runs l' with
      | (y :: r) :: rs =>
          if String.eqb x.1 y.1 then (x :: y :: r) :: rs
          else [x] :: (y :: r) :: rs
      | _ => [[x]]
      end
  end.

(** Whether [y] starts a new run after [x]: 1 if so, else 0. *)
Definition boundary {V : Type} (x y : string * V) : nat :=
  if String.eqb x.1 y.1 then 0%nat else 1%nat.

(** [l] cut into pieces of [n] elements, the last one possibly shorter. *)
Fixpoint chunks_fuel {X : Type} (fuel n : nat) (l : list X) : list (list X) :=
  match fuel with
  | O => []
  | S fuel' =>
      match l with
      | [] => []
      | _ :: _ => take n l :: chunks_fuel fuel' n (drop n l)
      end
  end.

Definition chunks {X : Type} (n : nat) (l : list X) : list (list X) :=
  chunks_fuel (length l) n l.

(** The Feature Batches the flush law asks for. *)
Definition flush_law_batches (F : Z) (recs : list (string * sample))
  : list features_batch :=
  (fun group => batch_of (snd <$> concat group)) <$> chunks (Z.to_nat F) (runs recs).

Section Reader.

(** [t.strip()]. *)
Variable py_strip : string -> string.
(** The table [base2code_dna] of [utils.process_utils], keyed by one
    character. *)
Variable base2code_dna : ascii -> option Z.
(** [float(t)] and [int(t)]. *)
Variable py_float : string -> option spec_float.
Variable py_int : string -> option Z.

(** [line.strip().split("\t")]. *)
Definition words_of (line : string) : list string :=
  Py.split "009"%char (py_strip line).

(** The right-hand sides of lines 111-117, in their order. *)
Definition parse_words (words : list string) : result sample :=
  let info := Py.join Py.tab (Py.slice words 0 6) in
  w6 ← Py.index words 6;
  kmer ← mapR (Py.getitem base2code_dna) (list_ascii_of_string w6);
  w7 ← Py.index words 7;
  means ← mapR (Py.parse py_float) (Py.split ","%char w7);
  w8 ← Py.index words 8;
  stds ← mapR (Py.parse py_float) (Py.split ","%char w8);
  w9 ← Py.index words 9;
  lens ← mapR (Py.parse py_int) (Py.split ","%char w9);
  w10 ← Py.index words 10;
  signals ← mapR (fun x => mapR (Py.parse py_float) (Py.split ","%char x))
                 (Py.split ";"%char w10);
  w11 ← Py.index words 11;
  label ← Py.parse py_int w11;
  Ok (Sample info kmer means stds lens signals label).

(** Lines 94-109: what a line does before its sample is appended. *)
Definition on_readid (f5_batch_size : Z) (s : reader_locals) (readidtmp : string)
  : act (msg features_batch) reader_locals :=
  if negb (String.eqb readidtmp (rl_readid_pre s)) then
    let r_num := rl_r_num s + 1 in
    m ← lift (Py.mod_ r_num f5_batch_size);
    if m =? 0 then
      _ ← emit (Item (rl_acc s));
      mret (ReaderLocals empty_batch readidtmp r_num (rl_b_num s + 1))
    else mret (ReaderLocals (rl_acc s) readidtmp r_num (rl_b_num s))
  else mret s.

(** The body of [for line in infile]. *)
Definition reader_step (f5_batch_size : Z) (s : reader_locals) (line : string)
  : act (msg features_batch) reader_locals :=
  let words := words_of line in
  readidtmp ← lift (Py.index words 4);
  s1 ← on_readid f5_batch_size s readidtmp;
  x ← lift (parse_words words);
  mret (ReaderLocals (push_sample (rl_acc s1) x) (rl_readid_pre s1)
                     (rl_r_num s1) (rl_b_num s1)).

Fixpoint reader_loop (f5_batch_size : Z) (s : reader_locals) (lines : list string)
  : act (msg features_batch) reader_locals :=
  match lines with
  | [] => mret s
  | line :: lines' =>
      s' ← reader_step f5_batch_size s line;
      reader_loop f5_batch_size s' lines'
  end.

(** Lines 118-127: after the loop. *)
Definition reader_finish (s : reader_locals) : act (msg features_batch) (Z * Z) :=
  let r_num := rl_r_num s + 1 in
  b_num ← (if 0 <? Z.of_nat (length (sampleinfo (rl_acc s))) then
             _ ← emit (Item (rl_acc s)); mret (rl_b_num s + 1)
           else mret (rl_b_num s));
  _ ← emit Kill;
  mret (r_num, b_num).

(** [_read_features_file(features_file, features_batch_q, f5_batch_size)]
    on the lines of the file: the messages put on [features_batch_q], and
    the [(r_num, b_num)] of the closing report. The waits on the length
    of the queue (lines 100-101) put nothing and are left out. *)
Definition _read_features_file (infile : list string) (f5_batch_size : Z)
  : act (msg features_batch) (Z * Z) :=
  match infile with
  | [] => raise StopIteration
  | line :: lines =>
      let words := words_of line in
      readid_pre ← lift (Py.index words 4);
      x ← lift (parse_words words);
      reader_loop f5_batch_size
        (ReaderLocals (push_sample empty_batch x) readid_pre 0 0) lines
      ≫= reader_finish
  end.

(** A line as the loop reads it: its read identifier and its sample. *)
Definition parse_line (line : string) : result (string * sample) :=
  let words := words_of line in
  readid ← Py.index words 4;
  x ← parse_words words;
  Ok (readid, x).

End Reader.

(** ** The orchestrators *)

(** The command-line options the orchestrators read. *)
Record args : Type := Args {
  model_path : string;
  input_path : string;
  nproc : Z;
  nproc_gpu : Z;
  f5_batch_size : Z;
  batch_size : Z;
  result_file : string;
  gzip : bool
}.

Inductive queue_id : Set :=
| fast5s_q
| features_batch_q
| errornum_q
| pred_str_q.

(** The [target] of an [mp.Process], with the device it is given. *)
Inductive target : Set :=
| T_read_features_fast5s_q
| T_read_features_file
| T_call_mods_q (device : Z)
| T_write_predstr_to_file.

(** What an orchestrator does to the world, in program order. [print]
    calls are left out. *)
Inductive event : Type :=
| Put_kill (q : queue_id)
| Start (t : target)
| Drain_errornum
| Join (t : target)
| Remove (path : string).

(** [_get_gpus()] when [torch.cuda.device_count()] is [num_gpus]. *)
Definition _get_gpus (num_gpus : Z) : list Z :=
  let gpulist :=
    if 0 <? num_gpus then Z.of_nat <$> seq 0 (Z.to_nat num_gpus) else [0] in
  mjoin (replicate 1000 gpulist).

(** The devices [_get_gpus] cycles through. *)
Definition base_gpus (num_gpus : Z) : list Z :=
  if 0 <? num_gpus then Z.of_nat <$> seq 0 (Z.to_nat num_gpus) else [0].

(** Round-robin over the discovered devices, in the words of the
    specification: the device of the [i]-th scorer. *)
Definition device_of (num_gpus : Z) (i : nat) : Z :=
  if 0 <? num_gpus then Z.of_nat i mod num_gpus else 0.

(** Lines 384-390: the floor on [nproc_gpu] and the correction of
    [nproc]; the pair [(nproc, nproc_gpu)] the rest of the function uses. *)
Definition pool_sizes_gpu (a : args) : Z * Z :=
  let nproc_gpu := if nproc_gpu a <? 1 then 1 else nproc_gpu a in
  let nproc := if nproc a <=? nproc_gpu + 1 then nproc_gpu + 1 + 1 else nproc a in
  (nproc, nproc_gpu).

(** [for _ in range(n)]: start a process with target [t]. *)
Definition start_n (n : Z) (t : target) : act event unit :=
  ((fun _ => Start t) <$> Py.range n, Ok tt).

(** The loop that starts [n] scorers, the [i]-th one on
    [gpulist[gpuindex]]; it returns the devices it used. *)
Fixpoint start_scorers (gpulist : list Z) (gpuindex : nat) (n : nat)
  : act event (list Z) :=
  match n with
  | O => mret []
  | S n' =>
      device ← lift (Py.index gpulist gpuindex);
      _ ← emit (Start (T_call_mods_q device));
      devices ← start_scorers gpulist (S gpuindex) n';
      mret (device :: devices)
  end.

Definition join_all (ts : list target) : act event unit :=
  (Join <$> ts, Ok tt).

(** Lines 421-439 (and 499-517): drain the error counts while a reader is
    alive, join the readers, put the sentinel on [features_batch_q], join
    the scorers, put the sentinel on [pred_str_q], join the writer. *)
Definition drain_and_join (n_readers : Z) (scorers : list target) : act event unit :=
  _ ← emit Drain_errornum;
  _ ← join_all ((fun _ => T_read_features_fast5s_q) <$> Py.range n_readers);
  _ ← emit (Put_kill features_batch_q);
  _ ← join_all scorers;
  _ ← emit (Put_kill pred_str_q);
  emit (Join T_write_predstr_to_file).

(** The devices of the scorers started in a trace, in start order. *)
Definition scorer_devices (tr : list event) : list Z :=
  omap (fun ev => match ev with
                  | Start (T_call_mods_q d) => Some d
                  | _ => None
                  end) tr.

(** The processes started in a trace. *)
Definition started (tr : list event) : list target :=
  omap (fun ev => match ev with Start t => Some t | _ => None end) tr.

(** [t.rstrip(c)] for one character [c]. *)
Fixpoint rstrip_char (c : ascii) (t : string) : string :=
  match t with
  | EmptyString => EmptyString
  | String x t' =>
      match rstrip_char c t' with
      | EmptyString => if Ascii.eqb x c then EmptyString else String x EmptyString
      | r => String x r
      end
  end.

Section Orchestrator.

(** [use_cuda] of [utils.constants_torch] and
    [torch.cuda.device_count()]. *)
Variable use_cuda : bool.
Variable num_gpus : Z.
(** The constant [nproc_to_call_mods_in_cpu_mode] of
    [utils.process_utils]. *)
Variable nproc_to_call_mods_in_cpu_mode : Z.
(** The file system: [os.path.exists], [os.path.isdir],
    [os.path.abspath]. *)
Variable path_exists : string -> bool.
Variable path_isdir : string -> bool.
Variable abspath : string -> string.
(** [str(uuid.uuid1())]. *)
Variable str_uuid1 : string.
(** How [mp.set_start_method('spawn')] ends. *)
Variable set_start_method : result unit.
(** How [_extract_preprocess_fast5sinfo] and [_extract_preprocess_] of
    [extract_features] end: they fill [fast5s_q] and give the number of
    fast5 files. *)
Variable extract_preprocess : result Z.

(** [_call_mods_from_fast5s_gpu]. *)
Definition _call_mods_from_fast5s_gpu (a : args) : act event unit :=
  let '(nproc, nproc_gpu) := pool_sizes_gpu a in
  _ ← emit (Put_kill fast5s_q);
  _ ← start_n (nproc - nproc_gpu - 1) T_read_features_fast5s_q;
  let gpulist := _get_gpus num_gpus in
  devices ← start_scorers gpulist 0 (Z.to_nat nproc_gpu);
  _ ← emit (Start T_write_predstr_to_file);
  drain_and_join (nproc - nproc_gpu - 1) (T_call_mods_q <$> devices).

(** Lines 468-471 of [_call_mods_from_fast5s_cpu2]. *)
Definition pool_sizes_cpu (a : args) : Z * Z :=
  let nproc_call_mods := nproc_to_call_mods_in_cpu_mode in
  let nproc := if nproc a <=? nproc_call_mods + 1 then nproc_call_mods + 1 + 1
               else nproc a in
  (nproc, nproc_call_mods).

(** [_call_mods_from_fast5s_cpu2]: the scorers get the default device 0. *)
Definition _call_mods_from_fast5s_cpu2 (a : args) : act event unit :=
  let '(nproc, nproc_call_mods) := pool_sizes_cpu a in
  _ ← emit (Put_kill fast5s_q);
  _ ← start_n (nproc - nproc_call_mods - 1) T_read_features_fast5s_q;
  _ ← start_n nproc_call_mods (T_call_mods_q 0);
  _ ← emit (Start T_write_predstr_to_file);
  drain_and_join (nproc - nproc_call_mods - 1)
                 ((fun _ => T_call_mods_q 0) <$> Py.range nproc_call_mods).

(** Lines 596-610: the number of scorers in feature-file mode. *)
Definition nproc_dp_of (a : args) : Z :=
  let nproc := if nproc a <? 3 then 3 else nproc a in
  if use_cuda then
    let nproc_dp := nproc_gpu a in
    let nproc_dp := if nproc - 2 <? nproc_dp then nproc - 2 else nproc_dp in
    if nproc_dp <? 1 then 1 else nproc_dp
  else
    let nproc_dp := nproc - 2 in
    if nproc_to_call_mods_in_cpu_mode <? nproc_dp
    then nproc_to_call_mods_in_cpu_mode else nproc_dp.

(** The [else] branch of [call_mods]: scoring a feature file. *)
Definition call_mods_from_file (a : args) : act event unit :=
  _ ← emit (Start T_read_features_file);
  let nproc_dp := nproc_dp_of a in
  let gpulist := _get_gpus num_gpus in
  devices ← start_scorers gpulist 0 (Z.to_nat nproc_dp);
  _ ← emit (Start T_write_predstr_to_file);
  _ ← join_all (T_call_mods_q <$> devices);
  _ ← emit (Put_kill pred_str_q);
  _ ← emit (Join T_read_features_file);
  emit (Join T_write_predstr_to_file).

(** Lines 548-553: the two checks, giving the absolute paths. *)
Definition validate_paths (a : args) : result (string * string) :=
  let model_path := abspath (model_path a) in
  if negb (path_exists model_path) then Raise ValueError
  else
    let input_path := abspath (input_path a) in
    if negb (path_exists input_path) then Raise ValueError
    else Ok (model_path, input_path).

(** [if os.path.exists(path): os.remove(path)] on the file system [fs],
    the paths that exist when the test is made; it gives the file system
    it leaves, in which a removed path no longer exists. *)
Definition remove_if_exists (fs : string -> bool) (path : string)
  : act event (string -> bool) :=
  if fs path then
    _ ← emit (Remove path);
    mret (fun p => if String.eqb p path then false else fs p)
  else mret fs.

(** [call_mods(args)]. The success file is created nowhere in the module
    (line 244 is a comment), so the test of lines 637-638 is made on the
    file system that the one of lines 555-556 left. *)
Definition call_mods (a : args) : act event unit :=
  _ ← lift (if use_cuda then set_start_method else Ok tt);
  paths ← lift (validate_paths a);
  let input_path := snd (paths : string * string) in
  let success_file :=
    (rstrip_char "/"%char input_path ++ "." ++ str_uuid1 ++ ".success")%string in
  fs ← remove_if_exists path_exists success_file;
  _ ← (if path_isdir input_path then
         _ ← lift extract_preprocess;
         if use_cuda then _call_mods_from_fast5s_gpu a
         else _call_mods_from_fast5s_cpu2 a
       else call_mods_from_file a);
  _ ← remove_if_exists fs success_file;
  mret tt.

End Orchestrator.

(** ** Workers that share a queue

    [_call_mods_q] (on [features_batch_q]) and [_read_features_fast5s_q]
    (on [fast5s_q]) run the same loop on their input queue: get a message;
    on ["kill"] put ["kill"] back and leave the loop; otherwise handle the
    item and start over. Neither loop catches an exception: when the
    handling of an item raises, the process ends there, without having
    met the sentinel. A pool of such workers is a queue and the control
    state of each worker; one step is one worker's next queue operation
    or the end of its work on an item, taken atomically. Sleeping on an
    empty queue changes nothing and is not a step. *)

Inductive pc (A : Type) : Type :=
| Polling
| Working (a : A)
| Holding
| Exited
| Raised.
Arguments Polling {A}.
Arguments Working {A} a.
Arguments Holding {A}.
Arguments Exited {A}.
Arguments Raised {A}.

(** A worker: where it is in its loop, how many times it has taken the
    sentinel off the queue, and how many times it has put it back. *)
Record worker (A : Type) : Type := Worker {
  w_pc : pc A;
  w_seen : nat;
  w_reposted : nat
}.
Arguments Worker {A} w_pc w_seen w_reposted.
Arguments w_pc {A} w.
Arguments w_seen {A} w.
Arguments w_reposted {A} w.

Record pool (A : Type) : Type := Pool {
  p_queue : list (msg A);
  p_workers : list (worker A)
}.
Arguments Pool {A} p_queue p_workers.
Arguments p_queue {A} p.
Arguments p_workers {A} p.

Section Workers.

Context {A : Type}.

(** How the body of the loop ends on an item: [true] when it gets
    through, [false] when it raises. *)
Variable handle : A -> bool.

(** The next step of one worker, if it can take one:
    - [Polling]: [q.get()], which needs a message;
    - [Working]: the item is handled and the worker is back at the top of
      the loop, or the handling raises and the process ends;
    - [Holding]: [q.put("kill")], then [break];
    - [Exited], [Raised]: the process has ended. *)
Definition worker_act (q : list (msg A)) (w : worker A)
  : option (list (msg A) * worker A) :=
  match w_pc w with
  | Polling =>
      match q with
      | [] => None
      | Item a :: q' => Some (q', Worker (Working a) (w_seen w) (w_reposted w))
      | Kill :: q' => Some (q', Worker Holding (S (w_seen w)) (w_reposted w))
      end
  | Working a =>
      if handle a then Some (q, Worker Polling (w_seen w) (w_reposted w))
      else Some (q, Worker Raised (w_seen w) (w_reposted w))
  | Holding => Some (q ++ [Kill], Worker Exited (w_seen w) (S (w_reposted w)))
  | Exited | Raised => None
  end.

(** Worker [i] takes its next step. *)
Definition pool_step (i : nat) (p : pool A) : option (pool A) :=
  w ← p_workers p !! i;
  '(q', w') ← worker_act (p_queue p) w;
  Some (Pool q' (<[i := w']> (p_workers p))).

(** A schedule: which worker moves at each step. *)
Fixpoint pool_run (sched : list nat) (p : pool A) : option (pool A) :=
  match sched with
  | [] => Some p
  | i :: sched' => p' ← pool_step i p; pool_run sched' p'
  end.

(** The pool at the moment the sentinel is put, once, behind the items
    that are still in the queue. *)
Definition pool_at_push (items : list A) (ws : list (worker A)) : pool A :=
  Pool ((Item <$> items) ++ [Kill]) ws.

(** A worker that has not met the sentinel: at the top of its loop,
    handling an item, or ended by an exception. *)
Definition fresh (w : worker A) : Prop :=
  w_seen w = 0%nat /\ w_reposted w = 0%nat
  /\ match w_pc w with Polling | Working _ | Raised => True | _ => False end.

(** [k] workers at the top of their loop, and a queue that holds the
    items followed by the sentinel, put once. *)
Definition pool_init (items : list A) (k : nat) : pool A :=
  pool_at_push items (replicate k (Worker Polling 0 0)).


Definition is_exited (w : worker A) : bool :=
  match w_pc w with Exited => true | _ => false end.










End Workers.

(** ** Well-formed batches *)

(** The seven lists of a batch describe the same number of records. *)
Definition balanced (fb : features_batch) : Prop :=
  length (kmers fb) = length (sampleinfo fb)
  /\ length (base_means fb) = length (sampleinfo fb)
  /\ length (base_stds fb) = length (sampleinfo fb)
  /\ length (base_signal_lens fb) = length (sampleinfo fb)
  /\ length (k_signals fb) = length (sampleinfo fb)
  /\ length (labels fb) = length (sampleinfo fb).

(** A batch the reader may put: balanced and not empty. *)
Definition good_batch (fb : features_batch) : Prop :=
  balanced fb /\ sampleinfo fb <> [].

(** What a run of the reader's code has put: Feature Batches only, each
    of them good; [ok] says what the local state is like if the code
    ended normally. *)
Definition puts_batches {S} (run : act (msg features_batch) S) (ok : S -> Prop) : Prop :=
  (exists batches, run.1 = Item <$> batches /\ Forall good_batch batches)
  /\ (forall s, run.2 = Ok s -> ok s).

(** The accumulator of the reader holds a good batch. *)
Definition good_state (s : reader_locals) : Prop := good_batch (rl_acc s).

(** Whether the character [c] occurs in [t]. *)
Fixpoint has_char (c : ascii) (t : string) : bool :=
  match t with
  | EmptyString => false
  | String x t' => Ascii.eqb x c || has_char c t'
  end.

(** ** The shape of an orchestrator's run *)

(** The processes joined in a trace, in join order. *)
Definition joined (tr : list event) : list target :=
  omap (fun ev => match ev with Join t => Some t | _ => None end) tr.

(** The events of a run over a directory with [r] readers and the scorers
    [ss]: the sentinel on [fast5s_q], the starts, the drain of the error
    counts, and the shutdown sequence. *)
Definition dir_run (r : nat) (ss : list target) : list event :=
  [Put_kill fast5s_q]
  ++ (Start <$> replicate r T_read_features_fast5s_q)
  ++ (Start <$> ss)
  ++ [Start T_write_predstr_to_file; Drain_errornum]
  ++ (Join <$> replicate r T_read_features_fast5s_q)
  ++ [Put_kill features_batch_q]
  ++ (Join <$> ss)
  ++ [Put_kill pred_str_q; Join T_write_predstr_to_file].

(** The events of a run over a feature file with the scorers [ss]. *)
Definition file_run (ss : list target) : list event :=
  [Start T_read_features_file]
  ++ (Start <$> ss)
  ++ [Start T_write_predstr_to_file]
  ++ (Join <$> ss)
  ++ [Put_kill pred_str_q; Join T_read_features_file;
      Join T_write_predstr_to_file].

Definition is_scorer (t : target) : bool :=
  match t with T_call_mods_q _ => true | _ => false end.

Definition is_reader (t : target) : bool :=
  match t with T_read_features_fast5s_q => true | _ => false end.

(** ** The prediction of one record *)

(** What [_call_mods] makes of record [i] of a batch, read off the record
    and the row of classifier outputs that belongs to it. *)
Definition pred_of_record (prec emax : Z) (py_round6 : spec_float -> spec_float)
    (code2base_dna : Z -> option string)
    (model : list (list Z) -> list (list spec_float) -> list (list spec_float) ->
             list (list Z) -> list (list (list spec_float)) ->
             result (list (list spec_float)))
    (fb : features_batch) (batch_size : Z) (i : nat) : result pred :=
  match logits_of model fb batch_size i with
  | None => Raise IndexError
  | Some row =>
      prob_0 ← Py.index row 0;
      prob_1 ← Py.index row 1;
      let prob_0_norm :=
        py_round6 (SFdiv prec emax prob_0 (SFadd prec emax prob_0 prob_1)) in
      let prob_1_norm := py_round6 (SFsub prec emax (SFone prec emax) prob_0_norm) in
      kmer ← Py.index (kmers fb) i;
      b_idx_kmer ← decode_kmer code2base_dna kmer;
      info ← Py.index (sampleinfo fb) i;
      label ← torch_argmax row;
      Ok (Pred info prob_0_norm prob_1_norm label (kmer_window b_idx_kmer))
  end.

(** ** The other stages of the pipeline *)

(** A [put] on one of the queues of the pipeline. *)
Inductive put : Type :=
| To_fast5s (m : msg (list string))
| To_errornum (error : Z)
| To_features (m : msg features_batch)
| To_pred_str (m : msg (list string)).


Definition feature_puts (tr : list put) : list (msg features_batch) :=
  omap (fun p => match p with To_features m => Some m | _ => None end) tr.

Definition pred_puts (tr : list put) : list (msg (list string)) :=
  omap (fun p => match p with To_pred_str m => Some m | _ => None end) tr.

Definition error_puts (tr : list put) : list Z :=
  omap (fun p => match p with To_errornum n => Some n | _ => None end) tr.

(** *** The scorer process *)

Section ScorerProcess.

Variables prec emax : Z.
Variable py_round6 : spec_float -> spec_float.
Variable str_float : spec_float -> string.
Variable code2base_dna : Z -> option string.
Variable accuracy_score : list Z -> list Z -> result spec_float.
Variable np_mean : list spec_float -> spec_float.
Variable model :
  list (list Z) -> list (list spec_float) -> list (list spec_float) ->
  list (list Z) -> list (list (list spec_float)) ->
  result (list (list spec_float)).
(** How lines 214-228 end: the model is built, its parameters are loaded
    from [model_path], and it is moved to the device. *)
Variable load_model : result unit.
(** [args.batch_size]. *)
Variable batch_size : Z.

(** The loop of [_call_mods_q] on the messages the process gets from
    [features_batch_q], in the order it gets them. It ends with
    [accuracy_list] and [batch_num_total] at the sentinel, and with [None]
    when the messages run out: the process is then left sleeping on the
    empty queue. The waits on the length of [pred_str_q] put nothing and
    are left out. *)
Fixpoint call_mods_q_loop (msgs : list (msg features_batch))
    (accuracy_list : list spec_float) (batch_num_total : Z)
  : act put (option (list spec_float * Z)) :=
  match msgs with
  | [] => mret None
  | Kill :: _ =>
      _ ← emit (To_features Kill);
      mret (Some (accuracy_list, batch_num_total))
  | Item features_batch :: msgs' =>
      r ← lift (_call_mods prec emax py_round6 str_float code2base_dna
                  accuracy_score np_mean model features_batch batch_size);
      let '(pred_str, accuracy, batch_num) :=
        (r : list string * spec_float * Z) in
      _ ← emit (To_pred_str (Item pred_str));
      call_mods_q_loop msgs' (accuracy_list ++ [accuracy])
                       (batch_num_total + batch_num)
  end.

(** [_call_mods_q(model_path, features_batch_q, pred_str_q, success_file,
    args, device)]. *)
Definition _call_mods_q (features_batch_q : list (msg features_batch))
  : act put (option (list spec_float * Z)) :=
  _ ← lift load_model;
  call_mods_q_loop features_batch_q [] 0.

End ScorerProcess.

(** *** The writer process *)

(** [t.endswith(suffix)]. *)
Fixpoint endswith (t suffix : string) : bool :=
  String.eqb t suffix
  || match t with
     | EmptyString => false
     | String _ t' => endswith t' suffix
     end.

(** What the writer does to its file, in program order. *)
Inductive file_event : Type :=
| Gzip_open (path : string)
| Open (path : string)
| File_write (text : string)
| File_flush
| File_close.

Definition newline : string := String "010"%char EmptyString.

(** The loop of [_write_predstr_to_file] on the messages the process
    gets from [predstr_q]: [true] when the function returns, [false] when
    the messages run out and the process is left sleeping on the empty
    queue. *)
Fixpoint writer_loop (msgs : list (msg (list string)))
  : list file_event * bool :=
  match msgs with
  | [] => ([], false)
  | Kill :: _ => ([File_close], true)
  | Item pred_str :: msgs' =>
      let rest := writer_loop msgs' in
      ((File_write <$> ((fun one_pred_str => one_pred_str ++ newline)%string
                        <$> pred_str))
       ++ File_flush :: rest.1, rest.2)
  end.

(** [_write_predstr_to_file(write_fp, predstr_q, is_gzip)]. *)
Definition _write_predstr_to_file (write_fp : string)
    (predstr_q : list (msg (list string))) (is_gzip : bool)
  : list file_event * bool :=
  let opened :=
    if is_gzip then
      let write_fp :=
        if negb (endswith write_fp ".gz") then (write_fp ++ ".gz")%string
        else write_fp in
      Gzip_open write_fp
    else Open write_fp in
  let rest := writer_loop predstr_q in
  (opened :: rest.1, rest.2).

(** The path the writer opens, the texts it writes, in order, and the
    events after which the file is closed. *)
Definition opened_path (tr : list file_event) : option string :=
  match tr with
  | Gzip_open path :: _ | Open path :: _ => Some path
  | _ => None
  end.

Definition writes (tr : list file_event) : list string :=
  omap (fun ev => match ev with File_write t => Some t | _ => None end) tr.

(** *** The readers of fast5 files *)

(** One element of the list [_extract_features] returns. *)
Record feature : Type := Feature {
  f_chrom : string;
  f_pos : Z;
  f_alignstrand : string;
  f_loc_in_ref : Z;
  f_readname : string;
  f_strand : string;
  f_k_mer : string;
  f_signal_means : list spec_float;
  f_signal_stds : list spec_float;
  f_signal_lens : list Z;
  f_kmer_base_signals : list (list spec_float);
  f_methy_label : Z
}.

Section Fast5Reader.

Variable base2code_dna : ascii -> option Z.
(** [_extract_features] of [extract_features], on a group of fast5 files
    and with the options of [args]: the features and the number of files
    that failed. *)
Variable _extract_features : list string -> result (list feature * Z).

(** Lines 310-319: what one element of [features_list] adds to the seven
    lists. *)
Definition sample_of_feature (features : feature) : result sample :=
  let info :=
    Py.join Py.tab
      [f_chrom features; Py.str_int (f_pos features); f_alignstrand features;
       Py.str_int (f_loc_in_ref features); f_readname features;
       f_strand features] in
  kmer ← mapR (Py.getitem base2code_dna) (list_ascii_of_string (f_k_mer features));
  Ok (Sample info kmer (f_signal_means features) (f_signal_stds features)
             (f_signal_lens features) (f_kmer_base_signals features)
             (f_methy_label features)).

(** [_read_features_from_fast5s(fast5s, ...)]: [(features_batches,
    error)]. An exception leaves none of the lists behind, so the records
    are built first and appended afterwards. *)
Definition _read_features_from_fast5s (fast5s : list string)
  : result (list features_batch * Z) :=
  r ← _extract_features fast5s;
  let '(features_list, error) := (r : list feature * Z) in
  samples ← mapR sample_of_feature features_list;
  Ok ([foldl push_sample empty_batch samples], error).

(** The loop of [_read_features_fast5s_q] on the messages the process
    gets from [fast5s_q]; it ends with [f5_num]. *)
Fixpoint read_features_fast5s_q_loop (msgs : list (msg (list string)))
    (f5_num : Z) : act put (option Z) :=
  match msgs with
  | [] => mret None
  | Kill :: _ =>
      _ ← emit (To_fast5s Kill);
      mret (Some f5_num)
  | Item fast5s :: msgs' =>
      let f5_num := f5_num + Z.of_nat (length fast5s) in
      r ← lift (_read_features_from_fast5s fast5s);
      let '(features_batches, error) := (r : list features_batch * Z) in
      _ ← emit (To_errornum error);
      _ ← (((fun features_batch => To_features (Item features_batch))
            <$> features_batches, Ok tt) : act put unit);
      read_features_fast5s_q_loop msgs' f5_num
  end.

(** [_read_features_fast5s_q(fast5s_q, features_batch_q, errornum_q,
    ...)]. *)
Definition _read_features_fast5s_q (fast5s_q : list (msg (list string)))
  : act put (option Z) :=
  read_features_fast5s_q_loop fast5s_q 0.

End Fast5Reader.

(** *** The two worker loops as pools *)

(** Whether a call returns. *)
Definition gets_through {A B : Type} (body : A -> result B) (a : A) : bool :=
  match body a with Ok _ => true | Raise _ => false end.


(** One step of a pool of [_call_mods_q] processes on [features_batch_q]:
    the body of the loop is [_call_mods], line 247. *)
Definition _call_mods_q_step (prec emax : Z)
    (py_round6 : spec_float -> spec_float) (str_float : spec_float -> string)
    (code2base_dna : Z -> option string)
    (accuracy_score : list Z -> list Z -> result spec_float)
    (np_mean : list spec_float -> spec_float)
    (model :
       list (list Z) -> list (list spec_float) -> list (list spec_float) ->
       list (list Z) -> list (list (list spec_float)) ->
       result (list (list spec_float)))
    (batch_size : Z)
  : nat -> pool features_batch -> option (pool features_batch) :=
  pool_step
    (gets_through
       (fun features_batch =>
          _call_mods prec emax py_round6 str_float code2base_dna
            accuracy_score np_mean model features_batch batch_size)).


(** The pool after a run under a schedule, when every scheduled worker
    could move. *)
Definition _call_mods_q_run (prec emax : Z)
    (py_round6 : spec_float -> spec_float) (str_float : spec_float -> string)
    (code2base_dna : Z -> option string)
    (accuracy_score : list Z -> list Z -> result spec_float)
    (np_mean : list spec_float -> spec_float)
    (model :
       list (list Z) -> list (list spec_float) -> list (list spec_float) ->
       list (list Z) -> list (list (list spec_float)) ->
       result (list (list spec_float)))
    (batch_size : Z)
  : list nat -> pool features_batch -> option (pool features_batch) :=
  pool_run
    (gets_through
       (fun features_batch =>
          _call_mods prec emax py_round6 str_float code2base_dna
            accuracy_score np_mean model features_batch batch_size)).


(** ** Example inputs *)

(** Single-precision values [m * 2^e]. *)
Definition sf32 (m e : Z) : spec_float := binary_normalize 24 128 m e false.

Definition ex_code2base_dna (x : Z) : option string :=
  match x with
  | 0 => Some "A" | 1 => Some "C" | 2 => Some "G" | 3 => Some "T" | 4 => Some "N"
  | _ => None
  end%string.

Definition ex_base2code_dna (c : ascii) : option Z :=
  if Ascii.eqb c "A" then Some 0
  else if Ascii.eqb c "C" then Some 1
  else if Ascii.eqb c "G" then Some 2
  else if Ascii.eqb c "T" then Some 3
  else if Ascii.eqb c "N" then Some 4
  else None.

(** Decimal integers, and the floats they denote. *)
Definition ex_int (t : string) : option Z := Z.of_int <$> NilZero.int_of_string t.
Definition ex_float (t : string) : option spec_float :=
  (fun z => binary_normalize 53 1024 z 0 false) <$> ex_int t.

Definition ex_str_float (x : spec_float) : string :=
  match x with
  | S754_zero _ => "0.0"
  | S754_infinity _ => "inf"
  | S754_nan => "nan"
  | S754_finite s m e =>
      ((if s then "-" else "") ++ Py.str_int (Zpos m) ++ "*2^" ++ Py.str_int e)%string
  end.

(** The share of equal labels, and the sum divided by the count. *)
Definition ex_accuracy_score (y_true y_pred : list Z) : result spec_float :=
  if Nat.eqb (length y_true) (length y_pred) then
    let hits := length (filter (fun yy => yy.1 = yy.2) (zip y_true y_pred)) in
    Ok (SFdiv 53 1024 (binary_normalize 53 1024 (Z.of_nat hits) 0 false)
                      (binary_normalize 53 1024 (Z.of_nat (length y_true)) 0 false))
  else Raise ValueError.

Definition ex_np_mean (xs : list spec_float) : spec_float :=
  SFdiv 53 1024 (foldl (SFadd 53 1024) (S754_zero false) xs)
                (binary_normalize 53 1024 (Z.of_nat (length xs)) 0 false).

(** A classifier that answers [(0.25, 0.75)] for a k-mer that starts with
    [C] and [(0.75, 0.25)] for any other. *)
Definition ex_model (b_kmers : list (list Z))
    (b_base_means b_base_stds : list (list spec_float))
    (b_base_signal_lens : list (list Z))
    (b_k_signals : list (list (list spec_float)))
  : result (list (list spec_float)) :=
  Ok ((fun kmer => match kmer with
                   | 1 :: _ => [sf32 1 (-2); sf32 3 (-2)]
                   | _ => [sf32 3 (-2); sf32 1 (-2)]
                   end) <$> b_kmers).

Definition ex_info (pos readid : string) : string :=
  Py.join Py.tab ["chr1"; pos; "+"; "5"; readid; "t"]%string.

(** Three records, with sequences of 11, 3 and 5 bases. *)
Definition ex_batch : features_batch :=
  FeaturesBatch
    [ex_info "10" "read1"; ex_info "20" "read1"; ex_info "30" "read2"]
    [[0; 1; 2; 3; 0; 1; 2; 3; 0; 1; 2]; [1; 1; 2]; [3; 0; 1; 2; 3]]
    [[]; []; []] [[]; []; []] [[]; []; []] [[]; []; []]
    [0; 1; 1].

Definition ex_scored : list string * spec_float * Z :=
  Eval vm_compute in
    match _call_mods 24 128 (fun x => x) ex_str_float ex_code2base_dna
            ex_accuracy_score ex_np_mean ex_model ex_batch 2 with
    | Ok r => r
    | Raise _ => ([], S754_nan, 0)
    end.

(** A line of a feature file for a record of read [readid]. *)
Definition ex_line (pos readid : string) : string :=
  Py.join Py.tab
    ["chr1"; pos; "+"; "5"; readid; "t"; "ACG"; "1,2,3"; "1,1,1"; "4,5,6";
     "1,2;3,4;5,6"; "1"]%string.

(** Four lines: two of [read1], one of [read2], one of [read3]. *)
Definition ex_file : list string :=
  [ex_line "10" "read1"; ex_line "20" "read1"; ex_line "30" "read2";
   ex_line "40" "read3"]%string.

Definition ex_records : list (string * sample) :=
  Eval vm_compute in
    match mapR (parse_line (fun t => t) ex_base2code_dna ex_float ex_int) ex_file with
    | Ok recs => recs
    | Raise _ => []
    end.

Definition ex_args : args :=
  Args "model.ckpt" "fast5s" 1 2 30 512 "calls.tsv" false.

(** A file system in which only the input path exists. *)
Definition ex_path_exists (path : string) : bool := String.eqb path "fast5s".



(** A batch of one record with a code that [ex_code2base_dna] lacks:
    [_call_mods] raises [KeyError] on it. *)
Definition ex_bad_batch : features_batch :=
  FeaturesBatch [ex_info "40" "read3"] [[0; 9; 2]] [[]] [[]] [[]] [[]] [0].

(** Two scorers on [ex_bad_batch] and [ex_batch]: the first takes the bad
    batch and is ended by the exception, the second scores the other
    batch, takes the sentinel and puts it back. *)
Definition ex_schedule_raised : list nat := [0; 0; 1; 1; 1; 1]%nat.

Definition ex_pool_raised : pool features_batch :=
  Pool [Kill] [Worker Raised 0 0; Worker Exited 1 1].

(** The first record of [ex_file]. *)
Definition ex_record : string * sample :=
  Eval vm_compute in
    match ex_records with
    | rec :: _ => rec
    | [] => (EmptyString, Sample EmptyString [] [] [] [] [] 0)
    end.

(** The two lines of [read1]: a file that holds a single read. *)
Definition ex_file_one_read : list string :=
  [ex_line "10" "read1"; ex_line "20" "read1"]%string.

(** [ex_batch] scored one record at a time. *)
Definition ex_scored_1 : list string * spec_float * Z :=
  Eval vm_compute in
    match _call_mods 24 128 (fun x => x) ex_str_float ex_code2base_dna
            ex_accuracy_score ex_np_mean ex_model ex_batch 1 with
    | Ok r => r
    | Raise _ => ([], S754_nan, 0)
    end.

(** A scorer that gets [ex_batch] and the sentinel. *)
Definition ex_scorer_run : list put * option (list spec_float * Z) :=
  Eval vm_compute in
    let run := _call_mods_q 24 128 (fun x => x) ex_str_float ex_code2base_dna
                 ex_accuracy_score ex_np_mean ex_model (Ok tt) 2
                 [Item ex_batch; Kill] in
    (run.1, match run.2 with Ok r => r | Raise _ => None end).

(** An extraction that finds one feature in every fast5 file, named after
    the file, and no failure. *)
Definition ex_extract_features (fast5s : list string)
  : result (list feature * Z) :=
  Ok ((fun name => Feature "chr1" 10 "+" 5 name "t" "ACG" [] [] [] [] 1)
        <$> fast5s, 0).

(** Two groups of fast5 files, the second one empty. *)
Definition ex_groups : list (list string) :=
  [["a.fast5"; "b.fast5"]; []]%string.

Definition ex_fast5_run : list put * option Z :=
  Eval vm_compute in
    let run := _read_features_fast5s_q ex_base2code_dna ex_extract_features
                 ((Item <$> ex_groups) ++ [Kill]) in
    (run.1, match run.2 with Ok r => r | Raise _ => None end).

(** The scorer behind the reader of [ex_file], and behind the reader of
    [ex_groups]. *)
Definition ex_file_scorer_end : option (list spec_float * Z) :=
  Eval vm_compute in
    match (_call_mods_q 24 128 (fun x => x) ex_str_float ex_code2base_dna
             ex_accuracy_score ex_np_mean ex_model (Ok tt) 2
             (_read_features_file (fun t => t) ex_base2code_dna ex_float ex_int
                ex_file 2).1).2 with
    | Ok r => r
    | Raise _ => None
    end.

Definition ex_fast5_scorer_end : option (list spec_float * Z) :=
  Eval vm_compute in
    match (_call_mods_q 24 128 (fun x => x) ex_str_float ex_code2base_dna
             ex_accuracy_score ex_np_mean ex_model (Ok tt) 2
             (feature_puts ex_fast5_run.1 ++ [Kill])).2 with
    | Ok r => r
    | Raise _ => None
    end.

(** * Properties *)

(** ** Laws of the effect monad *)

Section ActLaws.

Context {E : Type}.

Lemma act_bind_ok {A B} (a : A) (f : A -> act E B) :
  (([], Ok a) : act E A) ≫= f = f a.
Proof. unfold mbind, act_bind. by destruct (f a). Qed.

Lemma act_bind_lift_ok {A B} (a : A) (f : A -> act E B) :
  lift (Ok a) ≫= f = f a.
Proof. apply act_bind_ok. Qed.

Lemma act_bind_mret {A B} (a : A) (f : A -> act E B) :
  mret a ≫= f = f a.
Proof. apply act_bind_ok. Qed.

Lemma act_bind_raise {A B} (tr : list E) (e : exn) (f : A -> act E B) :
  ((tr, Raise e) : act E A) ≫= f = (tr, Raise e).
Proof. reflexivity. Qed.

Lemma act_bind_fst {A B} (m : act E A) (f : A -> act E B) :
  (m ≫= f).1 = m.1 ++ match m.2 with Ok a => (f a).1 | Raise _ => [] end.
Proof.
  destruct m as [tr [a|e]]; unfold mbind, act_bind; simpl.
  - by destruct (f a).
  - by rewrite app_nil_r.
Qed.

Lemma act_bind_snd {A B} (m : act E A) (f : A -> act E B) :
  (m ≫= f).2 = match m.2 with Ok a => (f a).2 | Raise e => Raise e end.
Proof.
  destruct m as [tr [a|e]]; unfold mbind, act_bind; simpl; [|done].
  by destruct (f a).
Qed.

Lemma act_bind_emit {B} (ev : E) (f : unit -> act E B) :
  emit ev ≫= f = (ev :: (f tt).1, (f tt).2).
Proof. unfold mbind, act_bind, emit. by destruct (f tt). Qed.

Lemma act_bind_trace {A B} (tr : list E) (a : A) (f : A -> act E B) :
  ((tr, Ok a) : act E A) ≫= f = (tr ++ (f a).1, (f a).2).
Proof. unfold mbind, act_bind. by destruct (f a). Qed.

End ActLaws.

(** ** [mapR] *)

Lemma mapR_Forall2 {A B} (f : A -> result B) (xs : list A) (ys : list B) :
  mapR f xs = Ok ys <-> Forall2 (fun x y => f x = Ok y) xs ys.
Proof.
  revert ys. induction xs as [|x xs IH]; intros ys; simpl.
  - split.
    + intros [= <-]. constructor.
    + intros H. by inversion H.
  - split.
    + destruct (f x) as [y|e] eqn:Hx; simpl; [|done].
      destruct (mapR f xs) as [ys'|e] eqn:Hxs; simpl; [|done].
      intros [= <-]. constructor; [done|]. by apply IH.
    + intros H. inversion H as [|? y ? ys' Hx Hxs]; subst.
      rewrite Hx. simpl. apply IH in Hxs. by rewrite Hxs.
Qed.

Lemma mapR_length {A B} (f : A -> result B) xs ys :
  mapR f xs = Ok ys -> length ys = length xs.
Proof. intros H%mapR_Forall2. symmetry. by eapply Forall2_length. Qed.

Lemma mapR_total {A B} (f : A -> result B) xs :
  Forall (fun x => exists y, f x = Ok y) xs -> exists ys, mapR f xs = Ok ys.
Proof.
  induction 1 as [|x xs [y Hy] _ [ys IH]]; simpl.
  - by eexists.
  - rewrite Hy, IH. simpl. by eexists.
Qed.

(** ** Slices *)

Lemma slice_take_drop {A} (l : list A) (s e : Z) :
  0 <= s <= e ->
  Py.slice l s e = take (Z.to_nat (e - s)) (drop (Z.to_nat s) l).
Proof.
  intros Hse. unfold Py.slice, Py.adjust.
  destruct (Z.ltb_spec s 0); [lia|]. destruct (Z.ltb_spec e 0); [lia|].
  destruct (Z.leb_spec (Z.of_nat (length l)) s).
  - rewrite !drop_ge by lia. by rewrite !take_nil.
  - destruct (Z.leb_spec (Z.of_nat (length l)) e); [|done].
    rewrite !take_ge; [done| |]; rewrite length_drop; lia.
Qed.

Lemma slice_length {A} (l : list A) (s e : Z) :
  0 <= s <= e ->
  length (Py.slice l s e) = Nat.min (Z.to_nat (e - s)) (length l - Z.to_nat s).
Proof. intros. rewrite slice_take_drop by done. by rewrite length_take, length_drop. Qed.

Lemma slice_lookup {A} (l : list A) (s e : Z) (j : nat) :
  0 <= s <= e -> (j < Z.to_nat (e - s))%nat ->
  Py.slice l s e !! j = l !! (Z.to_nat s + j)%nat.
Proof.
  intros. rewrite slice_take_drop by done.
  rewrite lookup_take_lt by done. by rewrite lookup_drop.
Qed.

(** The sub-batches of a list, put end to end, give the list back. *)
Lemma concat_sub_batches {A} (l : list A) (b : nat) (c : nat) :
  concat ((fun k : nat => take b (drop (k * b) l)) <$> seq 0 c) = take (c * b) l.
Proof.
  induction c as [|c IH].
  - simpl. by rewrite take_0.
  - rewrite seq_S, fmap_app, concat_app, IH. simpl.
    rewrite app_nil_r, take_take_drop. f_equal. lia.
Qed.

(** ** Device lists and the loops that start processes *)

Lemma length_join_replicate {A} (k : nat) (l : list A) :
  length (mjoin (replicate k l)) = (k * length l)%nat.
Proof. induction k as [|k IH]; simpl; [done|]. rewrite length_app, IH. lia. Qed.

Lemma lookup_join_replicate {A} (k : nat) (l : list A) (i : nat) :
  (i < k * length l)%nat ->
  mjoin (replicate k l) !! i = l !! (i mod length l)%nat.
Proof.
  revert i. induction k as [|k IH]; intros i Hi; simpl in *; [lia|].
  destruct (decide (i < length l)%nat) as [Hlt|Hge].
  - rewrite lookup_app_l by done. by rewrite Nat.mod_small.
  - rewrite lookup_app_r by lia. rewrite IH by lia. f_equal.
    replace i with ((i - length l) + 1 * length l)%nat at 2 by lia.
    by rewrite Nat.Div0.mod_add.
Qed.

Lemma get_gpus_unfold num_gpus :
  _get_gpus num_gpus = mjoin (replicate 1000 (base_gpus num_gpus)).
Proof. reflexivity. Qed.

Lemma length_base_gpus num_gpus :
  length (base_gpus num_gpus) = Z.to_nat (Z.max 1 num_gpus).
Proof.
  unfold base_gpus. destruct (Z.ltb_spec 0 num_gpus).
  - rewrite length_fmap, length_seq. lia.
  - simpl. lia.
Qed.

Lemma length_get_gpus num_gpus :
  length (_get_gpus num_gpus) = (1000 * Z.to_nat (Z.max 1 num_gpus))%nat.
Proof. by rewrite get_gpus_unfold, length_join_replicate, length_base_gpus. Qed.

Lemma lookup_base_gpus num_gpus (i : nat) :
  base_gpus num_gpus !! (i mod length (base_gpus num_gpus))%nat
  = Some (device_of num_gpus i).
Proof.
  rewrite length_base_gpus. unfold base_gpus, device_of.
  destruct (Z.ltb_spec 0 num_gpus) as [Hpos|Hnpos].
  - replace (Z.max 1 num_gpus) with num_gpus by lia.
    rewrite list_lookup_fmap, lookup_seq_lt; simpl.
    + rewrite Nat2Z.inj_mod. by rewrite Z2Nat.id by lia.
    + apply Nat.mod_upper_bound. lia.
  - replace (Z.max 1 num_gpus) with 1 by lia. by rewrite Nat.mod_1_r.
Qed.

Lemma lookup_get_gpus num_gpus (i : nat) :
  (i < length (_get_gpus num_gpus))%nat ->
  _get_gpus num_gpus !! i = Some (device_of num_gpus i).
Proof.
  intros Hi. rewrite get_gpus_unfold in *.
  rewrite length_join_replicate in Hi.
  rewrite lookup_join_replicate by done. apply lookup_base_gpus.
Qed.

Lemma take_get_gpus num_gpus (n : nat) :
  take n (_get_gpus num_gpus)
  = device_of num_gpus <$> seq 0 (Nat.min n (length (_get_gpus num_gpus))).
Proof.
  apply list_eq. intros i.
  rewrite list_lookup_fmap.
  destruct (decide (i < Nat.min n (length (_get_gpus num_gpus)))%nat) as [Hlt|Hge].
  - rewrite lookup_take_lt by lia. rewrite lookup_seq_lt by done. simpl.
    apply lookup_get_gpus. lia.
  - rewrite lookup_seq_ge by lia. simpl.
    apply lookup_ge_None. rewrite length_take. lia.
Qed.

(** The loop that starts the scorers starts one per device of the list
    from [gpuindex] on, and raises when the list runs out. *)
Lemma start_scorers_fst gpulist gpuindex n :
  (start_scorers gpulist gpuindex n).1
  = (fun d => Start (T_call_mods_q d)) <$> take n (drop gpuindex gpulist).
Proof.
  revert gpuindex. induction n as [|n IH]; intros gpuindex; simpl; [done|].
  unfold Py.index. destruct (gpulist !! gpuindex) as [d|] eqn:Hd.
  - specialize (IH (S gpuindex)). rewrite (drop_S _ _ _ Hd).
    destruct (start_scorers gpulist (S gpuindex) n) as [tr [ds|e]];
      simpl in *; subst tr; by rewrite ?app_nil_r.
  - apply lookup_ge_None in Hd. by rewrite drop_ge by lia.
Qed.

Lemma start_scorers_snd gpulist gpuindex n :
  (gpuindex + n <= length gpulist)%nat ->
  (start_scorers gpulist gpuindex n).2 = Ok (take n (drop gpuindex gpulist)).
Proof.
  revert gpuindex. induction n as [|n IH]; intros gpuindex Hlen; simpl; [done|].
  unfold Py.index. destruct (gpulist !! gpuindex) as [d|] eqn:Hd.
  - rewrite (drop_S _ _ _ Hd).
    assert (S gpuindex + n <= length gpulist)%nat as IH'%IH by lia.
    destruct (start_scorers gpulist (S gpuindex) n) as [tr [ds|e]];
      simpl in *; by simplify_eq.
  - apply lookup_ge_None in Hd. lia.
Qed.

Lemma scorer_devices_scorers (ds : list Z) :
  scorer_devices ((fun d => Start (T_call_mods_q d)) <$> ds) = ds.
Proof.
  unfold scorer_devices. induction ds as [|d ds IH]; simpl; [done|].
  f_equal. exact IH.
Qed.

Lemma scorer_devices_none (tr : list event) :
  Forall (fun ev => forall d, ev <> Start (T_call_mods_q d)) tr ->
  scorer_devices tr = [].
Proof.
  induction 1 as [|ev tr Hev _ IH]; [done|]. unfold scorer_devices in *. simpl.
  destruct ev as [| [] | | |]; try exact IH. by destruct (Hev device).
Qed.

Lemma scorer_devices_app tr1 tr2 :
  scorer_devices (tr1 ++ tr2) = scorer_devices tr1 ++ scorer_devices tr2.
Proof. apply omap_app. Qed.

Lemma scorer_devices_fmap_other {X} (f : X -> event) (xs : list X) :
  (forall x d, f x <> Start (T_call_mods_q d)) ->
  scorer_devices (f <$> xs) = [].
Proof.
  intros Hf. apply scorer_devices_none, Forall_fmap, Forall_forall.
  intros x _ d. apply Hf.
Qed.

Ltac no_scorer_start :=
  repeat first
    [ apply Forall_nil_2
    | apply Forall_cons; split; [done|]
    | apply Forall_app; split
    | apply Forall_fmap, Forall_forall; intros; done ].

Lemma drain_and_join_trace n_readers scorers :
  drain_and_join n_readers scorers
  = (Drain_errornum
       :: (Join <$> ((fun _ => T_read_features_fast5s_q) <$> Py.range n_readers))
       ++ Put_kill features_batch_q
       :: (Join <$> scorers) ++ [Put_kill pred_str_q; Join T_write_predstr_to_file],
     Ok tt).
Proof. reflexivity. Qed.

Lemma drain_and_join_no_scorer n_readers scorers :
  scorer_devices (drain_and_join n_readers scorers).1 = [].
Proof.
  rewrite drain_and_join_trace. simpl fst.
  apply scorer_devices_none. no_scorer_start.
Qed.

(** The scorers [_call_mods_from_fast5s_gpu] starts, in start order. *)
Lemma gpu_scorer_devices num_gpus a :
  scorer_devices (_call_mods_from_fast5s_gpu num_gpus a).1
  = take (Z.to_nat (pool_sizes_gpu a).2) (_get_gpus num_gpus).
Proof.
  unfold _call_mods_from_fast5s_gpu.
  destruct (pool_sizes_gpu a) as [np g]. simpl snd.
  rewrite act_bind_emit. simpl. unfold start_n.
  pose proof (start_scorers_fst (_get_gpus num_gpus) 0 (Z.to_nat g)) as Hfst.
  rewrite drop_0 in Hfst.
  destruct (start_scorers (_get_gpus num_gpus) 0 (Z.to_nat g)) as [tr [ds|e]];
    simpl in *; subst tr.
  - rewrite (scorer_devices_app (_ <$> Py.range _)).
    rewrite (scorer_devices_app (_ <$> take _ _)).
    rewrite scorer_devices_scorers, scorer_devices_fmap_other by done.
    rewrite (scorer_devices_none (Start T_write_predstr_to_file :: _)).
    + by rewrite app_nil_r.
    + no_scorer_start.
  - rewrite !scorer_devices_app, scorer_devices_scorers.
    by rewrite scorer_devices_fmap_other by done.
Qed.

Lemma file_scorer_devices use_cuda num_gpus cpu_n a :
  scorer_devices (call_mods_from_file use_cuda num_gpus cpu_n a).1
  = take (Z.to_nat (nproc_dp_of use_cuda cpu_n a)) (_get_gpus num_gpus).
Proof.
  unfold call_mods_from_file. rewrite act_bind_emit. simpl.
  pose proof (start_scorers_fst (_get_gpus num_gpus) 0
                (Z.to_nat (nproc_dp_of use_cuda cpu_n a))) as Hfst.
  rewrite drop_0 in Hfst.
  destruct (start_scorers (_get_gpus num_gpus) 0 _) as [tr [ds|e]];
    simpl in *; subst tr.
  - rewrite (scorer_devices_app (_ <$> take _ _)), scorer_devices_scorers.
    rewrite (scorer_devices_none (Start T_write_predstr_to_file :: _)).
    + by rewrite app_nil_r.
    + no_scorer_start.
  - apply scorer_devices_scorers.
Qed.

Lemma pool_sizes_gpu_snd a : (pool_sizes_gpu a).2 = Z.max 1 (nproc_gpu a).
Proof. unfold pool_sizes_gpu. simpl. destruct (Z.ltb_spec (nproc_gpu a) 1); lia. Qed.

Lemma pool_sizes_gpu_fst a :
  (pool_sizes_gpu a).1
  = if nproc a <=? Z.max 1 (nproc_gpu a) + 1 then Z.max 1 (nproc_gpu a) + 2
    else nproc a.
Proof.
  unfold pool_sizes_gpu. simpl.
  replace (if nproc_gpu a <? 1 then 1 else nproc_gpu a) with (Z.max 1 (nproc_gpu a))
    by (destruct (Z.ltb_spec (nproc_gpu a) 1); lia).
  destruct (Z.leb_spec (nproc a) (Z.max 1 (nproc_gpu a) + 1)); lia.
Qed.

(** ** Device assignment *)

(** C7. The devices of the scorers, in the order in which
    [_call_mods_from_fast5s_gpu] (and the feature-file branch of
    [call_mods]) starts them, are [device_of 0], [device_of 1], ...: the
    [i]-th scorer runs on device [i mod num_gpus] when [num_gpus] devices
    were discovered, and on device 0 when none was. The list of
    [_get_gpus] has [1000 * max 1 num_gpus] entries, which bounds the
    number of scorers that get a device. *)
Theorem scorer_devices_round_robin (use_cuda : bool) (num_gpus cpu_n : Z) (a : args) :
  let cap := (1000 * Z.to_nat (Z.max 1 num_gpus))%nat in
  scorer_devices (_call_mods_from_fast5s_gpu num_gpus a).1
  = device_of num_gpus <$> seq 0 (Nat.min (Z.to_nat (Z.max 1 (nproc_gpu a))) cap)
  /\ scorer_devices (call_mods_from_file use_cuda num_gpus cpu_n a).1
     = device_of num_gpus <$> seq 0 (Nat.min (Z.to_nat (nproc_dp_of use_cuda cpu_n a)) cap).
Proof.
  intros cap. split.
  - rewrite gpu_scorer_devices, pool_sizes_gpu_snd, take_get_gpus.
    by rewrite length_get_gpus.
  - rewrite file_scorer_devices, take_get_gpus. by rewrite length_get_gpus.
Qed.

Lemma not_started (t : target) (tr : list event) :
  Forall (fun ev => ev <> Start t) tr -> t ∉ started tr.
Proof.
  unfold started. induction 1 as [|ev tr Hev _ IH]; simpl.
  - apply not_elem_of_nil.
  - destruct ev as [|t'| | |]; try exact IH.
    apply not_elem_of_cons. split; [congruence|exact IH].
Qed.

(** ** Pool sizes *)

(** C5. When [nproc <= nproc_gpu + 1], with [nproc_gpu] floored at 1, the
    worker budget becomes [nproc_gpu + 2]; this is settled before the
    first effect of the orchestrator, which then puts the sentinel on
    [fast5s_q] and starts one reader, and no exception comes from the
    correction: the run ends normally whenever the device list is long
    enough for the scorers. *)
Theorem pool_size_correction (num_gpus : Z) (a : args) :
  let g := Z.max 1 (nproc_gpu a) in
  nproc a <= g + 1 ->
  let run := _call_mods_from_fast5s_gpu num_gpus a in
  pool_sizes_gpu a = (g + 2, g)
  /\ g + 2 <= (pool_sizes_gpu a).1
  /\ (exists tr,
        run.1 = Put_kill fast5s_q :: Start T_read_features_fast5s_q :: tr
        /\ T_read_features_fast5s_q ∉ started tr)
  /\ (g <= 1000 * Z.max 1 num_gpus -> run.2 = Ok tt).
Proof.
  intros g Hle run.
  assert (pool_sizes_gpu a = (g + 2, g)) as Hsz.
  { rewrite (surjective_pairing (pool_sizes_gpu a)).
    rewrite pool_sizes_gpu_fst, pool_sizes_gpu_snd. fold g.
    by destruct (Z.leb_spec (nproc a) (g + 1)); [|lia]. }
  split; [done|]. split; [rewrite Hsz; simpl; lia|].
  subst run. unfold _call_mods_from_fast5s_gpu. rewrite Hsz.
  replace (g + 2 - g - 1) with 1 by lia.
  rewrite act_bind_emit. simpl.
  pose proof (start_scorers_fst (_get_gpus num_gpus) 0 (Z.to_nat g)) as Hfst.
  pose proof (start_scorers_snd (_get_gpus num_gpus) 0 (Z.to_nat g)) as Hsnd.
  rewrite length_get_gpus in Hsnd.
  destruct (start_scorers (_get_gpus num_gpus) 0 (Z.to_nat g)) as [tr [ds|e]];
    simpl in *; subst tr.
  - split; [|done]. eexists. split; [done|].
    apply not_started. no_scorer_start.
  - split.
    + eexists. split; [done|]. apply not_started. no_scorer_start.
    + intros Hcap.
      assert (Z.to_nat g <= 1000 * Z.to_nat (Z.max 1 num_gpus))%nat as H by lia.
      by apply Hsnd in H.
Qed.

(** ** Start-up validation *)

(** C9. When the model path or the input path does not exist,
    [call_mods] ends with an exception and has done nothing before it: no
    process was started; the two checks themselves raise [ValueError].
    When both paths exist the checks raise nothing and give the two
    absolute paths. *)
Theorem call_mods_validates_paths
    (use_cuda : bool) (num_gpus cpu_n : Z)
    (path_exists path_isdir : string -> bool) (abspath : string -> string)
    (str_uuid1 : string) (set_start_method : result unit)
    (extract_preprocess : result Z) (a : args) :
  let run := call_mods use_cuda num_gpus cpu_n path_exists path_isdir abspath
               str_uuid1 set_start_method extract_preprocess a in
  (path_exists (abspath (model_path a)) = false
   \/ path_exists (abspath (input_path a)) = false ->
   validate_paths path_exists abspath a = Raise ValueError
   /\ run.1 = [] /\ started run.1 = [] /\ exists e, run.2 = Raise e)
  /\ (path_exists (abspath (model_path a)) = true ->
      path_exists (abspath (input_path a)) = true ->
      validate_paths path_exists abspath a
      = Ok (abspath (model_path a), abspath (input_path a))).
Proof.
  intros run. split.
  - intros Hmiss.
    assert (validate_paths path_exists abspath a = Raise ValueError) as Hv.
    { unfold validate_paths.
      destruct (path_exists (abspath (model_path a))) eqn:Hm; simpl; [|done].
      destruct Hmiss as [H|H]; [done|]. by rewrite H. }
    split; [done|]. subst run. unfold call_mods. rewrite Hv.
    destruct use_cuda; [destruct set_start_method as [[]|e]|]; simpl; eauto.
  - intros Hm Hi. unfold validate_paths. by rewrite Hm, Hi.
Qed.

(** ** The reader of a feature file *)

(** C10. On a file with no line, [_read_features_file] ends with
    [StopIteration], raised by [next(infile)] (line 79): it has put
    nothing on [features_batch_q], neither a Feature Batch nor the
    sentinel. *)
Theorem read_features_file_empty
    (py_strip : string -> string) (base2code_dna : ascii -> option Z)
    (py_float : string -> option spec_float) (py_int : string -> option Z)
    (f5_batch_size : Z) :
  let run := _read_features_file py_strip base2code_dna py_float py_int []
               f5_batch_size in
  run.2 = Raise StopIteration /\ run.1 = [] /\ Kill ∉ run.1.
Proof. intros run. repeat split. apply not_elem_of_nil. Qed.

(** ** The scorer *)

Lemma adjust_id (len i : Z) : 0 <= i <= len -> Py.adjust len i = i.
Proof.
  intros. unfold Py.adjust.
  destruct (Z.ltb_spec i 0); [lia|]. destruct (Z.leb_spec len i); lia.
Qed.

Lemma length_substring (n m : nat) (t : string) :
  String.length (substring n m t) = Nat.min m (String.length t - n).
Proof.
  revert n m. induction t as [|c t IH]; intros [|n] [|m]; simpl; try done.
  all: rewrite IH; lia.
Qed.

Lemma substring_all (t : string) : substring 0 (String.length t) t = t.
Proof. induction t as [|c t IH]; simpl; [done|]. by rewrite IH. Qed.

Lemma bkmer_start_max (len : Z) : bkmer_start len = Z.max 0 (len / 2 - 2).
Proof. unfold bkmer_start. destruct (Z.leb_spec 0 (len / 2 - 2)); lia. Qed.

Lemma bkmer_end_min (len : Z) : bkmer_end len = Z.min len (len / 2 + 3).
Proof. unfold bkmer_end. destruct (Z.leb_spec (len / 2 + 3) len); lia. Qed.

Lemma SFcompare_antisym (x y : spec_float) :
  SFcompare x y = CompOpp <$> SFcompare y x.
Proof.
  destruct x as [s1|s1| |s1 m1 e1], y as [s2|s2| |s2 m2 e2]; simpl;
    try done; try (by destruct s1); try (by destruct s2);
    try (by destruct s1, s2).
  destruct s1, s2; simpl; try done;
    rewrite (Z.compare_antisym e1 e2); destruct (e1 ?= e2); simpl; try done;
    change (Pos.compare_cont Eq ?a ?b) with (Pos.compare a b);
    rewrite (Pos.compare_antisym m1 m2); by destruct (m1 ?= m2)%positive.
Qed.

Lemma SFleb_not_ltb (x y : spec_float) : SFleb y x = true -> SFltb x y = false.
Proof.
  unfold SFleb, SFltb. rewrite (SFcompare_antisym x y).
  by destruct (SFcompare y x) as [[]|].
Qed.

Lemma SFleb_not_nan (x y : spec_float) :
  SFleb y x = true -> is_nan x = false /\ is_nan y = false.
Proof. by destruct x, y. Qed.

Lemma SFltb_not_nan (x y : spec_float) :
  SFltb x y = true -> is_nan x = false /\ is_nan y = false.
Proof. by destruct x, y. Qed.

(** The label of a row of two outputs. *)
Lemma torch_argmax_pair (a b : spec_float) :
  torch_argmax [a; b]
  = Ok (if negb (is_nan a) && (is_nan b || SFltb a b) then 1 else 0).
Proof. unfold torch_argmax. simpl. by destruct (negb _ && _). Qed.

Lemma sub_batch_take_drop {X} (l : list X) (batch_size : Z) (k : nat) :
  0 < batch_size ->
  Py.slice l (Z.of_nat k * batch_size) (Z.of_nat k * batch_size + batch_size)
  = take (Z.to_nat batch_size) (drop (k * Z.to_nat batch_size) l).
Proof.
  intros Hbs. rewrite slice_take_drop by lia. f_equal; [f_equal; lia|].
  f_equal. rewrite Z2Nat.inj_mul, Nat2Z.id by lia. done.
Qed.

Lemma sub_batch_length {X} (l : list X) (batch_size : Z) (k : nat) :
  0 < batch_size ->
  length (Py.slice l (Z.of_nat k * batch_size) (Z.of_nat k * batch_size + batch_size))
  = Nat.min (Z.to_nat batch_size) (length l - k * Z.to_nat batch_size).
Proof.
  intros. rewrite sub_batch_take_drop by done.
  by rewrite length_take, length_drop.
Qed.

Lemma sub_batch_lookup {X} (l : list X) (batch_size : Z) (k j : nat) :
  0 < batch_size -> (j < Z.to_nat batch_size)%nat ->
  Py.slice l (Z.of_nat k * batch_size) (Z.of_nat k * batch_size + batch_size) !! j
  = l !! (k * Z.to_nat batch_size + j)%nat.
Proof.
  intros. rewrite sub_batch_take_drop by done.
  rewrite lookup_take_lt by done. by rewrite lookup_drop.
Qed.

Lemma sub_batch_index (batch_size : Z) (k j : nat) :
  0 < batch_size -> (j < Z.to_nat batch_size)%nat ->
  Z.of_nat (k * Z.to_nat batch_size + j) / batch_size = Z.of_nat k
  /\ Z.of_nat (k * Z.to_nat batch_size + j) mod batch_size = Z.of_nat j.
Proof.
  intros Hbs Hj.
  assert (Z.of_nat (k * Z.to_nat batch_size + j)
          = batch_size * Z.of_nat k + Z.of_nat j) as ->.
  { rewrite Nat2Z.inj_add, Nat2Z.inj_mul, Z2Nat.id by lia. lia. }
  split; symmetry.
  - apply (Z.div_unique_pos _ _ _ (Z.of_nat j)); lia.
  - apply (Z.mod_unique_pos _ _ (Z.of_nat k)); lia.
Qed.

(** Record [i] is record [i mod batch_size] of sub-batch [i / batch_size]. *)
Lemma sub_batch_of_index (batch_size : Z) (i : nat) :
  0 < batch_size ->
  let k := Z.to_nat (Z.of_nat i / batch_size) in
  let j := Z.to_nat (Z.of_nat i mod batch_size) in
  Z.of_nat i / batch_size * batch_size = Z.of_nat k * batch_size
  /\ (j < Z.to_nat batch_size)%nat
  /\ (k * Z.to_nat batch_size + j)%nat = i.
Proof.
  intros Hbs k j.
  pose proof (Z.div_pos (Z.of_nat i) batch_size) as Hdiv.
  pose proof (Z.mod_pos_bound (Z.of_nat i) batch_size Hbs) as Hmod.
  pose proof (Z.div_mod (Z.of_nat i) batch_size) as Hdm.
  repeat split.
  - subst k. rewrite Z2Nat.id; lia.
  - subst j. lia.
  - subst k j. apply Nat2Z.inj.
    rewrite Nat2Z.inj_add, Nat2Z.inj_mul, !Z2Nat.id; lia.
Qed.

(** The number of sub-batches covers the batch. *)
Lemma arange0_covers (n : nat) (batch_size : Z) :
  0 < batch_size ->
  (n <= Z.to_nat (- (- Z.of_nat n / batch_size)) * Z.to_nat batch_size)%nat.
Proof.
  intros Hbs.
  pose proof (Z.mul_div_le (- Z.of_nat n) batch_size Hbs) as Hle.
  apply Nat2Z.inj_le. rewrite Nat2Z.inj_mul, !Z2Nat.id; lia.
Qed.

Lemma arange0_negative_step (n : nat) (batch_size : Z) :
  batch_size < 0 -> Z.to_nat (- (- Z.of_nat n / batch_size)) = 0%nat.
Proof.
  intros Hbs.
  rewrite <- (Z.opp_involutive batch_size) at 1.
  rewrite Z.div_opp_opp by lia.
  pose proof (Z.div_pos (Z.of_nat n) (- batch_size)). lia.
Qed.

Lemma Forall_slice {X} (P : X -> Prop) (l : list X) (s e : Z) :
  Forall P l -> Forall P (Py.slice l s e).
Proof. intros. unfold Py.slice. by apply Forall_take, Forall_drop. Qed.

Section ScorerProperties.

Variables prec emax : Z.
Variable py_round6 : spec_float -> spec_float.
Variable str_float : spec_float -> string.
Variable code2base_dna : Z -> option string.
Variable accuracy_score : list Z -> list Z -> result spec_float.
Variable np_mean : list spec_float -> spec_float.
Variable model :
  list (list Z) -> list (list spec_float) -> list (list spec_float) ->
  list (list Z) -> list (list (list spec_float)) ->
  result (list (list spec_float)).

Local Abbreviation pred_of_idx' := (pred_of_idx prec emax py_round6 code2base_dna).
Local Abbreviation call_mods_step' :=
  (call_mods_step prec emax py_round6 code2base_dna accuracy_score model).
Local Abbreviation call_mods_loop' :=
  (call_mods_loop prec emax py_round6 code2base_dna accuracy_score model).
Local Abbreviation call_mods_preds' :=
  (call_mods_preds prec emax py_round6 code2base_dna accuracy_score model).
Local Abbreviation scored_at' := (scored_at prec emax py_round6 code2base_dna model).
Local Abbreviation model_on' := (model_on model).

Lemma index_Ok {X} (l : list X) (i : nat) (x : X) :
  Py.index l i = Ok x <-> l !! i = Some x.
Proof. unfold Py.index. destruct (l !! i); split; congruence. Qed.

(** What a successful turn of the inner loop read. *)
Lemma pred_of_idx_inv b_sampleinfo b_kmers logits predicted idx p :
  pred_of_idx' b_sampleinfo b_kmers logits predicted idx = Ok p ->
  exists row prob_0 prob_1 kmer b_idx_kmer,
    logits !! idx = Some row /\ row !! 0%nat = Some prob_0
    /\ row !! 1%nat = Some prob_1
    /\ b_kmers !! idx = Some kmer
    /\ decode_kmer code2base_dna kmer = Ok b_idx_kmer
    /\ b_sampleinfo !! idx = Some (p_info p)
    /\ predicted !! idx = Some (p_label p)
    /\ p_seq p = kmer_window b_idx_kmer.
Proof.
  unfold pred_of_idx, Py.index.
  destruct (logits !! idx) as [row|]; simpl; [|done].
  destruct (row !! 0%nat) as [prob_0|] eqn:H0; simpl; [|done].
  destruct (row !! 1%nat) as [prob_1|] eqn:H1; simpl; [|done].
  destruct (b_kmers !! idx) as [kmer|]; simpl; [|done].
  destruct (decode_kmer code2base_dna kmer) as [b_idx_kmer|] eqn:Hk; simpl; [|done].
  destruct (b_sampleinfo !! idx) as [info|]; simpl; [|done].
  destruct (predicted !! idx) as [label|]; simpl; [|done].
  intros [= <-]. simpl. by exists row, prob_0, prob_1, kmer, b_idx_kmer.
Qed.

(** What a turn of the outer loop does to its state. *)
Lemma call_mods_step_inv fb batch_size pred_str accuracys batch_num i st' :
  call_mods_step' fb batch_size (pred_str, accuracys, batch_num) i = Ok st' ->
  let b_sampleinfo := Py.slice (sampleinfo fb) i (i + batch_size) in
  (b_sampleinfo = [] /\ st' = (pred_str, accuracys, batch_num))
  \/ (exists rows predicted acc_batch new,
        model_on' fb batch_size i = Ok rows
        /\ mapR torch_argmax rows = Ok predicted
        /\ mapR (pred_of_idx' b_sampleinfo
                   (Py.slice (kmers fb) i (i + batch_size)) rows predicted)
                (Py.range (Z.of_nat (length b_sampleinfo))) = Ok new
        /\ st' = (pred_str ++ new, accuracys ++ [acc_batch], batch_num + 1)).
Proof.
  intros Hstep b_sampleinfo. unfold call_mods_step in Hstep.
  fold b_sampleinfo in Hstep.
  destruct (Z.ltb_spec 0 (Z.of_nat (length b_sampleinfo))) as [Hpos|Hzero].
  - right. fold (model_on' fb batch_size i) in Hstep.
    destruct (model_on' fb batch_size i) as [rows|] eqn:Hrows;
      simpl in Hstep; [|done].
    destruct (mapR torch_argmax rows) as [predicted|] eqn:Hpredicted;
      simpl in Hstep; [|done].
    destruct (accuracy_score _ predicted) as [acc_batch|]; simpl in Hstep; [|done].
    destruct (mapR _ (Py.range _)) as [new|] eqn:Hnew; simpl in Hstep; [|done].
    injection Hstep as <-. by exists rows, predicted, acc_batch, new.
  - left. split; [|congruence]. destruct b_sampleinfo; [done|simpl in *; lia].
Qed.

(** The outer loop keeps the predictions in step with the records: after
    the sub-batches [k .. k+c-1] there is one prediction for each of the
    first [(k+c) * batch_size] records, each made from its own record. *)
Lemma call_mods_loop_inv fb batch_size :
  0 < batch_size ->
  forall (c k : nat) (st st' : scorer_state),
    length st.1.1 = Nat.min (k * Z.to_nat batch_size) (length (sampleinfo fb)) ->
    (forall i p, st.1.1 !! i = Some p -> scored_at' fb batch_size i p) ->
    call_mods_loop' fb batch_size st
      ((fun m : nat => Z.of_nat m * batch_size) <$> seq k c) = Ok st' ->
    length st'.1.1
    = Nat.min ((k + c) * Z.to_nat batch_size) (length (sampleinfo fb))
    /\ (forall i p, st'.1.1 !! i = Some p -> scored_at' fb batch_size i p).
Proof.
  intros Hbs c. induction c as [|c IH]; intros k st st' Hlen Hsc Hloop;
    simpl in Hloop.
  - injection Hloop as <-. by rewrite Nat.add_0_r.
  - destruct (call_mods_step' fb batch_size st (Z.of_nat k * batch_size))
      as [st1|] eqn:Hstep; simpl in Hloop; [|done].
    replace (k + S c)%nat with (S k + c)%nat by lia.
    apply (IH (S k) st1 st'); [| |done]; clear IH Hloop;
      destruct st as [[pred_str accuracys] batch_num]; simpl in *;
      apply call_mods_step_inv in Hstep; simpl in Hstep;
      pose proof (sub_batch_length (sampleinfo fb) batch_size k Hbs) as Hsub;
      destruct Hstep as [[Hnil ->]
                        |(rows & predicted & acc & new & Hm & Hp & Hnew & ->)];
      simpl.
    + rewrite Hnil in Hsub. simpl in Hsub. lia.
    + apply mapR_length in Hnew. unfold Py.range in Hnew.
      rewrite length_seq, Nat2Z.id in Hnew.
      rewrite length_app, Hnew, Hsub, Hlen. lia.
    + done.
    + intros i p Hi.
      destruct (decide (i < length pred_str)%nat) as [Hlt|Hge].
      { rewrite lookup_app_l in Hi by done. by apply Hsc. }
      rewrite lookup_app_r in Hi by lia.
      pose proof Hnew as Hnewlen%mapR_length. unfold Py.range in Hnewlen.
      rewrite length_seq, Nat2Z.id in Hnewlen.
      apply mapR_Forall2 in Hnew.
      destruct (Forall2_lookup_r _ _ _ _ _ Hnew Hi) as (j & Hj & Hpj).
      unfold Py.range in Hj. apply lookup_seq in Hj as [-> Hjlt]. simpl in *.
      rewrite Nat2Z.id in Hjlt.
      assert (length pred_str = k * Z.to_nat batch_size)%nat as Hps by lia.
      assert (i = k * Z.to_nat batch_size + (i - length pred_str))%nat as Hi' by lia.
      destruct (sub_batch_index batch_size k (i - length pred_str) Hbs)
        as [Hdiv Hmod]; [lia|].
      unfold scored_at. rewrite Hi', Hdiv, Hmod, Nat2Z.id.
      by exists rows, predicted.
Qed.

Lemma call_mods_preds_inv fb batch_size pred_str accuracys batch_num :
  call_mods_preds' fb batch_size = Ok (pred_str, accuracys, batch_num) ->
  (0 < batch_size -> length pred_str = length (sampleinfo fb))
  /\ (forall i p, pred_str !! i = Some p ->
        0 < batch_size /\ scored_at' fb batch_size i p).
Proof.
  unfold call_mods_preds, Py.arange0.
  destruct (Z.eqb_spec batch_size 0) as [|Hne]; [done|]. simpl.
  destruct (Z.lt_total batch_size 0) as [Hneg|[?|Hpos]]; [|done|].
  - rewrite arange0_negative_step by done. simpl. intros [= <- <- <-].
    split; [lia|]. intros i p Hi. by rewrite lookup_nil in Hi.
  - intros Hloop.
    apply (call_mods_loop_inv fb batch_size Hpos _ 0%nat) in Hloop as [Hlen Hsc];
      simpl in *; [|lia|intros i p Hi; by rewrite lookup_nil in Hi].
    pose proof (arange0_covers (length (sampleinfo fb)) batch_size Hpos).
    split; [lia|]. intros i p Hi. split; [done|]. by apply Hsc.
Qed.

(** [_call_mods] renders the records of [call_mods_preds']. *)
Lemma call_mods_lines fb batch_size lines accuracy batch_num :
  _call_mods prec emax py_round6 str_float code2base_dna accuracy_score
    np_mean model fb batch_size = Ok (lines, accuracy, batch_num) ->
  exists pred_str accuracys,
    call_mods_preds' fb batch_size = Ok (pred_str, accuracys, batch_num)
    /\ lines = pred_line str_float <$> pred_str.
Proof.
  unfold _call_mods.
  destruct (call_mods_preds' fb batch_size) as [[[pred_str accuracys] bn]|];
    simpl; [|done].
  intros [= <- _ <-]. by exists pred_str, accuracys.
Qed.

(** The record a prediction was made from. *)
Lemma scored_at_record fb batch_size i p :
  0 < batch_size -> scored_at' fb batch_size i p ->
  sampleinfo fb !! i = Some (p_info p)
  /\ exists kmer b_idx_kmer,
       kmers fb !! i = Some kmer
       /\ decode_kmer code2base_dna kmer = Ok b_idx_kmer
       /\ p_seq p = kmer_window b_idx_kmer.
Proof.
  intros Hbs (rows & predicted & _ & _ & Hp).
  destruct (sub_batch_of_index batch_size i Hbs) as (Hs & Hj & Hi).
  rewrite Hs in Hp.
  apply pred_of_idx_inv in Hp
    as (row & p0 & p1 & kmer & seq & _ & _ & _ & Hk & Hdec & Hinfo & _ & Hseq).
  rewrite sub_batch_lookup, Hi in Hk by done.
  rewrite sub_batch_lookup, Hi in Hinfo by done.
  split; [done|]. by exists kmer, seq.
Qed.

(** The label of a prediction is the argmax of its row of outputs. *)
Lemma scored_at_label fb batch_size i p row :
  scored_at' fb batch_size i p ->
  logits_of model fb batch_size i = Some row ->
  torch_argmax row = Ok (p_label p).
Proof.
  intros (rows & predicted & Hm & Hpredicted & Hp) Hrow.
  unfold logits_of in Hrow. rewrite Hm in Hrow.
  apply pred_of_idx_inv in Hp
    as (row' & _ & _ & _ & _ & Hrow' & _ & _ & _ & _ & _ & Hlabel & _).
  assert (row' = row) as -> by congruence.
  apply mapR_Forall2 in Hpredicted.
  by apply (Forall2_lookup_lr _ _ _ _ _ _ Hpredicted Hrow Hlabel).
Qed.

(** The window, by [max] and [min]. *)
Lemma kmer_window_spec (b_idx_kmer : string) :
  let L := Z.of_nat (String.length b_idx_kmer) in
  let c := L / 2 in
  kmer_window b_idx_kmer = Py.str_slice b_idx_kmer (Z.max 0 (c - 2)) (Z.min L (c + 3))
  /\ kmer_window b_idx_kmer
     = substring (Z.to_nat (Z.max 0 (c - 2)))
                 (Z.to_nat (Z.min L (c + 3) - Z.max 0 (c - 2))) b_idx_kmer
  /\ Z.of_nat (String.length (kmer_window b_idx_kmer))
     = Z.min L (c + 3) - Z.max 0 (c - 2).
Proof.
  intros L c. unfold kmer_window. fold L.
  rewrite bkmer_start_max, bkmer_end_min. fold c.
  assert (0 <= c <= L) as Hc.
  { subst c. pose proof (Z.div_pos L 2).
    pose proof (Z.mul_div_le L 2). lia. }
  assert (L = 0 \/ 2 * c <= L < 2 * c + 2) as HL.
  { subst c. pose proof (Z.mul_div_le L 2).
    pose proof (Z.mul_succ_div_gt L 2). lia. }
  split; [done|]. unfold Py.str_slice. fold L.
  rewrite !adjust_id by lia. split; [done|].
  rewrite length_substring. fold L. lia.
Qed.

(** ** Context trimming *)

(** C4. The context sequence of a Prediction Record. For every base
    sequence [seq], of length [L] and with [c = floor(L/2)], the window
    the scorer cuts is [seq[max(0, c-2) : min(L, c+3)]]: at most 5
    characters, never padded; 5 characters from position 3 when [L = 11],
    and all of [seq] when [L = 3]. And that window is what [_call_mods]
    emits: for a positive [batch_size] it returns one prediction per
    record of the batch, the [i]-th one made from the [i]-th record, and
    every prediction it returns carries the window of the decoded k-mer
    of its own record. *)
Theorem context_trimming :
  (forall seq : string,
     let L := Z.of_nat (String.length seq) in
     let c := L / 2 in
     kmer_window seq = Py.str_slice seq (Z.max 0 (c - 2)) (Z.min L (c + 3))
     /\ kmer_window seq
        = substring (Z.to_nat (Z.max 0 (c - 2)))
                    (Z.to_nat (Z.min L (c + 3) - Z.max 0 (c - 2))) seq
     /\ Z.of_nat (String.length (kmer_window seq))
        = Z.min L (c + 3) - Z.max 0 (c - 2)
     /\ (String.length (kmer_window seq) <= 5)%nat
     /\ (L = 11 -> kmer_window seq = substring 3 5 seq
                   /\ String.length (kmer_window seq) = 5%nat)
     /\ (L = 3 -> kmer_window seq = seq))
  /\ forall fb batch_size lines accuracy batch_num,
       _call_mods prec emax py_round6 str_float code2base_dna accuracy_score
         np_mean model fb batch_size = Ok (lines, accuracy, batch_num) ->
       exists pred_str,
         lines = pred_line str_float <$> pred_str
         /\ (0 < batch_size ->
             length pred_str = length (sampleinfo fb)
             /\ p_info <$> pred_str = sampleinfo fb)
         /\ forall i p, pred_str !! i = Some p ->
            exists kmer seq,
              kmers fb !! i = Some kmer
              /\ decode_kmer code2base_dna kmer = Ok seq
              /\ p_seq p = kmer_window seq
              /\ let L := Z.of_nat (String.length seq) in
                 let c := L / 2 in
                 p_seq p = Py.str_slice seq (Z.max 0 (c - 2)) (Z.min L (c + 3))
                 /\ p_seq p = substring (Z.to_nat (Z.max 0 (c - 2)))
                                        (Z.to_nat (Z.min L (c + 3) - Z.max 0 (c - 2))) seq
                 /\ Z.of_nat (String.length (p_seq p))
                    = Z.min L (c + 3) - Z.max 0 (c - 2)
                 /\ (String.length (p_seq p) <= 5)%nat
                 /\ (L = 11 -> p_seq p = substring 3 5 seq
                               /\ String.length (p_seq p) = 5%nat)
                 /\ (L = 3 -> p_seq p = seq).
Proof.
  assert (forall seq : string,
     let L := Z.of_nat (String.length seq) in
     let c := L / 2 in
     kmer_window seq = Py.str_slice seq (Z.max 0 (c - 2)) (Z.min L (c + 3))
     /\ kmer_window seq
        = substring (Z.to_nat (Z.max 0 (c - 2)))
                    (Z.to_nat (Z.min L (c + 3) - Z.max 0 (c - 2))) seq
     /\ Z.of_nat (String.length (kmer_window seq))
        = Z.min L (c + 3) - Z.max 0 (c - 2)
     /\ (String.length (kmer_window seq) <= 5)%nat
     /\ (L = 11 -> kmer_window seq = substring 3 5 seq
                   /\ String.length (kmer_window seq) = 5%nat)
     /\ (L = 3 -> kmer_window seq = seq)) as Hwindow.
  { intros seq L c.
    destruct (kmer_window_spec seq) as (Hslice & Hsub & Hlen).
    fold L c in Hslice, Hsub, Hlen.
    split; [done|]. split; [done|]. split; [done|].
    assert (0 <= c /\ (L = 0 \/ 2 * c <= L < 2 * c + 2)) as [Hc HL].
    { subst c. pose proof (Z.div_pos L 2). pose proof (Z.mul_div_le L 2).
      pose proof (Z.mul_succ_div_gt L 2). lia. }
    split; [lia|]. split.
    - intros HL11. assert (c = 5) as Hc5 by lia. rewrite Hsub, HL11, Hc5 in *.
      split; [done|]. simpl in Hlen. lia.
    - intros HL3. assert (c = 1) as Hc1 by lia. rewrite Hsub, HL3, Hc1.
      change (Z.to_nat (Z.max 0 (1 - 2))) with 0%nat.
      change (Z.to_nat (Z.min 3 (1 + 3) - Z.max 0 (1 - 2))) with 3%nat.
      replace 3%nat with (String.length seq) by lia. apply substring_all. }
  split; [exact Hwindow|].
  intros fb batch_size lines accuracy batch_num
    (pred_str & accuracys & Hpreds & ->)%call_mods_lines.
  exists pred_str. split; [done|].
  apply call_mods_preds_inv in Hpreds as [Hlen Hsc]. split.
  - intros Hbs. specialize (Hlen Hbs). split; [done|].
    apply list_eq. intros i. rewrite list_lookup_fmap.
    destruct (pred_str !! i) as [p|] eqn:Hp; simpl.
    + destruct (Hsc i p Hp) as [_ Hat].
      by destruct (scored_at_record fb batch_size i p Hbs Hat) as [-> _].
    + symmetry. apply lookup_ge_None. apply lookup_ge_None in Hp. lia.
  - intros i p Hi. destruct (Hsc i p Hi) as [Hbs Hat].
    destruct (scored_at_record fb batch_size i p Hbs Hat)
      as (_ & kmer & seq & Hk & Hdec & Hseq).
    exists kmer, seq. split; [done|]. split; [done|]. split; [done|].
    rewrite Hseq. apply Hwindow.
Qed.

(** ** Label consistency *)

(** C8. For a positive [batch_size], [_call_mods] returns one
    prediction per record of the batch, the [i]-th one made from the
    [i]-th record; and the label of every prediction it returns is the
    index of the larger of the two raw outputs [(a, b)] the classifier
    gave for its record: 0 when [a >= b], 1 when [b > a]. *)
Theorem label_consistency fb batch_size lines accuracy batch_num :
  _call_mods prec emax py_round6 str_float code2base_dna accuracy_score
    np_mean model fb batch_size = Ok (lines, accuracy, batch_num) ->
  exists pred_str,
    lines = pred_line str_float <$> pred_str
    /\ (0 < batch_size ->
        length pred_str = length (sampleinfo fb)
        /\ p_info <$> pred_str = sampleinfo fb)
    /\ forall i p a b,
       pred_str !! i = Some p ->
       logits_of model fb batch_size i = Some [a; b] ->
       (SFleb b a = true -> p_label p = 0)
       /\ (SFltb a b = true -> p_label p = 1).
Proof.
  intros (pred_str & accuracys & Hpreds & ->)%call_mods_lines.
  exists pred_str. split; [done|].
  apply call_mods_preds_inv in Hpreds as [Hlen Hsc]. split.
  { intros Hbs. specialize (Hlen Hbs). split; [done|].
    apply list_eq. intros i. rewrite list_lookup_fmap.
    destruct (pred_str !! i) as [p|] eqn:Hp; simpl.
    - destruct (Hsc i p Hp) as [_ Hat].
      by destruct (scored_at_record fb batch_size i p Hbs Hat) as [-> _].
    - symmetry. apply lookup_ge_None. apply lookup_ge_None in Hp. lia. }
  intros i p a b Hi Hrow.
  destruct (Hsc i p Hi) as [Hbs Hat].
  pose proof (scored_at_label fb batch_size i p [a; b] Hat Hrow) as Hlabel.
  rewrite torch_argmax_pair in Hlabel. injection Hlabel as <-.
  split.
  - intros Hge. destruct (SFleb_not_nan a b Hge) as [-> ->].
    by rewrite (SFleb_not_ltb a b Hge).
  - intros Hlt. destruct (SFltb_not_nan a b Hlt) as [-> ->].
    by rewrite Hlt.
Qed.

(** ** Conservation *)

Section WellFormed.

Variable fb : features_batch.
Variable batch_size : Z.
Hypothesis Hbs : 0 < batch_size.
(** The seven lists describe the same records. *)
Hypothesis Hkmers : length (kmers fb) = length (sampleinfo fb).
Hypothesis Hlabels : length (labels fb) = length (sampleinfo fb).
(** Every code of every k-mer is a key of [code2base_dna]. *)
Hypothesis Hcodes :
  Forall (Forall (fun x => is_Some (code2base_dna x))) (kmers fb).
(** The classifier answers every sub-batch that starts inside the batch,
    the ones line 158 lets through, with one row of at least two outputs
    per record. Nothing is asked of it on an empty sub-batch. *)
Hypothesis Hmodel : forall k : nat,
  Z.of_nat k * batch_size < Z.of_nat (length (sampleinfo fb)) ->
  exists rows,
    model_on' fb batch_size (Z.of_nat k * batch_size) = Ok rows
    /\ length rows
       = length (Py.slice (kmers fb) (Z.of_nat k * batch_size)
                          (Z.of_nat k * batch_size + batch_size))
    /\ Forall (fun row => (2 <= length row)%nat) rows.
(** [accuracy_score] accepts two non-empty lists of equal length. *)
Hypothesis Haccuracy : forall y_true y_pred,
  y_true <> [] -> length y_true = length y_pred ->
  exists acc, accuracy_score y_true y_pred = Ok acc.

Lemma decode_kmer_total kmer :
  Forall (fun x => is_Some (code2base_dna x)) kmer ->
  exists b_idx_kmer, decode_kmer code2base_dna kmer = Ok b_idx_kmer.
Proof.
  intros Hk. unfold decode_kmer.
  destruct (mapR_total (Py.getitem code2base_dna) kmer) as [bases ->].
  - eapply Forall_impl; [exact Hk|]. intros x [v Hv].
    exists v. unfold Py.getitem. by rewrite Hv.
  - simpl. by eexists.
Qed.

Lemma torch_argmax_total rows :
  Forall (fun row => (2 <= length row)%nat) rows ->
  exists predicted, mapR torch_argmax rows = Ok predicted.
Proof.
  intros Hrows. apply mapR_total. eapply Forall_impl; [exact Hrows|].
  intros [|x row] Hlen; simpl in *; [lia|]. by eexists.
Qed.

Lemma call_mods_step_total st (k : nat) :
  exists st', call_mods_step' fb batch_size st (Z.of_nat k * batch_size) = Ok st'.
Proof.
  destruct st as [[pred_str accuracys] batch_num].
  unfold call_mods_step.
  set (s := Z.of_nat k * batch_size).
  destruct (Z.ltb_spec 0 (Z.of_nat (length (Py.slice (sampleinfo fb) s
                                              (s + batch_size)))))
    as [Hsome|]; [|by eexists].
  fold (model_on' fb batch_size s).
  assert (Z.of_nat k * batch_size < Z.of_nat (length (sampleinfo fb))) as Hin.
  { subst s. rewrite sub_batch_length in Hsome by done. nia. }
  destruct (Hmodel k Hin) as (rows & Hm & Hlen & Hrows).
  fold s in Hm. rewrite Hm. simpl.
  destruct (torch_argmax_total rows Hrows) as [predicted Hpredicted].
  rewrite Hpredicted. simpl.
  pose proof (mapR_length _ _ _ Hpredicted) as Hplen.
  pose proof (sub_batch_length (kmers fb) batch_size k Hbs) as Hklen.
  pose proof (sub_batch_length (sampleinfo fb) batch_size k Hbs) as Hilen.
  pose proof (sub_batch_length (labels fb) batch_size k Hbs) as Hllen.
  fold s in Hklen, Hilen, Hllen, Hlen.
  destruct (Haccuracy (Py.slice (labels fb) s (s + batch_size)) predicted)
    as [acc ->]; [|lia|].
  { intros Hnil. rewrite Hnil in Hllen. simpl in Hllen. lia. }
  simpl.
  destruct (mapR_total
              (pred_of_idx' (Py.slice (sampleinfo fb) s (s + batch_size))
                           (Py.slice (kmers fb) s (s + batch_size))
                           rows predicted)
              (Py.range (Z.of_nat (length (Py.slice (sampleinfo fb) s (s + batch_size))))))
    as [new ->]; [|simpl; by eexists].
  apply Forall_forall. intros idx Hidx. unfold Py.range in Hidx.
  rewrite Nat2Z.id in Hidx. apply elem_of_seq in Hidx.
  unfold pred_of_idx, Py.index.
  destruct (lookup_lt_is_Some_2 rows idx) as [row Hrow]; [lia|].
  rewrite Hrow. simpl.
  pose proof (Forall_lookup_1 _ _ _ _ Hrows Hrow) as Hrowlen.
  simpl in Hrowlen.
  destruct (lookup_lt_is_Some_2 row 0) as [prob_0 ->]; [lia|].
  destruct (lookup_lt_is_Some_2 row 1) as [prob_1 ->]; [lia|]. simpl.
  destruct (lookup_lt_is_Some_2 (Py.slice (kmers fb) s (s + batch_size)) idx)
    as [kmer Hkmer]; [lia|].
  rewrite Hkmer. simpl.
  destruct (decode_kmer_total kmer) as [b_idx_kmer ->].
  { apply (Forall_lookup_1 _ _ _ _ (Forall_slice _ _ s (s + batch_size) Hcodes) Hkmer). }
  simpl.
  destruct (lookup_lt_is_Some_2 (Py.slice (sampleinfo fb) s (s + batch_size)) idx)
    as [info ->]; [lia|].
  destruct (lookup_lt_is_Some_2 predicted idx) as [label ->]; [lia|].
  simpl. by eexists.
Qed.

Lemma call_mods_loop_total (c k : nat) st :
  exists st',
    call_mods_loop' fb batch_size st
      ((fun m : nat => Z.of_nat m * batch_size) <$> seq k c) = Ok st'.
Proof.
  revert k st. induction c as [|c IH]; intros k st; simpl; [by eexists|].
  destruct (call_mods_step_total st k) as [st1 ->]. simpl. apply IH.
Qed.

(** C1. On a batch of [n] records and a positive [batch_size],
    [_call_mods] returns [n] prediction strings: the [i]-th one is the
    rendering of a prediction made from the [i]-th record, so the
    identifying fields of the predictions, read in order, are the
    [sampleinfo] list of the batch; and the sub-batches the loop cuts,
    put end to end, are the records of the batch in their order.
    [batch_size] is below [2^63]: [np.arange] takes its arguments as
    64-bit integers. *)
Theorem call_mods_conservation :
  batch_size < 2 ^ 63 ->
  exists pred_str accuracy batch_num starts,
    _call_mods prec emax py_round6 str_float code2base_dna accuracy_score
      np_mean model fb batch_size
    = Ok (pred_line str_float <$> pred_str, accuracy, batch_num)
    /\ length (pred_line str_float <$> pred_str) = length (sampleinfo fb)
    /\ p_info <$> pred_str = sampleinfo fb
    /\ (forall i p, pred_str !! i = Some p -> scored_at' fb batch_size i p)
    /\ Py.arange0 (Z.of_nat (length (sampleinfo fb))) batch_size = Ok starts
    /\ concat ((fun s => Py.slice (sampleinfo fb) s (s + batch_size)) <$> starts)
       = sampleinfo fb.
Proof.
  intros _.
  assert (exists st, call_mods_preds' fb batch_size = Ok st) as [[[pred_str accuracys] bn] Hpreds].
  { unfold call_mods_preds, Py.arange0.
    destruct (Z.eqb_spec batch_size 0); [lia|]. simpl.
    apply call_mods_loop_total. }
  pose proof Hpreds as [Hlen Hsc]%call_mods_preds_inv.
  specialize (Hlen Hbs).
  eexists pred_str, _, bn, _. split.
  { unfold _call_mods. rewrite Hpreds. simpl. reflexivity. }
  split; [by rewrite length_fmap|]. split; [|split; [|split]].
  - apply list_eq. intros i. rewrite list_lookup_fmap.
    destruct (pred_str !! i) as [p|] eqn:Hp; simpl.
    + destruct (Hsc i p Hp) as [_ Hat].
      by destruct (scored_at_record fb batch_size i p Hbs Hat) as [-> _].
    + symmetry. apply lookup_ge_None. apply lookup_ge_None in Hp. lia.
  - intros i p Hp. by destruct (Hsc i p Hp).
  - unfold Py.arange0. destruct (Z.eqb_spec batch_size 0); [lia|done].
  - rewrite <- list_fmap_compose.
    erewrite (list_fmap_ext _ (fun k : nat =>
                take (Z.to_nat batch_size)
                     (drop (k * Z.to_nat batch_size) (sampleinfo fb)))).
    + rewrite concat_sub_batches. apply take_ge.
      apply arange0_covers; done.
    + intros _ k _. simpl. by apply sub_batch_take_drop.
Qed.

End WellFormed.

End ScorerProperties.

(** ** Runs and groups of runs *)

Section Runs.

Context {V : Type}.
Implicit Types (l : list (string * V)) (x y : string * V).

Lemma runs_head x l : exists r rs, runs (x :: l) = (x :: r) :: rs.
Proof.
  revert x. induction l as [|y l IH]; intros x; [by exists [], []|].
  destruct (IH y) as (r & rs & Hy). simpl in *. rewrite Hy.
  destruct (String.eqb x.1 y.1); by eexists _, _.
Qed.

Lemma runs_cons_cons x y l :
  runs (x :: y :: l)
  = match runs (y :: l) with
    | r :: rs => if String.eqb x.1 y.1 then (x :: r) :: rs else [x] :: r :: rs
    | [] => [[x]]
    end.
Proof.
  destruct (runs_head y l) as (r & rs & Hy).
  change (runs (x :: y :: l)) with
    (match runs (y :: l) with
     | (z :: r) :: rs =>
         if String.eqb x.1 z.1 then (x :: z :: r) :: rs else [x] :: (z :: r) :: rs
     | _ => [[x]]
     end).
  by rewrite Hy.
Qed.

Lemma length_runs_cons_cons x y l :
  length (runs (x :: y :: l)) = (length (runs (y :: l)) + boundary x y)%nat.
Proof.
  rewrite runs_cons_cons. unfold boundary.
  destruct (runs_head y l) as (r & rs & ->).
  destruct (String.eqb x.1 y.1); simpl; lia.
Qed.

Lemma concat_runs l : concat (runs l) = l.
Proof.
  induction l as [|x [|y l] IH]; [done..|].
  rewrite runs_cons_cons. destruct (runs_head y l) as (r & rs & Hy).
  rewrite Hy in *. destruct (String.eqb x.1 y.1); simpl in *; by rewrite IH.
Qed.

(** Appending one record to a non-empty list either extends its last
    run or opens a new one. *)
Lemma length_runs_snoc l y x :
  last l = Some y ->
  length (runs (l ++ [x])) = (length (runs l) + boundary y x)%nat.
Proof.
  induction l as [|a [|a' l] IH]; intros Hlast; [done| |].
  - injection Hlast as ->. simpl. unfold boundary.
    destruct (String.eqb y.1 x.1); done.
  - change ((a :: a' :: l) ++ [x]) with (a :: a' :: (l ++ [x])).
    rewrite !length_runs_cons_cons.
    change (a' :: l ++ [x]) with ((a' :: l) ++ [x]).
    rewrite IH by done. lia.
Qed.

(** Where the read identifier changes, the runs of the two parts are the
    runs of the whole. *)
Lemma runs_app_boundary l y x l' :
  last l = Some y -> String.eqb y.1 x.1 = false ->
  runs (l ++ x :: l') = runs l ++ runs (x :: l').
Proof.
  induction l as [|a [|a' l] IH]; intros Hlast Hne; [done| |].
  - injection Hlast as ->.
    change ([y] ++ x :: l') with (y :: x :: l').
    rewrite runs_cons_cons. destruct (runs_head x l') as (r & rs & ->).
    by rewrite Hne.
  - change ((a :: a' :: l) ++ x :: l') with (a :: a' :: (l ++ x :: l')).
    rewrite !runs_cons_cons.
    change (a' :: l ++ x :: l') with ((a' :: l) ++ x :: l').
    rewrite IH by done.
    destruct (runs_head a' l) as (r & rs & ->).
    by destruct (String.eqb a.1 a'.1).
Qed.

End Runs.

Section Chunks.

Context {X : Type}.
Implicit Types (l : list X).

Lemma chunks_fuel_enough (n : nat) :
  (0 < n)%nat -> forall fuel l,
  (length l <= fuel)%nat -> chunks_fuel fuel n l = chunks n l.
Proof.
  intros Hn. unfold chunks.
  assert (forall fuel fuel' l, (length l <= fuel)%nat -> (length l <= fuel')%nat ->
            chunks_fuel fuel n l = chunks_fuel fuel' n l) as Hboth.
  { induction fuel as [|fuel IH]; intros [|fuel'] [|x l] Hf Hf';
      simpl in *; try done; try lia.
    f_equal. apply IH; rewrite length_drop; simpl; lia. }
  intros fuel l Hl. by apply Hboth.
Qed.

(** A full first group is cut off as it is. *)
Lemma chunks_app_full (n : nat) l1 l2 :
  (0 < n)%nat -> length l1 = n -> chunks n (l1 ++ l2) = l1 :: chunks n l2.
Proof.
  intros Hn Hl1. unfold chunks at 1.
  destruct l1 as [|x l1]; [simpl in *; lia|].
  rewrite length_app. simpl length. simpl chunks_fuel.
  change (x :: l1 ++ l2) with ((x :: l1) ++ l2).
  rewrite (take_app_length' (x :: l1) l2 n), (drop_app_length' (x :: l1) l2 n)
    by done.
  f_equal. apply chunks_fuel_enough; [done|lia].
Qed.

(** A list of at most [n] elements is one group. *)
Lemma chunks_small (n : nat) l :
  l <> [] -> (length l <= n)%nat -> chunks n l = [l].
Proof.
  intros Hne Hlen. unfold chunks. destruct l as [|x l]; [done|].
  simpl length. simpl chunks_fuel.
  rewrite take_ge, drop_ge by lia. by destruct (length l).
Qed.

Lemma chunks_fuel_spec (n : nat) :
  (0 < n)%nat -> forall fuel l, (length l <= fuel)%nat ->
  concat (chunks_fuel fuel n l) = l
  /\ Forall (fun g => (1 <= length g <= n)%nat) (chunks_fuel fuel n l)
  /\ (forall i g, chunks_fuel fuel n l !! i = Some g ->
        (S i < length (chunks_fuel fuel n l))%nat -> length g = n).
Proof.
  intros Hn fuel.
  induction fuel as [|fuel IH]; intros l Hfuel.
  { destruct l; [|simpl in Hfuel; lia]. simpl.
    repeat split; [constructor|]. intros i g Hi. by rewrite lookup_nil in Hi. }
  destruct l as [|x l].
  { simpl. repeat split; [constructor|].
    intros i g Hi. by rewrite lookup_nil in Hi. }
  change (chunks_fuel (S fuel) n (x :: l))
    with (take n (x :: l) :: chunks_fuel fuel n (drop n (x :: l))).
  pose proof (length_take (x :: l) n) as Htake.
  pose proof (length_drop (x :: l) n) as Hdrop.
  simpl length in Hfuel, Htake, Hdrop.
  destruct (IH (drop n (x :: l))) as (Hcat & Hall & Hfull); [lia|].
  repeat split.
  - simpl concat. rewrite Hcat. apply take_drop.
  - constructor; [lia|done].
  - intros [|i] g Hi Hlen.
    + injection Hi as <-.
      destruct (drop n (x :: l)) as [|x' l'].
      * destruct fuel; simpl in Hlen; lia.
      * simpl in Hdrop. lia.
    + apply (Hfull i g Hi). simpl in Hlen. lia.
Qed.

(** The groups are the list cut in order; each holds between 1 and [n]
    elements, and each but the last exactly [n]. *)
Lemma chunks_spec (n : nat) l :
  (0 < n)%nat ->
  concat (chunks n l) = l
  /\ Forall (fun g => (1 <= length g <= n)%nat) (chunks n l)
  /\ (forall i g, chunks n l !! i = Some g ->
        (S i < length (chunks n l))%nat -> length g = n).
Proof. intros Hn. by apply chunks_fuel_spec. Qed.

End Chunks.

(** ** The flush law of the reader *)

Lemma act_bind_assoc {E A B C} (m : act E A) (f : A -> act E B) (g : B -> act E C) :
  (m ≫= f) ≫= g = m ≫= (fun a => f a ≫= g).
Proof.
  destruct m as [tr [a|e]]; unfold mbind, act_bind; simpl; [|done].
  destruct (f a) as [tr1 [b|e]]; simpl; [|done].
  destruct (g b) as [tr2 r]. by rewrite app_assoc.
Qed.

Lemma push_batch_of (xs : list sample) (x : sample) :
  push_sample (batch_of xs) x = batch_of (xs ++ [x]).
Proof. unfold push_sample, batch_of. simpl. by rewrite !fmap_app. Qed.

Lemma succ_mod (r F : Z) :
  0 < F -> (r + 1) mod F = if r mod F + 1 =? F then 0 else r mod F + 1.
Proof.
  intros HF. pose proof (Z.mod_pos_bound r F HF) as Hb.
  pose proof (Z.div_mod r F) as Hdm.
  destruct (Z.eqb_spec (r mod F + 1) F) as [Heq|Hne]; symmetry.
  - apply (Z.mod_unique_pos _ _ (r / F + 1)); lia.
  - apply (Z.mod_unique_pos _ _ (r / F)); lia.
Qed.

Lemma flush_law_batches_small F (recs : list (string * sample)) :
  recs <> [] -> (length (runs recs) <= Z.to_nat F)%nat ->
  flush_law_batches F recs = [batch_of (snd <$> recs)].
Proof.
  intros Hne Hlen. unfold flush_law_batches.
  rewrite chunks_small; [simpl; by rewrite concat_runs|
                         |done].
  destruct recs as [|x recs]; [done|].
  by destruct (runs_head x recs) as (r & rs & ->).
Qed.

Lemma flush_law_batches_full F (l : list (string * sample)) y x l' :
  last l = Some y -> String.eqb y.1 x.1 = false ->
  length (runs l) = Z.to_nat F -> (0 < Z.to_nat F)%nat ->
  flush_law_batches F (l ++ x :: l')
  = batch_of (snd <$> l) :: flush_law_batches F (x :: l').
Proof.
  intros Hlast Hne Hlen HF. unfold flush_law_batches.
  rewrite (runs_app_boundary l y x l') by done.
  rewrite chunks_app_full by done. simpl. by rewrite concat_runs.
Qed.

Section ReaderProperties.

Variable py_strip : string -> string.
Variable base2code_dna : ascii -> option Z.
Variable py_float : string -> option spec_float.
Variable py_int : string -> option Z.

Local Abbreviation parse_line' := (parse_line py_strip base2code_dna py_float py_int).
Local Abbreviation reader_step' := (reader_step py_strip base2code_dna py_float py_int).
Local Abbreviation reader_loop' := (reader_loop py_strip base2code_dna py_float py_int).
Local Abbreviation _read_features_file' :=
  (_read_features_file py_strip base2code_dna py_float py_int).

Lemma parse_line_inv line readid x :
  parse_line' line = Ok (readid, x) ->
  Py.index (words_of py_strip line) 4 = Ok readid
  /\ parse_words base2code_dna py_float py_int (words_of py_strip line) = Ok x.
Proof.
  unfold parse_line.
  destruct (Py.index _ 4) as [readid'|]; simpl; [|done].
  destruct (parse_words _ _ _ _) as [x'|]; simpl; [|done].
  by intros [= -> ->].
Qed.

(** A line of the current read is appended. *)
Lemma reader_step_same F acc pre r b line x :
  parse_line' line = Ok (pre, x) ->
  reader_step' F (ReaderLocals acc pre r b) line
  = ([], Ok (ReaderLocals (push_sample acc x) pre r b)).
Proof.
  intros [Hid Hx]%parse_line_inv. unfold reader_step.
  rewrite Hid, act_bind_lift_ok. unfold on_readid. cbn [rl_readid_pre].
  rewrite String.eqb_refl. cbn [negb].
  rewrite act_bind_mret, Hx, act_bind_lift_ok. done.
Qed.

(** The first line of a new read, when the number of finished reads is
    not a multiple of [F]: the line is appended. *)
Lemma reader_step_new F acc pre r b line readid x :
  parse_line' line = Ok (readid, x) ->
  String.eqb readid pre = false -> F <> 0 -> (r + 1) mod F <> 0 ->
  reader_step' F (ReaderLocals acc pre r b) line
  = ([], Ok (ReaderLocals (push_sample acc x) readid (r + 1) b)).
Proof.
  intros [Hid Hx]%parse_line_inv Hne HF Hmod. unfold reader_step.
  rewrite Hid, act_bind_lift_ok. unfold on_readid, Py.mod_.
  cbn [rl_readid_pre rl_r_num rl_b_num rl_acc].
  rewrite Hne. cbn [negb].
  destruct (Z.eqb_spec F 0); [done|]. rewrite act_bind_lift_ok.
  destruct (Z.eqb_spec ((r + 1) mod F) 0); [done|].
  rewrite act_bind_mret, Hx, act_bind_lift_ok. done.
Qed.

(** The first line of a new read, when the number of finished reads is
    a multiple of [F]: the accumulated batch is put on the queue and the
    line starts a new batch. *)
Lemma reader_step_flush F acc pre r b line readid x :
  parse_line' line = Ok (readid, x) ->
  String.eqb readid pre = false -> F <> 0 -> (r + 1) mod F = 0 ->
  reader_step' F (ReaderLocals acc pre r b) line
  = ([Item acc], Ok (ReaderLocals (push_sample empty_batch x) readid (r + 1) (b + 1))).
Proof.
  intros [Hid Hx]%parse_line_inv Hne HF Hmod. unfold reader_step.
  rewrite Hid, act_bind_lift_ok. unfold on_readid, Py.mod_.
  cbn [rl_readid_pre rl_r_num rl_b_num rl_acc].
  rewrite Hne. cbn [negb].
  destruct (Z.eqb_spec F 0); [done|]. rewrite act_bind_lift_ok.
  rewrite Hmod. change (0 =? 0) with true. cbn iota.
  rewrite act_bind_emit. cbn [fst snd mret act_ret].
  rewrite act_bind_trace, Hx. done.
Qed.

(** The loop and what follows it, from any state the loop can be in:
    [l] holds the records accumulated since the last flush, [r] reads
    are finished, and [l] spans [r mod F] finished reads and the current
    one. *)
Lemma reader_loop_flush_law F :
  1 <= F ->
  forall lines recs (l : list (string * sample)) y r b,
    mapR parse_line' lines = Ok recs ->
    last l = Some y ->
    0 <= r ->
    length (runs l) = S (Z.to_nat (r mod F)) ->
    (reader_loop' F (ReaderLocals (batch_of (snd <$> l)) y.1 r b) lines
       ≫= reader_finish)
    = ((Item <$> flush_law_batches F (l ++ recs)) ++ [Kill],
       Ok (r - r mod F + Z.of_nat (length (runs (l ++ recs))),
           b + Z.of_nat (length (flush_law_batches F (l ++ recs))))).
Proof.
  intros HF lines.
  induction lines as [|line lines IH]; intros recs l y r b Hparse Hlast Hr Hruns.
  - injection Hparse as <-. rewrite app_nil_r. simpl reader_loop'.
    rewrite act_bind_mret. unfold reader_finish.
    cbn [rl_acc rl_r_num rl_b_num].
    pose proof (Z.mod_pos_bound r F ltac:(lia)) as Hb.
    assert (l <> []) as Hne by (by destruct l).
    rewrite flush_law_batches_small by (done || lia).
    assert ((0 <? Z.of_nat (length (sampleinfo (batch_of (snd <$> l))))) = true) as ->.
    { apply Z.ltb_lt. simpl. rewrite !length_fmap. destruct l; simpl; [done|lia]. }
    rewrite act_bind_assoc, act_bind_emit. cbn [fst snd].
    rewrite act_bind_mret, act_bind_emit. simpl.
    do 3 f_equal; lia.
  - simpl in Hparse.
    destruct (parse_line' line) as [[readid x]|] eqn:Hline; simpl in Hparse; [|done].
    destruct (mapR parse_line' lines) as [recs'|] eqn:Hlines; simpl in Hparse; [|done].
    injection Hparse as <-.
    simpl reader_loop'. rewrite act_bind_assoc.
    pose proof (Z.mod_pos_bound r F ltac:(lia)) as Hb.
    pose proof (succ_mod r F ltac:(lia)) as Hsucc.
    pose proof (length_runs_snoc l y (readid, x) Hlast) as Hsnoc.
    unfold boundary in Hsnoc. cbn [fst] in Hsnoc.
    rewrite String.eqb_sym in Hsnoc.
    replace (l ++ (readid, x) :: recs') with ((l ++ [(readid, x)]) ++ recs')
      by (by rewrite <- app_assoc).
    destruct (String.eqb readid y.1) eqn:Hid.
    + apply String.eqb_eq in Hid as ->.
      rewrite (reader_step_same _ _ _ _ _ _ x) by done.
      rewrite act_bind_ok, push_batch_of.
      replace ((snd <$> l) ++ [x]) with (snd <$> (l ++ [(y.1, x)]))
        by (by rewrite fmap_app).
      apply (IH recs' (l ++ [(y.1, x)]) (y.1, x) r b);
        [done|by rewrite last_snoc|done|lia].
    + destruct (Z.eqb_spec (r mod F + 1) F) as [Hfull|Hpart].
      * rewrite (reader_step_flush _ _ _ _ _ _ readid x) by (done || lia).
        rewrite act_bind_trace.
        change (push_sample empty_batch x) with (batch_of (snd <$> [(readid, x)])).
        assert (length (runs [(readid, x)]) = S (Z.to_nat ((r + 1) mod F)))
          as Hone by (by rewrite Hsucc).
        pose proof (IH recs' [(readid, x)] (readid, x) (r + 1) (b + 1)
                      eq_refl eq_refl ltac:(lia) Hone) as IH'.
        cbn [fst] in IH'. rewrite IH'. cbn [fst snd].
        rewrite <- app_assoc.
        change ([(readid, x)] ++ recs') with ((readid, x) :: recs').
        rewrite (flush_law_batches_full F l y (readid, x) recs');
          [|done|by rewrite String.eqb_sym|lia|lia].
        rewrite (runs_app_boundary l y (readid, x) recs')
          by (done || by rewrite String.eqb_sym).
        rewrite length_app. simpl length. rewrite Hsucc.
        f_equal. f_equal. f_equal; lia.
      * rewrite (reader_step_new _ _ _ _ _ _ readid x) by (done || lia).
        rewrite act_bind_ok, push_batch_of.
        replace ((snd <$> l) ++ [x]) with (snd <$> (l ++ [(readid, x)]))
          by (by rewrite fmap_app).
        assert (length (runs (l ++ [(readid, x)])) = S (Z.to_nat ((r + 1) mod F)))
          as Hmore by (rewrite Hsucc; lia).
        pose proof (IH recs' (l ++ [(readid, x)]) (readid, x) (r + 1) b
                      eq_refl (last_snoc _ _) ltac:(lia) Hmore) as IH'.
        cbn [fst] in IH'. rewrite IH'.
        rewrite Hsucc. f_equal. f_equal. f_equal. lia.
Qed.

(** C3. On a file whose lines all parse, with [F >= 1],
    [_read_features_file'] puts on [features_batch_q] one Feature Batch
    for each group of [F] consecutive read-identifier runs (the last
    group may hold fewer runs), each batch holding the records of its
    runs in file order, and then the sentinel, once. So a batch is
    flushed when a run ends and the number of finished runs is a
    multiple of [F], the accumulator starts anew after it, and what is
    left at the end of the file is flushed once, before the sentinel.
    The closing report counts the runs and the batches. *)
Theorem read_features_file_flush_law F lines recs :
  1 <= F -> lines <> [] ->
  mapR parse_line' lines = Ok recs ->
  let groups := chunks (Z.to_nat F) (runs recs) in
  _read_features_file' lines F
  = ((Item <$> ((fun g => batch_of (snd <$> concat g)) <$> groups)) ++ [Kill],
     Ok (Z.of_nat (length (runs recs)), Z.of_nat (length groups)))
  /\ flush_law_batches F recs = (fun g => batch_of (snd <$> concat g)) <$> groups
  /\ concat (concat groups) = recs
  /\ Forall (fun g => (1 <= length g <= Z.to_nat F)%nat) groups
  /\ (forall i g, groups !! i = Some g -> (S i < length groups)%nat ->
        length g = Z.to_nat F).
Proof.
  intros HF Hne Hparse groups.
  destruct (chunks_spec (Z.to_nat F) (runs recs)) as (Hcat & Hall & Hfull); [lia|].
  split; [|split; [done|split; [|done]]].
  - destruct lines as [|line lines]; [done|]. simpl in Hparse.
    destruct (parse_line' line) as [[readid x]|] eqn:Hline; simpl in Hparse; [|done].
    destruct (mapR parse_line' lines) as [recs'|] eqn:Hlines; simpl in Hparse; [|done].
    injection Hparse as <-.
    apply parse_line_inv in Hline as [Hid Hx].
    unfold _read_features_file.
    rewrite Hid, act_bind_lift_ok, Hx, act_bind_lift_ok.
    pose proof (reader_loop_flush_law F HF lines recs' [(readid, x)] (readid, x)
                  0 0 Hlines eq_refl ltac:(lia)) as Hloop.
    rewrite Z.mod_0_l in Hloop by lia.
    specialize (Hloop eq_refl). cbn [fst] in Hloop.
    change (push_sample empty_batch x) with (batch_of (snd <$> [(readid, x)])).
    rewrite Hloop. unfold flush_law_batches. fold groups.
    rewrite length_fmap. do 3 f_equal; lia.
  - fold groups in Hcat. rewrite Hcat. apply concat_runs.
Qed.

End ReaderProperties.

(** ** The sentinel among the workers of a queue *)



Section WorkersProperties.

Context {A : Type}.
Variable handle : A -> bool.
Implicit Types (q : list (msg A)) (w : worker A) (p : pool A).























End WorkersProperties.

(** ** The definitions on concrete inputs *)

Example kmer_window_11 : kmer_window "ACGTACGTACG" = "TACGT"%string.
Proof. reflexivity. Qed.

Example kmer_window_3 : kmer_window "ACG" = "ACG"%string.
Proof. reflexivity. Qed.

Example kmer_window_4 : kmer_window "ACGT" = "ACGT"%string.
Proof. reflexivity. Qed.

Example kmer_window_1 : kmer_window "A" = "A"%string.
Proof. reflexivity. Qed.

Example arange0_5_2 : Py.arange0 5 2 = Ok [0; 2; 4].
Proof. reflexivity. Qed.

Example slice_past_end : Py.slice [10; 20; 30; 40; 50] 4 6 = [50].
Proof. reflexivity. Qed.

Example torch_argmax_tie : torch_argmax [sf32 1 0; sf32 1 0] = Ok 0.
Proof. reflexivity. Qed.

Example torch_argmax_second : torch_argmax [sf32 1 (-2); sf32 3 (-2)] = Ok 1.
Proof. reflexivity. Qed.

Example pool_sizes_gpu_1_2 : pool_sizes_gpu ex_args = (4, 2).
Proof. reflexivity. Qed.

Example get_gpus_three : take 7 (_get_gpus 3) = [0; 1; 2; 0; 1; 2; 0].
Proof. reflexivity. Qed.

Example get_gpus_none : take 3 (_get_gpus 0) = [0; 0; 0].
Proof. reflexivity. Qed.

(** With one device the list of [_get_gpus] has 1000 entries: the
    1001st scorer finds none. *)
Example gpu_scorers_beyond_list :
  (_call_mods_from_fast5s_gpu 1
     (Args "model.ckpt" "fast5s" 1 1001 30 512 "calls.tsv" false)).2
  = Raise IndexError.
Proof. vm_compute. reflexivity. Qed.

(** Two reads of two records each, one read per batch: two Feature
    Batches of two records, then the sentinel. *)
Example read_two_reads :
  (fun m => match m with
            | Item b => Some (length (sampleinfo b))
            | Kill => None
            end)
  <$> (_read_features_file (fun t => t) ex_base2code_dna ex_float ex_int
         [ex_line "10" "read1"; ex_line "20" "read1";
          ex_line "30" "read2"; ex_line "40" "read2"]%string 1).1
  = [Some 2%nat; Some 2%nat; None].
Proof. vm_compute. reflexivity. Qed.

(** A line with too few fields stops the reader after the batches already
    put, and before the sentinel. *)
Example read_bad_line :
  (fun r => (length r.1, r.2))
    (_read_features_file (fun t => t) ex_base2code_dna ex_float ex_int
       [ex_line "10" "read1"; ex_line "20" "read2"; "chr1"]%string 1)
  = (1%nat, Raise IndexError).
Proof. vm_compute. reflexivity. Qed.

(** After four steps of the example schedule one worker holds the
    sentinel and the queue is empty. *)
Example pool_sentinel_in_hand :
  pool_run (fun _ => true) [0; 1; 0; 0]%nat (pool_init [7; 8]%nat 2)
  = Some (Pool [] [Worker Holding 1 0; Worker (Working 8%nat) 0 0]).
Proof. reflexivity. Qed.

(** ** The theorems on the example inputs *)

Lemma call_mods_conservation_witness :
  exists pred_str accuracy batch_num starts,
    _call_mods 24 128 (fun x => x) ex_str_float ex_code2base_dna
      ex_accuracy_score ex_np_mean ex_model ex_batch 2
    = Ok (pred_line ex_str_float <$> pred_str, accuracy, batch_num)
    /\ length (pred_line ex_str_float <$> pred_str) = length (sampleinfo ex_batch)
    /\ p_info <$> pred_str = sampleinfo ex_batch
    /\ (forall i p, pred_str !! i = Some p ->
        scored_at 24 128 (fun x => x) ex_code2base_dna ex_model ex_batch 2 i p)
    /\ Py.arange0 (Z.of_nat (length (sampleinfo ex_batch))) 2 = Ok starts
    /\ concat ((fun s => Py.slice (sampleinfo ex_batch) s (s + 2)) <$> starts)
       = sampleinfo ex_batch.
Proof.
  apply call_mods_conservation.
  - lia.
  - reflexivity.
  - reflexivity.
  - repeat constructor; by eexists.
  - intros k _. eexists. split; [reflexivity|]. split.
    + apply length_fmap.
    + apply Forall_fmap, Forall_forall. intros kmer _. simpl.
      repeat case_match; simpl; lia.
  - intros y_true y_pred _ Hlen. unfold ex_accuracy_score.
    rewrite Hlen, Nat.eqb_refl. by eexists.
  - lia.
Defined.

Lemma context_trimming_witness :
  kmer_window "ACGTACGTACG" = substring 3 5 "ACGTACGTACG"
  /\ kmer_window "CCG" = "CCG"%string
  /\ exists pred_str,
       ex_scored.1.1 = pred_line ex_str_float <$> pred_str
       /\ (0 < 2 ->
           length pred_str = length (sampleinfo ex_batch)
           /\ p_info <$> pred_str = sampleinfo ex_batch)
       /\ forall i p, pred_str !! i = Some p ->
          exists kmer seq,
            kmers ex_batch !! i = Some kmer
            /\ decode_kmer ex_code2base_dna kmer = Ok seq
            /\ p_seq p = kmer_window seq
            /\ let L := Z.of_nat (String.length seq) in
               let c := L / 2 in
               p_seq p = Py.str_slice seq (Z.max 0 (c - 2)) (Z.min L (c + 3))
               /\ p_seq p = substring (Z.to_nat (Z.max 0 (c - 2)))
                                      (Z.to_nat (Z.min L (c + 3) - Z.max 0 (c - 2))) seq
               /\ Z.of_nat (String.length (p_seq p))
                  = Z.min L (c + 3) - Z.max 0 (c - 2)
               /\ (String.length (p_seq p) <= 5)%nat
               /\ (L = 11 -> p_seq p = substring 3 5 seq
                             /\ String.length (p_seq p) = 5%nat)
               /\ (L = 3 -> p_seq p = seq).
Proof.
  destruct (context_trimming 24 128 (fun x => x) ex_str_float ex_code2base_dna
              ex_accuracy_score ex_np_mean ex_model) as [Hwindow Hcall].
  split; [|split].
  - apply (Hwindow "ACGTACGTACG"%string). reflexivity.
  - apply (Hwindow "CCG"%string). reflexivity.
  - apply (Hcall ex_batch 2 ex_scored.1.1 ex_scored.1.2 ex_scored.2).
    vm_compute. reflexivity.
Defined.

Lemma label_consistency_witness :
  exists pred_str,
    ex_scored.1.1 = pred_line ex_str_float <$> pred_str
    /\ (0 < 2 ->
        length pred_str = length (sampleinfo ex_batch)
        /\ p_info <$> pred_str = sampleinfo ex_batch)
    /\ forall i p a b,
       pred_str !! i = Some p ->
       logits_of ex_model ex_batch 2 i = Some [a; b] ->
       (SFleb b a = true -> p_label p = 0)
       /\ (SFltb a b = true -> p_label p = 1).
Proof.
  apply (label_consistency 24 128 (fun x => x) ex_str_float ex_code2base_dna
           ex_accuracy_score ex_np_mean ex_model ex_batch 2
           ex_scored.1.1 ex_scored.1.2 ex_scored.2).
  vm_compute. reflexivity.
Defined.

Lemma read_features_file_flush_law_witness :
  let groups := chunks 2 (runs ex_records) in
  _read_features_file (fun t => t) ex_base2code_dna ex_float ex_int ex_file 2
  = ((Item <$> ((fun g => batch_of (snd <$> concat g)) <$> groups)) ++ [Kill],
     Ok (Z.of_nat (length (runs ex_records)), Z.of_nat (length groups)))
  /\ flush_law_batches 2 ex_records
     = (fun g => batch_of (snd <$> concat g)) <$> groups
  /\ concat (concat groups) = ex_records
  /\ Forall (fun g => (1 <= length g <= 2)%nat) groups
  /\ (forall i g, groups !! i = Some g -> (S i < length groups)%nat ->
        length g = 2%nat).
Proof.
  apply (read_features_file_flush_law (fun t => t) ex_base2code_dna ex_float
           ex_int 2 ex_file ex_records).
  - lia.
  - discriminate.
  - vm_compute. reflexivity.
Defined.

Lemma pool_size_correction_witness :
  nproc ex_args <= Z.max 1 (nproc_gpu ex_args) + 1
  /\ pool_sizes_gpu ex_args = (4, 2)
  /\ 4 <= (pool_sizes_gpu ex_args).1
  /\ (exists tr,
        (_call_mods_from_fast5s_gpu 3 ex_args).1
        = Put_kill fast5s_q :: Start T_read_features_fast5s_q :: tr
        /\ T_read_features_fast5s_q ∉ started tr)
  /\ (2 <= 1000 * Z.max 1 3 -> (_call_mods_from_fast5s_gpu 3 ex_args).2 = Ok tt).
Proof.
  assert (nproc ex_args <= Z.max 1 (nproc_gpu ex_args) + 1) as Hle
    by (vm_compute; discriminate).
  split; [exact Hle|]. exact (pool_size_correction 3 ex_args Hle).
Defined.

Lemma call_mods_validates_paths_witness :
  validate_paths ex_path_exists (fun path => path) ex_args = Raise ValueError
  /\ (call_mods true 3 2 ex_path_exists (fun _ => true) (fun path => path)
        "uuid" (Ok tt) (Ok 4) ex_args).1 = []
  /\ started (call_mods true 3 2 ex_path_exists (fun _ => true) (fun path => path)
                "uuid" (Ok tt) (Ok 4) ex_args).1 = []
  /\ exists e, (call_mods true 3 2 ex_path_exists (fun _ => true) (fun path => path)
                  "uuid" (Ok tt) (Ok 4) ex_args).2 = Raise e.
Proof.
  apply (proj1 (call_mods_validates_paths true 3 2 ex_path_exists (fun _ => true)
                  (fun path => path) "uuid" (Ok tt) (Ok 4) ex_args)).
  left. reflexivity.
Defined.

(** * Further properties *)

(** ** The reader on arbitrary files *)

Lemma balanced_empty : balanced empty_batch.
Proof. by repeat split. Qed.

Lemma balanced_push acc x : balanced acc -> balanced (push_sample acc x).
Proof.
  unfold balanced, push_sample. simpl. rewrite !length_app. simpl.
  intros (? & ? & ? & ? & ? & ?). repeat split; lia.
Qed.

Lemma push_sample_nonempty acc x : sampleinfo (push_sample acc x) <> [].
Proof. simpl. by destruct (sampleinfo acc). Qed.

Lemma balanced_batch_of xs : balanced (batch_of xs).
Proof. unfold balanced, batch_of. simpl. by rewrite !length_fmap. Qed.

Lemma mod_opp_eqb_0 (r F : Z) : (r mod (- F) =? 0) = (r mod F =? 0).
Proof.
  destruct (Z.eq_dec F 0) as [->|HF]; [done|].
  destruct (Z.eqb_spec (r mod F) 0) as [H0|H0].
  - apply Z.eqb_eq. apply Z.mod_divide in H0; [|done].
    apply Z.mod_divide; [lia|]. exact (proj2 (Z.divide_opp_l F r) H0).
  - apply Z.eqb_neq. intros Hopp. apply H0.
    apply Z.mod_divide in Hopp; [|lia].
    apply Z.mod_divide; [done|]. exact (proj1 (Z.divide_opp_l F r) Hopp).
Qed.

Lemma on_readid_opp F s readidtmp :
  on_readid (- F) s readidtmp = on_readid F s readidtmp.
Proof.
  unfold on_readid. destruct (negb _); [|done]. unfold Py.mod_.
  destruct (Z.eqb_spec F 0) as [->|HF]; [done|].
  destruct (Z.eqb_spec (- F) 0); [lia|].
  rewrite !act_bind_lift_ok. by rewrite mod_opp_eqb_0.
Qed.

Lemma foldl_push_batch_of (xs ys : list sample) :
  foldl push_sample (batch_of xs) ys = batch_of (xs ++ ys).
Proof.
  revert xs. induction ys as [|y ys IH]; intros xs; simpl.
  - by rewrite app_nil_r.
  - rewrite push_batch_of, IH. by rewrite <- app_assoc.
Qed.

(** A list is one run when all its records carry the identifier of the
    first. *)
Lemma runs_length_one {V} (x : string * V) (l : list (string * V)) :
  length (runs (x :: l)) = 1%nat
  <-> forallb (fun rec => String.eqb rec.1 x.1) l = true.
Proof.
  revert x. induction l as [|y l IH]; intros x; [done|].
  rewrite length_runs_cons_cons. unfold boundary. simpl forallb.
  destruct (runs_head y l) as (r & rs & Hy).
  rewrite (String.eqb_sym y.1 x.1).
  destruct (String.eqb x.1 y.1) eqn:Hxy.
  - apply String.eqb_eq in Hxy. rewrite Nat.add_0_r, andb_true_l, Hxy.
    apply IH.
  - rewrite Hy, andb_false_l. simpl. split; [lia|done].
Qed.

(** *** Splitting and joining on one character *)

Lemma split_nonempty (c : ascii) (t : string) : Py.split c t <> [].
Proof.
  induction t as [|x t IH]; simpl; [done|].
  destruct (Ascii.eqb x c); [done|]. by destruct (Py.split c t).
Qed.

(** No piece of a split holds the separator. *)
Lemma split_pieces (c : ascii) (t : string) :
  Forall (fun w => has_char c w = false) (Py.split c t).
Proof.
  induction t as [|x t IH]; simpl; [by repeat constructor|].
  destruct (Ascii.eqb x c) eqn:Hx; [by constructor|].
  destruct (Py.split c t) as [|w ws].
  { constructor; [simpl; by rewrite Hx|constructor]. }
  inversion IH as [|? ? Hw Hws]; subst. constructor; [|done].
  simpl. by rewrite Hx.
Qed.

Lemma split_no_char (c : ascii) (w : string) :
  has_char c w = false -> Py.split c w = [w].
Proof.
  induction w as [|x w IH]; simpl; [done|].
  intros [Hx Hw]%orb_false_iff. rewrite Hx, IH; done.
Qed.

Lemma split_app_sep (c : ascii) (w t : string) :
  has_char c w = false ->
  Py.split c (w ++ String c t)%string = w :: Py.split c t.
Proof.
  induction w as [|x w IH]; simpl.
  - intros _. by rewrite Ascii.eqb_refl.
  - intros [Hx Hw]%orb_false_iff. rewrite Hx, IH; done.
Qed.

(** Splitting a join of separator-free words gives the words back. *)
Lemma split_join (c : ascii) (ws : list string) :
  ws <> [] -> Forall (fun w => has_char c w = false) ws ->
  Py.split c (Py.join (String c EmptyString) ws) = ws.
Proof.
  intros Hne Hws. unfold Py.join.
  induction Hws as [|w ws Hw Hws IH]; [done|].
  destruct ws as [|w' ws].
  - simpl. by apply split_no_char.
  - change (String.concat (String c "") (w :: w' :: ws))
      with (w ++ String c (String.concat (String c "") (w' :: ws)))%string.
    rewrite split_app_sep by done. f_equal. by apply IH.
Qed.

(** Joining the pieces of a split gives the text back. *)
Lemma join_split (c : ascii) (t : string) :
  Py.join (String c EmptyString) (Py.split c t) = t.
Proof.
  unfold Py.join. induction t as [|x t IH]; simpl; [done|].
  destruct (Ascii.eqb_spec x c) as [->|Hx].
  - pose proof (split_nonempty c t) as Hne.
    destruct (Py.split c t) as [|w ws]; [done|].
    change (String.concat (String c "") ("" :: w :: ws))%string
      with (String c (String.concat (String c "") (w :: ws))).
    by rewrite IH.
  - pose proof (split_nonempty c t) as Hne.
    destruct (Py.split c t) as [|w [|w' ws]]; [done| |].
    + simpl in *. by rewrite IH.
    + change (String.concat (String c "") (String x w :: w' :: ws))
        with (String x (String.concat (String c "") (w :: w' :: ws))).
      by rewrite IH.
Qed.

Section ReaderFurther.

Variable py_strip : string -> string.
Variable base2code_dna : ascii -> option Z.
Variable py_float : string -> option spec_float.
Variable py_int : string -> option Z.

Local Abbreviation parse_line' := (parse_line py_strip base2code_dna py_float py_int).
Local Abbreviation parse_words' := (parse_words base2code_dna py_float py_int).
Local Abbreviation reader_step' := (reader_step py_strip base2code_dna py_float py_int).
Local Abbreviation reader_loop' := (reader_loop py_strip base2code_dna py_float py_int).
Local Abbreviation _read_features_file' :=
  (_read_features_file py_strip base2code_dna py_float py_int).

Lemma puts_batches_bind {S T} (m : act (msg features_batch) S)
    (f : S -> act (msg features_batch) T) (ok : S -> Prop) (ok' : T -> Prop) :
  puts_batches m ok ->
  (forall s, ok s -> puts_batches (f s) ok') ->
  puts_batches (m ≫= f) ok'.
Proof.
  intros [(bs & Htr & Hbs) Hok] Hf.
  destruct m as [tr [s|e]]; simpl in Htr, Hok.
  - destruct (Hf s (Hok s eq_refl)) as [(bs' & Htr' & Hbs') Hok'].
    rewrite act_bind_trace. simpl. split.
    + exists (bs ++ bs'). rewrite Htr, Htr', fmap_app.
      split; [done|by apply Forall_app].
    + done.
  - split; [by exists bs|done].
Qed.

Lemma puts_batches_lift {S} (r : result S) (ok : S -> Prop) :
  (forall s, r = Ok s -> ok s) -> puts_batches (lift r) ok.
Proof. intros Hr. split; [by exists []|done]. Qed.

Lemma on_readid_puts F s readidtmp :
  good_state s ->
  puts_batches (on_readid F s readidtmp) (fun s1 => balanced (rl_acc s1)).
Proof.
  intros Hs. unfold on_readid.
  destruct (negb _); [|split; [by exists []|intros ? [= <-]; apply Hs]].
  unfold Py.mod_. destruct (rl_r_num s + 1 =? 0), (F =? 0);
    try (split; [by exists []|done]);
    rewrite act_bind_lift_ok;
    destruct (_ =? 0);
    try (split; [by exists []|intros ? [= <-]; apply Hs]);
    (split; [exists [rl_acc s]; split; [done|by constructor]
            |intros ? [= <-]; apply balanced_empty]).
Qed.

Lemma reader_step_puts F s line :
  good_state s -> puts_batches (reader_step' F s line) good_state.
Proof.
  intros Hs. unfold reader_step.
  eapply puts_batches_bind; [apply (puts_batches_lift _ (fun _ => True)); done|].
  intros readidtmp _.
  eapply puts_batches_bind; [by apply on_readid_puts|].
  intros s1 Hs1.
  eapply puts_batches_bind; [apply (puts_batches_lift _ (fun _ => True)); done|].
  intros x _. split; [by exists []|].
  intros s' [= <-]. split; [by apply balanced_push|apply push_sample_nonempty].
Qed.

Lemma reader_loop_puts F lines : forall s,
  good_state s -> puts_batches (reader_loop' F s lines) good_state.
Proof.
  induction lines as [|line lines IH]; intros s Hs; simpl.
  - split; [by exists []|by intros ? [= <-]].
  - eapply puts_batches_bind; [by apply reader_step_puts|]. apply IH.
Qed.

Lemma reader_finish_good s :
  good_state s ->
  reader_finish s = ([Item (rl_acc s); Kill], Ok (rl_r_num s + 1, rl_b_num s + 1)).
Proof.
  intros [_ Hne]. unfold reader_finish.
  assert ((0 <? Z.of_nat (length (sampleinfo (rl_acc s)))) = true) as ->.
  { apply Z.ltb_lt. destruct (sampleinfo (rl_acc s)); simpl; [done|lia]. }
  reflexivity.
Qed.

Lemma read_features_file_puts lines F :
  let run := _read_features_file' lines F in
  exists batches,
    Forall good_batch batches
    /\ run.1 = (Item <$> batches)
               ++ match run.2 with Ok _ => [Kill] | Raise _ => [] end.
Proof.
  intros run. subst run. destruct lines as [|line lines]; [by exists []|].
  unfold _read_features_file.
  destruct (Py.index (words_of py_strip line) 4) as [readid|e]; [|by exists []].
  rewrite act_bind_lift_ok.
  destruct (parse_words' (words_of py_strip line)) as [x|e]; [|by exists []].
  rewrite act_bind_lift_ok.
  destruct (reader_loop_puts F lines
              (ReaderLocals (push_sample empty_batch x) readid 0 0))
    as [(bs & Htr & Hbs) Hok].
  { split; [apply balanced_push, balanced_empty|apply push_sample_nonempty]. }
  destruct (reader_loop' F _ lines) as [tr [s|e]]; simpl in Htr, Hok.
  - specialize (Hok s eq_refl). rewrite act_bind_trace, reader_finish_good by done.
    simpl. exists (bs ++ [rl_acc s]). split.
    + apply Forall_app. split; [done|]. by constructor.
    + rewrite Htr, fmap_app. simpl. by rewrite <- app_assoc.
  - rewrite act_bind_raise. simpl. exists bs. by rewrite app_nil_r.
Qed.

(** X1. Whatever the file and the batch size, [_read_features_file] puts
    the sentinel exactly when it ends normally, once, and as its last
    message; when it ends with an exception (a malformed line, a zero
    batch size, an empty file) it has put Feature Batches only and no
    sentinel. *)
Theorem reader_sentinel_iff_done lines F :
  let run := _read_features_file py_strip base2code_dna py_float py_int
               lines F in
  exists batches,
    run.1 = (Item <$> batches)
            ++ match run.2 with Ok _ => [Kill] | Raise _ => [] end.
Proof.
  intros run. destruct (read_features_file_puts lines F) as (bs & _ & Htr).
  by exists bs.
Qed.

(** X2. Whatever the file and the batch size, every Feature Batch that
    [_read_features_file] puts on the queue, also before an exception,
    holds at least one record and has seven lists of the same length. *)
Theorem reader_batches_good lines F fb :
  Item fb ∈ (_read_features_file' lines F).1 ->
  balanced fb /\ sampleinfo fb <> [].
Proof.
  destruct (read_features_file_puts lines F) as (bs & Hbs & ->).
  intros [Hin|Hin]%elem_of_app.
  - apply list_elem_of_fmap in Hin as (fb' & [= <-] & Hin).
    by apply (proj1 (Forall_forall _ _) Hbs).
  - destruct (_read_features_file' lines F).2; [|by apply elem_of_nil in Hin].
    by apply list_elem_of_singleton in Hin.
Qed.

Lemma reader_loop_opp F lines : forall s,
  reader_loop' (- F) s lines = reader_loop' F s lines.
Proof.
  induction lines as [|line lines IH]; intros s; simpl; [done|].
  assert (reader_step' (- F) s line = reader_step' F s line) as ->.
  { unfold reader_step.
    destruct (Py.index (words_of py_strip line) 4) as [readidtmp|e]; [|done].
    by rewrite !act_bind_lift_ok, on_readid_opp. }
  destruct (reader_step' F s line) as [tr [s'|e]]; [|done].
  by rewrite !act_bind_trace, IH.
Qed.

(** X3. A negative [f5_batch_size] behaves as its absolute value: the
    reader tests [r_num % f5_batch_size == 0], which holds for [-F]
    exactly when it holds for [F]. The messages put and the way the reader
    ends are the same for [-F] and [F], on every file. *)
Theorem read_features_file_opp lines F :
  _read_features_file py_strip base2code_dna py_float py_int lines (- F)
  = _read_features_file py_strip base2code_dna py_float py_int lines F.
Proof.
  destruct lines as [|line lines]; [done|]. unfold _read_features_file.
  destruct (Py.index (words_of py_strip line) 4) as [readid|e]; [|done].
  rewrite !act_bind_lift_ok.
  destruct (parse_words' (words_of py_strip line)) as [x|e]; [|done].
  by rewrite !act_bind_lift_ok, reader_loop_opp.
Qed.

(** With a batch size of 0 the first line of a second read stops the
    reader. *)
Lemma reader_step_zero acc pre r b line readid x :
  parse_line' line = Ok (readid, x) ->
  String.eqb readid pre = false ->
  reader_step' 0 (ReaderLocals acc pre r b) line = ([], Raise ZeroDivisionError).
Proof.
  intros [Hid Hx]%parse_line_inv Hne. unfold reader_step.
  rewrite Hid, act_bind_lift_ok. unfold on_readid, Py.mod_.
  cbn [rl_readid_pre]. by rewrite Hne.
Qed.

Lemma reader_loop_zero lines : forall recs acc pre r b,
  mapR parse_line' lines = Ok recs ->
  reader_loop' 0 (ReaderLocals acc pre r b) lines
  = if forallb (fun rec => String.eqb rec.1 pre) recs
    then ([], Ok (ReaderLocals (foldl push_sample acc recs.*2) pre r b))
    else ([], Raise ZeroDivisionError).
Proof.
  induction lines as [|line lines IH]; intros recs acc pre r b Hparse.
  - by injection Hparse as <-.
  - simpl in Hparse.
    destruct (parse_line' line) as [[readid x]|] eqn:Hline; simpl in Hparse; [|done].
    destruct (mapR parse_line' lines) as [recs'|] eqn:Hlines; simpl in Hparse; [|done].
    injection Hparse as <-. simpl reader_loop. simpl forallb.
    destruct (String.eqb readid pre) eqn:Hid.
    + apply String.eqb_eq in Hid as ->.
      rewrite (reader_step_same _ _ _ _ _ _ _ _ _ _ x) by done.
      rewrite act_bind_ok. by rewrite (IH recs').
    + by rewrite (reader_step_zero _ _ _ _ _ readid x).
Qed.

(** X4. With [f5_batch_size = 0] and a file whose lines all parse, the
    reader ends normally only if the file holds a single read: it then
    puts one Feature Batch with all the records and the sentinel. If the
    file holds more than one read, [r_num % 0] raises [ZeroDivisionError]
    at the first line of the second read, before anything was put. *)
Theorem read_features_file_zero lines recs :
  lines <> [] ->
  mapR parse_line' lines = Ok recs ->
  (length (runs recs) = 1%nat ->
   _read_features_file' lines 0
   = ([Item (batch_of recs.*2); Kill], Ok (1, 1)))
  /\ ((1 < length (runs recs))%nat ->
      _read_features_file' lines 0 = ([], Raise ZeroDivisionError)).
Proof.
  intros Hne Hparse. destruct lines as [|line lines]; [done|]. simpl in Hparse.
  destruct (parse_line' line) as [[readid x]|] eqn:Hline; simpl in Hparse; [|done].
  destruct (mapR parse_line' lines) as [recs'|] eqn:Hlines; simpl in Hparse; [|done].
  injection Hparse as <-.
  apply parse_line_inv in Hline as [Hid Hx].
  unfold _read_features_file.
  rewrite Hid, act_bind_lift_ok, Hx, act_bind_lift_ok.
  rewrite (reader_loop_zero lines recs') by done.
  pose proof (runs_length_one (readid, x) recs') as Hone. cbn [fst] in Hone.
  destruct (runs_head (readid, x) recs') as (r & rs & Hruns).
  destruct (forallb _ recs') eqn:Hall.
  - split; [|rewrite (proj2 Hone eq_refl); lia]. intros _.
    rewrite act_bind_ok.
    change (push_sample empty_batch x) with (batch_of [x]).
    rewrite foldl_push_batch_of, reader_finish_good.
    + done.
    + split; [apply balanced_batch_of|done].
  - split; [intros H1; apply Hone in H1; congruence|done].
Qed.

(** X5. The six identifying fields of a line reach the batch unchanged:
    splitting the [sampleinfo] entry of a parsed line on tabs gives the
    first six fields of the line, and the fifth of them is the read
    identifier by which the reader groups the lines. *)
Theorem sampleinfo_fields line readid x :
  parse_line' line = Ok (readid, x) ->
  Py.split "009"%char (s_info x) = take 6 (words_of py_strip line)
  /\ Py.split "009"%char (s_info x) !! 4%nat = Some readid
  /\ length (Py.split "009"%char (s_info x)) = 6%nat.
Proof.
  intros [Hid Hx]%parse_line_inv.
  unfold parse_words in Hx.
  set (words := words_of py_strip line) in *.
  destruct (Py.index words 6) as [w6|]; simpl in Hx; [|done].
  destruct (mapR _ (list_ascii_of_string w6)) as [kmer|]; simpl in Hx; [|done].
  destruct (Py.index words 7) as [w7|]; simpl in Hx; [|done].
  destruct (mapR _ (Py.split _ w7)) as [means|]; simpl in Hx; [|done].
  destruct (Py.index words 8) as [w8|]; simpl in Hx; [|done].
  destruct (mapR _ (Py.split _ w8)) as [stds|]; simpl in Hx; [|done].
  destruct (Py.index words 9) as [w9|]; simpl in Hx; [|done].
  destruct (mapR _ (Py.split _ w9)) as [lens|]; simpl in Hx; [|done].
  destruct (Py.index words 10) as [w10|]; simpl in Hx; [|done].
  destruct (mapR _ (Py.split _ w10)) as [signals|]; simpl in Hx; [|done].
  destruct (Py.index words 11) as [w11|] eqn:H11; simpl in Hx; [|done].
  destruct (Py.parse py_int w11) as [label|]; simpl in Hx; [|done].
  injection Hx as <-. cbn [s_info].
  rewrite slice_take_drop by lia. rewrite drop_0.
  change (Z.to_nat (6 - 0)) with 6%nat.
  assert (12 <= length words)%nat as Hlen.
  { unfold Py.index in H11. destruct (words !! 11%nat) eqn:Hw; [|done].
    apply lookup_lt_Some in Hw. lia. }
  assert (Py.split "009" (Py.join Py.tab (take 6 words)) = take 6 words) as ->.
  { apply split_join.
    - destruct words; simpl in *; [lia|done].
    - apply Forall_take. apply split_pieces. }
  split; [done|]. split.
  - rewrite lookup_take_lt by lia. unfold Py.index in Hid.
    destruct (words !! 4%nat); congruence.
  - rewrite length_take. lia.
Qed.

End ReaderFurther.

(** ** The scorer, record by record *)

Lemma mapR_ext_in {X Y} (f g : X -> result Y) (xs : list X) :
  (forall x, x ∈ xs -> f x = g x) -> mapR f xs = mapR g xs.
Proof.
  induction xs as [|x xs IH]; intros Hfg; simpl; [done|].
  rewrite (Hfg x) by left. rewrite IH; [done|].
  intros y Hy. apply Hfg. by right.
Qed.

Section ScorerFurther.

Variables prec emax : Z.
Variable py_round6 : spec_float -> spec_float.
Variable str_float : spec_float -> string.
Variable code2base_dna : Z -> option string.
Variable accuracy_score : list Z -> list Z -> result spec_float.
Variable np_mean : list spec_float -> spec_float.
Variable model :
  list (list Z) -> list (list spec_float) -> list (list spec_float) ->
  list (list Z) -> list (list (list spec_float)) ->
  result (list (list spec_float)).

Local Abbreviation pred_of_idx' := (pred_of_idx prec emax py_round6 code2base_dna).
Local Abbreviation call_mods_step' :=
  (call_mods_step prec emax py_round6 code2base_dna accuracy_score model).
Local Abbreviation call_mods_loop' :=
  (call_mods_loop prec emax py_round6 code2base_dna accuracy_score model).
Local Abbreviation call_mods_preds' :=
  (call_mods_preds prec emax py_round6 code2base_dna accuracy_score model).
Local Abbreviation _call_mods' :=
  (_call_mods prec emax py_round6 str_float code2base_dna accuracy_score np_mean model).
Local Abbreviation scored_at' := (scored_at prec emax py_round6 code2base_dna model).
Local Abbreviation pred_of_record' :=
  (pred_of_record prec emax py_round6 code2base_dna model).

(** The prediction a turn of the inner loop builds. *)
Lemma pred_of_idx_value b_sampleinfo b_kmers logits predicted idx p :
  pred_of_idx' b_sampleinfo b_kmers logits predicted idx = Ok p ->
  exists row prob_0 prob_1 kmer b_idx_kmer,
    logits !! idx = Some row /\ row !! 0%nat = Some prob_0
    /\ row !! 1%nat = Some prob_1
    /\ b_kmers !! idx = Some kmer
    /\ decode_kmer code2base_dna kmer = Ok b_idx_kmer
    /\ b_sampleinfo !! idx = Some (p_info p)
    /\ predicted !! idx = Some (p_label p)
    /\ p = Pred (p_info p)
             (py_round6 (SFdiv prec emax prob_0 (SFadd prec emax prob_0 prob_1)))
             (py_round6 (SFsub prec emax (SFone prec emax)
                (py_round6 (SFdiv prec emax prob_0 (SFadd prec emax prob_0 prob_1)))))
             (p_label p) (kmer_window b_idx_kmer).
Proof.
  unfold pred_of_idx, Py.index.
  destruct (logits !! idx) as [row|]; simpl; [|done].
  destruct (row !! 0%nat) as [prob_0|] eqn:H0; simpl; [|done].
  destruct (row !! 1%nat) as [prob_1|] eqn:H1; simpl; [|done].
  destruct (b_kmers !! idx) as [kmer|]; simpl; [|done].
  destruct (decode_kmer code2base_dna kmer) as [b_idx_kmer|] eqn:Hk; simpl; [|done].
  destruct (b_sampleinfo !! idx) as [info|]; simpl; [|done].
  destruct (predicted !! idx) as [label|]; simpl; [|done].
  intros [= <-]. simpl. by exists row, prob_0, prob_1, kmer, b_idx_kmer.
Qed.

Lemma scored_at_pred_of_record fb batch_size i p :
  0 < batch_size -> scored_at' fb batch_size i p ->
  pred_of_record' fb batch_size i = Ok p.
Proof.
  intros Hbs Hat. pose proof Hat as (rows & predicted & Hm & Hpredicted & Hp).
  destruct (sub_batch_of_index batch_size i Hbs) as (Hs & Hj & Hi).
  rewrite Hs in Hp.
  apply pred_of_idx_value in Hp
    as (row & p0 & p1 & kmer & seq & Hrow & H0 & H1 & Hk & Hdec & Hinfo & _ & Hpeq).
  rewrite sub_batch_lookup, Hi in Hk by done.
  rewrite sub_batch_lookup, Hi in Hinfo by done.
  assert (logits_of model fb batch_size i = Some row) as Hlogits.
  { unfold logits_of. by rewrite Hm. }
  pose proof (scored_at_label _ _ _ _ _ _ _ _ _ _ Hat Hlogits) as Hlabel.
  unfold pred_of_record, Py.index.
  rewrite Hlogits, H0, H1, Hk. simpl. rewrite Hdec. simpl.
  rewrite Hinfo. simpl. rewrite Hlabel. simpl. f_equal. by symmetry.
Qed.

(** The predictions of a batch are those of its records, in order. *)
Lemma call_mods_preds_pointwise fb batch_size pred_str accuracys batch_num :
  0 < batch_size ->
  call_mods_preds' fb batch_size = Ok (pred_str, accuracys, batch_num) ->
  mapR (pred_of_record' fb batch_size) (seq 0 (length (sampleinfo fb))) = Ok pred_str.
Proof.
  intros Hbs [Hlen Hsc]%call_mods_preds_inv. specialize (Hlen Hbs).
  apply mapR_Forall2, Forall2_same_length_lookup. split.
  - by rewrite length_seq.
  - intros i x p Hx Hp. apply lookup_seq in Hx as [-> _]. simpl.
    destruct (Hsc i p Hp) as [_ Hat]. by apply scored_at_pred_of_record.
Qed.

(** X6. Each line [_call_mods] returns is determined by its own record
    and the row of outputs the classifier gave for it: for a positive
    [batch_size], line [i] renders the prediction with the identifying
    fields of record [i], [p0 = round(a / (a + b), 6)],
    [p1 = round(1 - p0, 6)], the argmax of the row as label, and the
    window of the decoded k-mer of record [i]. *)
Theorem call_mods_pointwise fb batch_size lines accuracy batch_num :
  0 < batch_size ->
  _call_mods' fb batch_size = Ok (lines, accuracy, batch_num) ->
  exists pred_str,
    lines = pred_line str_float <$> pred_str
    /\ mapR (pred_of_record' fb batch_size) (seq 0 (length (sampleinfo fb)))
       = Ok pred_str.
Proof.
  intros Hbs (pred_str & accuracys & Hpreds & ->)%call_mods_lines.
  exists pred_str. split; [done|]. by eapply call_mods_preds_pointwise.
Qed.

(** X7. Cutting a batch into sub-batches does not change the result when
    the classifier scores each record on its own: if two positive batch
    sizes give every record the same row of outputs, [_call_mods] returns
    the same lines for both. *)
Theorem call_mods_batch_size_irrelevant fb bs1 bs2 lines1 acc1 n1 lines2 acc2 n2 :
  0 < bs1 -> 0 < bs2 ->
  _call_mods' fb bs1 = Ok (lines1, acc1, n1) ->
  _call_mods' fb bs2 = Ok (lines2, acc2, n2) ->
  (forall i, (i < length (sampleinfo fb))%nat ->
     logits_of model fb bs1 i = logits_of model fb bs2 i) ->
  lines1 = lines2.
Proof.
  intros Hbs1 Hbs2 (ps1 & a1 & Hps1 & ->)%call_mods_lines
    (ps2 & a2 & Hps2 & ->)%call_mods_lines Hsame.
  apply call_mods_preds_pointwise in Hps1, Hps2; try done.
  f_equal. enough (Ok ps1 = Ok ps2) by congruence.
  rewrite <- Hps1, <- Hps2. apply mapR_ext_in.
  intros i Hi%elem_of_seq. unfold pred_of_record. rewrite Hsame by lia. done.
Qed.

(** X8. The degenerate batch sizes, for any batch and any classifier:
    [batch_size = 0] raises [ZeroDivisionError] (from [np.arange]); a
    negative [batch_size] gives no sub-batch at all, so [_call_mods]
    returns no prediction, accuracy 0 and [batch_num = 0] without calling
    the classifier, whatever the batch holds; and so does an empty batch
    with a non-zero [batch_size]. *)
Theorem call_mods_degenerate fb batch_size :
  (batch_size = 0 ->
   _call_mods prec emax py_round6 str_float code2base_dna accuracy_score
     np_mean model fb batch_size = Raise ZeroDivisionError)
  /\ (batch_size < 0 ->
      _call_mods prec emax py_round6 str_float code2base_dna accuracy_score
        np_mean model fb batch_size = Ok ([], S754_zero false, 0))
  /\ (sampleinfo fb = [] -> batch_size <> 0 ->
      _call_mods prec emax py_round6 str_float code2base_dna accuracy_score
        np_mean model fb batch_size = Ok ([], S754_zero false, 0)).
Proof.
  unfold _call_mods, call_mods_preds, Py.arange0. repeat split.
  - by intros ->.
  - intros Hneg. destruct (Z.eqb_spec batch_size 0); [lia|].
    by rewrite arange0_negative_step.
  - intros -> Hne. destruct (Z.eqb_spec batch_size 0); [lia|]. done.
Qed.

(** The outer loop counts the sub-batches it scores: while the starts lie
    inside the batch, every turn adds one to [batch_num] and one accuracy
    to [accuracys]. *)
Lemma call_mods_loop_count fb batch_size :
  0 < batch_size ->
  forall (c k : nat) (st st' : scorer_state),
    ((k + c) * Z.to_nat batch_size < length (sampleinfo fb) + Z.to_nat batch_size)%nat ->
    call_mods_loop' fb batch_size st
      ((fun m : nat => Z.of_nat m * batch_size) <$> seq k c) = Ok st' ->
    st'.2 = st.2 + Z.of_nat c
    /\ length st'.1.2 = (length st.1.2 + c)%nat.
Proof.
  intros Hbs c. induction c as [|c IH]; intros k st st' Hin Hloop; simpl in Hloop.
  - injection Hloop as <-. split; [lia|done].
  - destruct (call_mods_step' fb batch_size st (Z.of_nat k * batch_size))
      as [st1|] eqn:Hstep; simpl in Hloop; [|done].
    apply (IH (S k)) in Hloop as [Hn Hacc]; [|lia].
    destruct st as [[pred_str accuracys] batch_num].
    apply call_mods_step_inv in Hstep. simpl in Hstep.
    pose proof (sub_batch_length (sampleinfo fb) batch_size k Hbs) as Hsub.
    assert (k * Z.to_nat batch_size < length (sampleinfo fb))%nat as Hk by nia.
    destruct Hstep as [[Hnil ->]|(rows & predicted & acc & new & _ & _ & _ & ->)].
    + rewrite Hnil in Hsub. simpl in Hsub. lia.
    + simpl in *. rewrite length_app in Hacc. simpl in Hacc. lia.
Qed.

(** X9. For a positive [batch_size], the [batch_num] that [_call_mods]
    returns is the number of sub-batches, [ceil(n / batch_size)] for a
    batch of [n] records: the least number of sub-batches of at most
    [batch_size] records that cover the batch. *)
Theorem call_mods_batch_num fb batch_size lines accuracy batch_num :
  0 < batch_size ->
  _call_mods prec emax py_round6 str_float code2base_dna accuracy_score
    np_mean model fb batch_size = Ok (lines, accuracy, batch_num) ->
  let n := Z.of_nat (length (sampleinfo fb)) in
  batch_num = - (- n / batch_size)
  /\ (batch_num - 1) * batch_size < n <= batch_num * batch_size.
Proof.
  intros Hbs (pred_str & accuracys & Hpreds & _)%call_mods_lines n.
  unfold call_mods_preds, Py.arange0 in Hpreds.
  destruct (Z.eqb_spec batch_size 0); [lia|]. simpl in Hpreds.
  pose proof (Z.mul_div_le (- n) batch_size Hbs) as Hle.
  pose proof (Z.mul_succ_div_gt (- n) batch_size Hbs) as Hgt.
  fold n in Hpreds.
  apply (call_mods_loop_count fb batch_size Hbs _ 0%nat) in Hpreds as [Hn _].
  - simpl in Hn. rewrite Z2Nat.id in Hn by lia. split; [lia|]. rewrite Hn. lia.
  - apply Nat2Z.inj_lt.
    rewrite Nat2Z.inj_mul, Nat2Z.inj_add, !Z2Nat.id by lia. fold n. lia.
Qed.

End ScorerFurther.

(** ** The orchestrators from start to end *)

Lemma const_fmap_replicate {X Y} (y : Y) (l : list X) :
  (fun _ => y) <$> l = replicate (length l) y.
Proof. induction l as [|x l IH]; simpl; [done|]. by f_equal. Qed.

Lemma length_range (n : Z) : length (Py.range n) = Z.to_nat n.
Proof. apply length_seq. Qed.

Lemma start_n_trace (n : Z) (t : target) :
  start_n n t = (Start <$> replicate (Z.to_nat n) t, Ok tt).
Proof.
  unfold start_n. rewrite const_fmap_replicate, length_range.
  by rewrite fmap_replicate.
Qed.

(** How the loop that starts the scorers ends. *)
Lemma start_scorers_result gpulist gpuindex n :
  (gpuindex <= length gpulist)%nat ->
  (start_scorers gpulist gpuindex n).2
  = if decide (gpuindex + n <= length gpulist)%nat
    then Ok (take n (drop gpuindex gpulist)) else Raise IndexError.
Proof.
  intros Hin.
  destruct (decide _) as [Hle|Hgt]; [by apply start_scorers_snd|].
  revert gpuindex Hin Hgt.
  induction n as [|n IH]; intros gpuindex Hin Hgt; [lia|].
  simpl. unfold Py.index.
  destruct (gpulist !! gpuindex) as [d|] eqn:Hd; [|done].
  apply lookup_lt_Some in Hd.
  specialize (IH (S gpuindex) ltac:(lia) ltac:(lia)).
  destruct (start_scorers gpulist (S gpuindex) n) as [tr [ds|e]];
    simpl in *; by simplify_eq.
Qed.

Lemma start_scorers_run gpulist n :
  start_scorers gpulist 0 n
  = ((fun d => Start (T_call_mods_q d)) <$> take n gpulist,
     if decide (n <= length gpulist)%nat then Ok (take n gpulist)
     else Raise IndexError).
Proof.
  rewrite (surjective_pairing (start_scorers gpulist 0 n)).
  rewrite start_scorers_fst, start_scorers_result by lia.
  by rewrite drop_0.
Qed.

Lemma drain_and_join_run (n_readers : Z) (scorers : list target) :
  drain_and_join n_readers scorers
  = ([Drain_errornum]
     ++ (Join <$> replicate (Z.to_nat n_readers) T_read_features_fast5s_q)
     ++ [Put_kill features_batch_q] ++ (Join <$> scorers)
     ++ [Put_kill pred_str_q; Join T_write_predstr_to_file], Ok tt).
Proof.
  rewrite drain_and_join_trace. by rewrite const_fmap_replicate, length_range.
Qed.

(** The run of [_call_mods_from_fast5s_gpu]: all of [dir_run] when the
    device list is long enough for the scorers, and otherwise the starts
    of the readers and of the scorers that found a device. *)
Lemma gpu_run num_gpus a :
  let np := (pool_sizes_gpu a).1 in
  let g := Z.to_nat (pool_sizes_gpu a).2 in
  let r := Z.to_nat (np - (pool_sizes_gpu a).2 - 1) in
  let gpus := _get_gpus num_gpus in
  _call_mods_from_fast5s_gpu num_gpus a
  = if decide (g <= length gpus)%nat
    then (dir_run r (T_call_mods_q <$> take g gpus), Ok tt)
    else ([Put_kill fast5s_q]
          ++ (Start <$> replicate r T_read_features_fast5s_q)
          ++ (Start <$> (T_call_mods_q <$> take g gpus)), Raise IndexError).
Proof.
  intros np g r gpus. subst np g r gpus. unfold _call_mods_from_fast5s_gpu.
  destruct (pool_sizes_gpu a) as [np g]. cbn [fst snd].
  rewrite act_bind_emit, start_n_trace, act_bind_trace. cbn [fst snd].
  rewrite start_scorers_run.
  destruct (decide _) as [Hle|Hgt].
  - rewrite act_bind_trace, act_bind_emit, drain_and_join_run. cbn [fst snd].
    unfold dir_run. rewrite <- ?list_fmap_compose.
    by rewrite <- ?app_assoc.
  - rewrite act_bind_raise. cbn [fst snd].
    by rewrite <- ?list_fmap_compose.
Qed.

Lemma cpu_run cpu_n a :
  let np := (pool_sizes_cpu cpu_n a).1 in
  _call_mods_from_fast5s_cpu2 cpu_n a
  = (dir_run (Z.to_nat (np - cpu_n - 1))
             (replicate (Z.to_nat cpu_n) (T_call_mods_q 0)), Ok tt).
Proof.
  intros np. subst np. unfold _call_mods_from_fast5s_cpu2, pool_sizes_cpu.
  cbn [fst snd]. cbv zeta.
  rewrite act_bind_emit, !start_n_trace, !act_bind_trace. cbn [fst snd].
  rewrite act_bind_emit, drain_and_join_run. cbn [fst snd].
  rewrite const_fmap_replicate, length_range.
  unfold dir_run. by rewrite <- ?app_assoc.
Qed.

Lemma file_mode_run use_cuda num_gpus cpu_n a :
  let n := Z.to_nat (nproc_dp_of use_cuda cpu_n a) in
  let gpus := _get_gpus num_gpus in
  call_mods_from_file use_cuda num_gpus cpu_n a
  = if decide (n <= length gpus)%nat
    then (file_run (T_call_mods_q <$> take n gpus), Ok tt)
    else ([Start T_read_features_file]
          ++ (Start <$> (T_call_mods_q <$> take n gpus)), Raise IndexError).
Proof.
  intros n gpus. subst n gpus. unfold call_mods_from_file.
  rewrite act_bind_emit, start_scorers_run.
  destruct (decide _) as [Hle|Hgt].
  - rewrite act_bind_trace. cbn [fst snd]. unfold file_run, join_all.
    rewrite <- ?list_fmap_compose. simpl. by rewrite <- ?app_assoc.
  - rewrite act_bind_raise. cbn [fst snd]. by rewrite <- ?list_fmap_compose.
Qed.

(** ** What the orchestrators start and join *)

Lemma started_app tr1 tr2 : started (tr1 ++ tr2) = started tr1 ++ started tr2.
Proof. apply omap_app. Qed.

Lemma joined_app tr1 tr2 : joined (tr1 ++ tr2) = joined tr1 ++ joined tr2.
Proof. apply omap_app. Qed.

Lemma started_starts (ts : list target) : started (Start <$> ts) = ts.
Proof. induction ts as [|t ts IH]; [done|]. unfold started in *. simpl. by f_equal. Qed.

Lemma started_joins (ts : list target) : started (Join <$> ts) = [].
Proof. induction ts as [|t ts IH]; [done|]. exact IH. Qed.

Lemma joined_joins (ts : list target) : joined (Join <$> ts) = ts.
Proof. induction ts as [|t ts IH]; [done|]. unfold joined in *. simpl. by f_equal. Qed.

Lemma joined_starts (ts : list target) : joined (Start <$> ts) = [].
Proof. induction ts as [|t ts IH]; [done|]. exact IH. Qed.

Lemma started_dir_run r ss :
  started (dir_run r ss)
  = replicate r T_read_features_fast5s_q ++ ss ++ [T_write_predstr_to_file].
Proof.
  unfold dir_run. rewrite !started_app, !started_starts, !started_joins.
  simpl. by rewrite ?app_nil_r.
Qed.

Lemma joined_dir_run r ss :
  joined (dir_run r ss)
  = replicate r T_read_features_fast5s_q ++ ss ++ [T_write_predstr_to_file].
Proof.
  unfold dir_run. rewrite !joined_app, !joined_starts, !joined_joins.
  simpl. done.
Qed.

Lemma started_file_run ss :
  started (file_run ss) = T_read_features_file :: ss ++ [T_write_predstr_to_file].
Proof.
  unfold file_run. rewrite !started_app, !started_starts, !started_joins.
  simpl. by rewrite ?app_nil_r.
Qed.

Lemma joined_file_run ss :
  joined (file_run ss) = ss ++ [T_read_features_file; T_write_predstr_to_file].
Proof.
  unfold file_run. rewrite !joined_app, !joined_starts, !joined_joins.
  simpl. done.
Qed.

(** A run of [call_mods] is the run of one of the three orchestrators, or
    of nothing when a check or the preprocessing fails, after the removal
    of the success file if there is one; the test at the end finds none. *)
Lemma call_mods_shape
    (use_cuda : bool) (num_gpus cpu_n : Z)
    (path_exists path_isdir : string -> bool) (abspath : string -> string)
    (str_uuid1 : string) (set_start_method : result unit)
    (extract_preprocess : result Z) (a : args) :
  exists rm inner,
    (rm = [] \/ exists p, rm = [Remove p])
    /\ call_mods use_cuda num_gpus cpu_n path_exists path_isdir abspath
         str_uuid1 set_start_method extract_preprocess a
       = (rm ++ inner.1, inner.2)
    /\ ((inner.1 = [] /\ exists e, inner.2 = Raise e)
        \/ inner = _call_mods_from_fast5s_gpu num_gpus a
        \/ inner = _call_mods_from_fast5s_cpu2 cpu_n a
        \/ inner = call_mods_from_file use_cuda num_gpus cpu_n a).
Proof.
  unfold call_mods.
  destruct (if use_cuda then set_start_method else Ok tt) as [[]|e] eqn:Hs.
  2:{ exists [], ([], Raise e). simpl. eauto 10. }
  rewrite act_bind_lift_ok.
  destruct (validate_paths path_exists abspath a) as [paths|e] eqn:Hv.
  2:{ exists [], ([], Raise e). simpl. eauto 10. }
  rewrite act_bind_lift_ok. cbv zeta.
  set (sf := (_ ++ _)%string).
  set (inner := if path_isdir paths.2 then _ else _).
  assert ((inner.1 = [] /\ exists e, inner.2 = Raise e)
          \/ inner = _call_mods_from_fast5s_gpu num_gpus a
          \/ inner = _call_mods_from_fast5s_cpu2 cpu_n a
          \/ inner = call_mods_from_file use_cuda num_gpus cpu_n a) as Hinner.
  { subst inner. destruct (path_isdir paths.2); [|by eauto].
    destruct extract_preprocess as [n|e].
    - rewrite act_bind_lift_ok. destruct use_cuda; eauto.
    - left. simpl. eauto. }
  clearbody inner. unfold remove_if_exists.
  destruct (path_exists sf) eqn:Hsf.
  - exists [Remove sf], inner. split; [eauto|]. split; [|done].
    rewrite act_bind_assoc, act_bind_emit, act_bind_mret.
    destruct inner as [tr [[]|e]].
    + rewrite act_bind_trace, String.eqb_refl, act_bind_mret. simpl.
      by rewrite app_nil_r.
    + rewrite act_bind_raise. simpl. done.
  - exists [], inner. split; [eauto|]. split; [|done].
    rewrite act_bind_mret. destruct inner as [tr [[]|e]].
    + rewrite act_bind_trace, Hsf, act_bind_mret. simpl. by rewrite app_nil_r.
    + rewrite act_bind_raise. simpl. done.
Qed.

(** Membership in a trace written with [++], [::] and [<$>]. *)
Ltac trace_mem :=
  let H := fresh in
  intros H;
  repeat first
    [ apply elem_of_app in H as [H|H]
    | apply elem_of_cons in H as [H|H]
    | apply list_elem_of_fmap in H as (? & H & _)
    | apply elem_of_replicate in H as [H _]
    | apply elem_of_nil in H ];
  try done; try congruence.

Lemma removes_silent (rm : list event) :
  rm = [] \/ (exists p, rm = [Remove p]) ->
  started rm = [] /\ joined rm = [] /\ scorer_devices rm = []
  /\ forall q, Put_kill q ∉ rm.
Proof.
  intros [->|[p ->]]; repeat split; try done; intros q Hq.
  - by apply elem_of_nil in Hq.
  - by apply list_elem_of_singleton in Hq.
Qed.

Lemma filter_scorer_scorers (ds : list Z) :
  filter (fun t => is_scorer t) (T_call_mods_q <$> ds) = T_call_mods_q <$> ds.
Proof.
  induction ds as [|d ds IH]; [done|]. simpl.
  rewrite filter_cons_True by done. by f_equal.
Qed.

Lemma filter_scorer_readers (r : nat) :
  filter (fun t => is_scorer t) (replicate r T_read_features_fast5s_q) = [].
Proof.
  induction r as [|r IH]; [done|]. simpl.
  rewrite filter_cons_False; [done|]. simpl. tauto.
Qed.

Lemma filter_reader_scorers (ds : list Z) :
  filter (fun t => is_reader t) (T_call_mods_q <$> ds) = [].
Proof.
  induction ds as [|d ds IH]; [done|]. simpl.
  rewrite filter_cons_False; [done|]. simpl. tauto.
Qed.

Lemma filter_reader_readers (r : nat) :
  filter (fun t => is_reader t) (replicate r T_read_features_fast5s_q)
  = replicate r T_read_features_fast5s_q.
Proof.
  induction r as [|r IH]; [done|]. simpl.
  rewrite filter_cons_True by done. by f_equal.
Qed.

(** The three orchestrators, as the shapes of their runs. *)
Lemma orchestrator_runs use_cuda num_gpus cpu_n a (inner : act event unit) :
  inner = _call_mods_from_fast5s_gpu num_gpus a
  \/ inner = _call_mods_from_fast5s_cpu2 cpu_n a
  \/ inner = call_mods_from_file use_cuda num_gpus cpu_n a ->
  exists ds,
    Forall (fun d => 0 <= d < Z.max 1 num_gpus) ds
    /\ ((exists r, inner = (dir_run r (T_call_mods_q <$> ds), Ok tt))
        \/ inner = (file_run (T_call_mods_q <$> ds), Ok tt)
        \/ exists tr,
             inner = (tr ++ (Start <$> (T_call_mods_q <$> ds)), Raise IndexError)
             /\ joined tr = [] /\ scorer_devices tr = []
             /\ forall q, q <> fast5s_q -> Put_kill q ∉ tr).
Proof.
  assert (forall n, Forall (fun d => 0 <= d < Z.max 1 num_gpus)
                      (take n (_get_gpus num_gpus))) as Hdev.
  { intros n. rewrite take_get_gpus. apply Forall_fmap, Forall_forall.
    intros i _. unfold device_of.
    destruct (Z.ltb_spec 0 num_gpus); unfold compose; cbv beta; [|lia].
    pose proof (Z.mod_pos_bound (Z.of_nat i) num_gpus). lia. }
  intros [->|[->| ->]].
  - rewrite gpu_run. cbv zeta.
    eexists. split; [apply Hdev|].
    destruct (decide _); [left; eauto|].
    right. right. eexists ([Put_kill fast5s_q] ++ (Start <$> _)).
    split; [by rewrite <- app_assoc|].
    rewrite joined_app, joined_starts, scorer_devices_app, fmap_replicate.
    rewrite (scorer_devices_none (replicate _ _)) by by apply Forall_replicate.
    repeat split; try done. intros q Hq. trace_mem.
  - rewrite cpu_run. cbv zeta.
    exists (replicate (Z.to_nat cpu_n) 0). split.
    + apply Forall_replicate. lia.
    + left. rewrite fmap_replicate. eauto.
  - rewrite file_mode_run. cbv zeta.
    eexists. split; [apply Hdev|].
    destruct (decide _); [by eauto|].
    right. right. exists [Start T_read_features_file]. split; [done|].
    repeat split; try done. intros q Hq. trace_mem.
Qed.

(** X10. [call_mods] joins the processes it starts: when the run ends
    normally, every process started has been joined, once; when it ends
    with an exception, no process has been joined. *)
Theorem call_mods_joins_started
    (use_cuda : bool) (num_gpus cpu_n : Z)
    (path_exists path_isdir : string -> bool) (abspath : string -> string)
    (str_uuid1 : string) (set_start_method : result unit)
    (extract_preprocess : result Z) (a : args) :
  let run := call_mods use_cuda num_gpus cpu_n path_exists path_isdir abspath
               str_uuid1 set_start_method extract_preprocess a in
  match run.2 with
  | Ok _ => joined run.1 ≡ₚ started run.1
  | Raise _ => joined run.1 = []
  end.
Proof.
  intros run. subst run.
  destruct (call_mods_shape use_cuda num_gpus cpu_n path_exists path_isdir
              abspath str_uuid1 set_start_method extract_preprocess a)
    as (rm & inner & Hrm & -> & Hinner).
  apply removes_silent in Hrm as (Hs & Hj & _ & _). cbn [fst snd].
  destruct Hinner as [[Htr [e He]]|Hinner].
  { rewrite Htr, He. simpl. by rewrite app_nil_r. }
  apply orchestrator_runs in Hinner as (ds & _ & [[r ->]|[->|(tr & -> & Htr & _)]]);
    cbn [fst snd]; rewrite !joined_app, ?started_app, ?Hs, ?Hj, ?app_nil_r.
  - by rewrite joined_dir_run, started_dir_run.
  - rewrite joined_file_run, started_file_run. simpl.
    by rewrite <- Permutation_middle.
  - by rewrite Htr, joined_starts.
Qed.

Lemma scorer_devices_starts (ds : list Z) :
  scorer_devices (Start <$> (T_call_mods_q <$> ds)) = ds.
Proof. rewrite <- list_fmap_compose. apply scorer_devices_scorers. Qed.

Lemma scorer_devices_joins (ts : list target) : scorer_devices (Join <$> ts) = [].
Proof. induction ts as [|t ts IH]; [done|]. exact IH. Qed.

Lemma scorer_devices_readers (r : nat) :
  scorer_devices (Start <$> replicate r T_read_features_fast5s_q) = [].
Proof. induction r as [|r IH]; [done|]. exact IH. Qed.

Lemma scorer_devices_dir_run r ds :
  scorer_devices (dir_run r (T_call_mods_q <$> ds)) = ds.
Proof.
  unfold dir_run.
  rewrite !scorer_devices_app, scorer_devices_starts, !scorer_devices_joins,
    scorer_devices_readers.
  simpl. by rewrite app_nil_r.
Qed.

Lemma scorer_devices_file_run ds :
  scorer_devices (file_run (T_call_mods_q <$> ds)) = ds.
Proof.
  unfold file_run.
  rewrite !scorer_devices_app, scorer_devices_starts, !scorer_devices_joins.
  simpl. by rewrite app_nil_r.
Qed.

(** X11. [call_mods] puts the sentinel on [pred_str_q] once, when every
    scorer it started has been joined and before it joins the writer; a
    run that ends with an exception never puts it. *)
Theorem pred_sentinel_after_scorers
    (use_cuda : bool) (num_gpus cpu_n : Z)
    (path_exists path_isdir : string -> bool) (abspath : string -> string)
    (str_uuid1 : string) (set_start_method : result unit)
    (extract_preprocess : result Z) (a : args) :
  let run := call_mods use_cuda num_gpus cpu_n path_exists path_isdir abspath
               str_uuid1 set_start_method extract_preprocess a in
  match run.2 with
  | Ok _ =>
      exists pre post,
        run.1 = pre ++ Put_kill pred_str_q :: post
        /\ (Put_kill pred_str_q ∉ pre ++ post)
        /\ filter (fun t => is_scorer t) (joined pre)
           = filter (fun t => is_scorer t) (started run.1)
        /\ started post = []
        /\ (T_write_predstr_to_file ∉ joined pre)
        /\ T_write_predstr_to_file ∈ joined post
  | Raise _ => Put_kill pred_str_q ∉ run.1
  end.
Proof.
  intros run. subst run.
  destruct (call_mods_shape use_cuda num_gpus cpu_n path_exists path_isdir
              abspath str_uuid1 set_start_method extract_preprocess a)
    as (rm & inner & Hrm & -> & Hinner).
  apply removes_silent in Hrm as (Hs & Hj & _ & Hk). cbn [fst snd].
  destruct Hinner as [[Htr [e He]]|Hinner].
  { rewrite Htr, He. rewrite app_nil_r. apply Hk. }
  apply orchestrator_runs in Hinner
    as (ds & _ & [[r ->]|[->|(tr & -> & Htr & _ & Hq)]]); cbn [fst snd].
  - exists (rm ++ [Put_kill fast5s_q]
            ++ (Start <$> replicate r T_read_features_fast5s_q)
            ++ (Start <$> (T_call_mods_q <$> ds))
            ++ [Start T_write_predstr_to_file; Drain_errornum]
            ++ (Join <$> replicate r T_read_features_fast5s_q)
            ++ [Put_kill features_batch_q]
            ++ (Join <$> (T_call_mods_q <$> ds))),
           [Join T_write_predstr_to_file].
    split; [unfold dir_run; rewrite <- ?app_assoc; by simpl|].
    split.
    { intros H. apply elem_of_app in H as [H|H].
      - apply elem_of_app in H as [H|H]; [by apply Hk in H|]. revert H. trace_mem.
      - by apply list_elem_of_singleton in H. }
    rewrite !started_app, started_dir_run, !joined_app, !joined_starts,
      !joined_joins, !Hs, !Hj. simpl.
    rewrite !filter_app, !filter_scorer_readers, !filter_scorer_scorers. simpl.
    rewrite ?Hs, ?Hj. repeat split; try done.
    + rewrite filter_cons_False by (simpl; tauto).
      by rewrite filter_nil, !app_nil_r.
    + trace_mem.
    + by apply list_elem_of_singleton.
  - exists (rm ++ [Start T_read_features_file]
            ++ (Start <$> (T_call_mods_q <$> ds))
            ++ [Start T_write_predstr_to_file]
            ++ (Join <$> (T_call_mods_q <$> ds))),
           [Join T_read_features_file; Join T_write_predstr_to_file].
    split; [unfold file_run; rewrite <- ?app_assoc; by simpl|].
    split.
    { intros H. apply elem_of_app in H as [H|H].
      - apply elem_of_app in H as [H|H]; [by apply Hk in H|]. revert H. trace_mem.
      - revert H. trace_mem. }
    rewrite !started_app, started_file_run, !joined_app, !joined_starts,
      !joined_joins, !Hs, !Hj. simpl.
    rewrite ?app_nil_r, filter_scorer_scorers. repeat split; try done.
    + rewrite filter_cons_False by (simpl; tauto).
      rewrite filter_app, filter_scorer_scorers.
      rewrite filter_cons_False by (simpl; tauto).
      by rewrite filter_nil, app_nil_r.
    + trace_mem.
    + apply elem_of_cons. right. by apply list_elem_of_singleton.
  - intros H. apply elem_of_app in H as [H|H]; [by apply Hk in H|].
    apply elem_of_app in H as [H|H]; [by apply Hq in H|]. revert H. trace_mem.
Qed.

Lemma dir_run_feature_sentinel r ds :
  exists pre post,
    dir_run r (T_call_mods_q <$> ds) = pre ++ Put_kill features_batch_q :: post
    /\ (Put_kill features_batch_q ∉ pre ++ post)
    /\ joined pre
       = filter (fun t => is_reader t) (started (dir_run r (T_call_mods_q <$> ds)))
    /\ started post = []
    /\ Drain_errornum ∈ pre.
Proof.
  exists ([Put_kill fast5s_q]
          ++ (Start <$> replicate r T_read_features_fast5s_q)
          ++ (Start <$> (T_call_mods_q <$> ds))
          ++ [Start T_write_predstr_to_file; Drain_errornum]
          ++ (Join <$> replicate r T_read_features_fast5s_q)),
         ((Join <$> (T_call_mods_q <$> ds))
          ++ [Put_kill pred_str_q; Join T_write_predstr_to_file]).
  split; [unfold dir_run; rewrite <- ?app_assoc; by simpl|].
  split; [trace_mem|].
  rewrite started_dir_run, !joined_app, !joined_starts, joined_joins,
    started_app, started_joins.
  rewrite !filter_app, filter_reader_readers, filter_reader_scorers.
  rewrite filter_cons_False by (simpl; tauto). rewrite filter_nil.
  rewrite ?app_nil_r. repeat split; try done.
  rewrite !elem_of_app. right. right. right. left.
  apply elem_of_cons. right. by apply list_elem_of_singleton.
Qed.

(** X12. Over a directory, the orchestrator puts the sentinel on
    [features_batch_q] once, after it has drained the error counts and
    joined exactly the readers it started, and it starts nothing afterwards;
    a run that raises never puts it. Over a feature file the orchestrator
    never puts it: that is left to [_read_features_file]. *)
Theorem feature_sentinel_after_readers (use_cuda : bool) (num_gpus cpu_n : Z)
    (a : args) :
  let after_readers (run : act event unit) :=
    match run.2 with
    | Ok _ =>
        exists pre post,
          run.1 = pre ++ Put_kill features_batch_q :: post
          /\ (Put_kill features_batch_q ∉ pre ++ post)
          /\ joined pre = filter (fun t => is_reader t) (started run.1)
          /\ started post = []
          /\ Drain_errornum ∈ pre
    | Raise _ => Put_kill features_batch_q ∉ run.1
    end in
  after_readers (_call_mods_from_fast5s_gpu num_gpus a)
  /\ after_readers (_call_mods_from_fast5s_cpu2 cpu_n a)
  /\ (Put_kill features_batch_q ∉ (call_mods_from_file use_cuda num_gpus cpu_n a).1).
Proof.
  intros after_readers. subst after_readers. cbv beta. split; [|split].
  - rewrite gpu_run. cbv zeta. destruct (decide _); cbn [fst snd].
    + apply dir_run_feature_sentinel.
    + trace_mem.
  - rewrite cpu_run. cbv zeta. cbn [fst snd]. rewrite <- fmap_replicate.
    apply dir_run_feature_sentinel.
  - rewrite file_mode_run. cbv zeta. destruct (decide _); cbn [fst snd].
    + unfold file_run. trace_mem.
    + trace_mem.
Qed.

(** X13. The number of processes an orchestrator starts. Over a
    directory it is the corrected [nproc], which is never below the option
    given: readers, of which there is at least one, scorers and one writer.
    Over a feature file it is at most [max 3 nproc]. *)
Theorem process_budget (use_cuda : bool) (num_gpus cpu_n : Z) (a : args) :
  0 <= cpu_n ->
  let gpu := _call_mods_from_fast5s_gpu num_gpus a in
  let cpu := _call_mods_from_fast5s_cpu2 cpu_n a in
  let file := call_mods_from_file use_cuda num_gpus cpu_n a in
  (gpu.2 = Ok tt ->
   Z.of_nat (length (started gpu.1)) = (pool_sizes_gpu a).1)
  /\ Z.of_nat (length (started gpu.1)) <= (pool_sizes_gpu a).1
  /\ Z.of_nat (length (started cpu.1)) = (pool_sizes_cpu cpu_n a).1
  /\ Z.of_nat (length (started file.1)) <= Z.max 3 (nproc a)
  /\ nproc a <= (pool_sizes_gpu a).1
  /\ nproc a <= (pool_sizes_cpu cpu_n a).1
  /\ T_read_features_fast5s_q ∈ started gpu.1
  /\ T_read_features_fast5s_q ∈ started cpu.1.
Proof.
  intros Hcpu gpu cpu file. subst gpu cpu file.
  assert ((pool_sizes_gpu a).2 + 2 <= (pool_sizes_gpu a).1
          /\ 1 <= (pool_sizes_gpu a).2
          /\ nproc a <= (pool_sizes_gpu a).1) as (Hg1 & Hg2 & Hg3).
  { unfold pool_sizes_gpu. cbn [fst snd].
    destruct (Z.ltb_spec (nproc_gpu a) 1);
      match goal with |- context [?x <=? ?y] => destruct (Z.leb_spec x y) end;
      lia. }
  assert ((pool_sizes_cpu cpu_n a).1 - cpu_n - 1 >= 1
          /\ nproc a <= (pool_sizes_cpu cpu_n a).1) as (Hc1 & Hc2).
  { unfold pool_sizes_cpu. cbn [fst snd].
    match goal with |- context [?x <=? ?y] => destruct (Z.leb_spec x y) end;
      lia. }
  assert (nproc_dp_of use_cuda cpu_n a + 2 <= Z.max 3 (nproc a)) as Hf.
  { unfold nproc_dp_of. cbv zeta.
    assert ((if nproc a <? 3 then 3 else nproc a) = Z.max 3 (nproc a)) as Hn
      by (destruct (Z.ltb_spec (nproc a) 3); lia).
    rewrite !Hn.
    destruct use_cuda;
      repeat match goal with
             | |- context [?x <? ?y] => destruct (Z.ltb_spec x y); cbv iota
             end; lia. }
  rewrite gpu_run, cpu_run, file_mode_run. cbv zeta.
  set (pg := pool_sizes_gpu a) in *. clearbody pg.
  set (pc := pool_sizes_cpu cpu_n a) in *. clearbody pc.
  set (nd := nproc_dp_of use_cuda cpu_n a) in *. clearbody nd.
  repeat split.
  - destruct (decide _); [|done]. intros _. cbn [fst].
    rewrite started_dir_run, !length_app, length_replicate, length_fmap,
      length_take.
    simpl. lia.
  - destruct (decide _); cbn [fst].
    + rewrite started_dir_run, !length_app, length_replicate, length_fmap,
        length_take.
      simpl. lia.
    + rewrite !started_app, !started_starts, !length_app, length_replicate,
        length_fmap, length_take.
      simpl. lia.
  - cbn [fst].
    rewrite started_dir_run, !length_app, !length_replicate. simpl. lia.
  - destruct (decide _); cbn [fst].
    + rewrite started_file_run. cbn [length].
      rewrite length_app, length_fmap, length_take. simpl. lia.
    + rewrite started_app, started_starts, length_app, length_fmap, length_take.
      simpl. lia.
  - done.
  - done.
  - destruct (decide _); cbn [fst].
    + rewrite started_dir_run. apply elem_of_app. left.
      apply elem_of_replicate. split; [done|lia].
    + rewrite !started_app, !started_starts. apply elem_of_app. right.
      apply elem_of_app. left. apply elem_of_replicate. split; [done|lia].
  - cbn [fst]. rewrite started_dir_run. apply elem_of_app. left.
    apply elem_of_replicate. split; [done|lia].
Qed.

(** X14. Every device [call_mods] hands to a scorer is a device index
    from [0] up to, and without, the number of devices found (one when
    none is found), in every mode and also in a run that raises. *)
Theorem call_mods_devices_valid
    (use_cuda : bool) (num_gpus cpu_n : Z)
    (path_exists path_isdir : string -> bool) (abspath : string -> string)
    (str_uuid1 : string) (set_start_method : result unit)
    (extract_preprocess : result Z) (a : args) :
  let run := call_mods use_cuda num_gpus cpu_n path_exists path_isdir abspath
               str_uuid1 set_start_method extract_preprocess a in
  Forall (fun d => 0 <= d < Z.max 1 num_gpus) (scorer_devices run.1).
Proof.
  intros run. subst run.
  destruct (call_mods_shape use_cuda num_gpus cpu_n path_exists path_isdir
              abspath str_uuid1 set_start_method extract_preprocess a)
    as (rm & inner & Hrm & -> & Hinner).
  apply removes_silent in Hrm as (_ & _ & Hd & _). cbn [fst snd].
  rewrite !scorer_devices_app, Hd. simpl.
  destruct Hinner as [[-> _]|Hinner]; [done|].
  apply orchestrator_runs in Hinner
    as (ds & Hds & [[r ->]|[->|(tr & -> & _ & Htr & _)]]); cbn [fst].
  - by rewrite scorer_devices_dir_run.
  - by rewrite scorer_devices_file_run.
  - by rewrite scorer_devices_app, Htr, scorer_devices_starts.
Qed.

(** ** The scorer process *)

Lemma pred_puts_app tr1 tr2 : pred_puts (tr1 ++ tr2) = pred_puts tr1 ++ pred_puts tr2.
Proof. apply omap_app. Qed.

Lemma feature_puts_app tr1 tr2 :
  feature_puts (tr1 ++ tr2) = feature_puts tr1 ++ feature_puts tr2.
Proof. apply omap_app. Qed.

Lemma error_puts_app tr1 tr2 :
  error_puts (tr1 ++ tr2) = error_puts tr1 ++ error_puts tr2.
Proof. apply omap_app. Qed.

Section ScorerProcessProperties.

Variables prec emax : Z.
Variable py_round6 : spec_float -> spec_float.
Variable str_float : spec_float -> string.
Variable code2base_dna : Z -> option string.
Variable accuracy_score : list Z -> list Z -> result spec_float.
Variable np_mean : list spec_float -> spec_float.
Variable model :
  list (list Z) -> list (list spec_float) -> list (list spec_float) ->
  list (list Z) -> list (list (list spec_float)) ->
  result (list (list spec_float)).
Variable load_model : result unit.
Variable batch_size : Z.

Local Abbreviation _call_mods'' :=
  (_call_mods prec emax py_round6 str_float code2base_dna accuracy_score np_mean model).
Local Abbreviation call_mods_q_loop' :=
  (call_mods_q_loop prec emax py_round6 str_float code2base_dna accuracy_score
     np_mean model batch_size).
Local Abbreviation _call_mods_q' :=
  (_call_mods_q prec emax py_round6 str_float code2base_dna accuracy_score
     np_mean model load_model batch_size).

(** The lines of a batch carry the identifying fields of its records, in
    order. *)
Lemma call_mods_infos fb lines accuracy batch_num :
  0 < batch_size ->
  _call_mods'' fb batch_size = Ok (lines, accuracy, batch_num) ->
  exists preds,
    lines = pred_line str_float <$> preds /\ p_info <$> preds = sampleinfo fb.
Proof.
  intros Hbs (preds & accuracys & Hpreds & ->)%call_mods_lines.
  exists preds. split; [done|].
  apply call_mods_preds_inv in Hpreds as [Hlen Hsc]. specialize (Hlen Hbs).
  apply list_eq. intros i. rewrite list_lookup_fmap.
  destruct (preds !! i) as [p|] eqn:Hp; simpl.
  - destruct (Hsc i p Hp) as [_ Hat].
    apply scored_at_record in Hat as [Hinfo _]; done.
  - symmetry. apply lookup_ge_None. apply lookup_ge_None in Hp. lia.
Qed.

(** One turn of the loop on a batch. *)
Lemma call_mods_q_loop_item fb msgs accs bn :
  call_mods_q_loop' (Item fb :: msgs) accs bn
  = match _call_mods'' fb batch_size with
    | Ok (pred_str, accuracy, batch_num) =>
        let rest := call_mods_q_loop' msgs (accs ++ [accuracy]) (bn + batch_num) in
        (To_pred_str (Item pred_str) :: rest.1, rest.2)
    | Raise e => ([], Raise e)
    end.
Proof.
  cbn [call_mods_q_loop].
  destruct (_call_mods'' fb batch_size) as [[[pred_str accuracy] batch_num]|e].
  - rewrite act_bind_lift_ok. by rewrite act_bind_emit.
  - done.
Qed.

Lemma call_mods_q_loop_kill msgs accs bn :
  call_mods_q_loop' (Kill :: msgs) accs bn
  = ([To_features Kill], Ok (Some (accs, bn))).
Proof. reflexivity. Qed.

Lemma call_mods_q_loop_run batches rest : forall accs bn tr r,
  0 < batch_size ->
  call_mods_q_loop' ((Item <$> batches) ++ Kill :: rest) accs bn = (tr, Ok r) ->
  exists (outs : list (list pred)) accs' bn',
    tr = ((fun ps => To_pred_str (Item (pred_line str_float <$> ps))) <$> outs)
         ++ [To_features Kill]
    /\ r = Some (accs ++ accs', bn')
    /\ Forall2 (fun fb ps => p_info <$> ps = sampleinfo fb) batches outs
    /\ length accs' = length batches.
Proof.
  induction batches as [|fb batches IH]; intros accs bn tr r Hbs.
  - rewrite fmap_nil, app_nil_l, call_mods_q_loop_kill. intros [= <- <-].
    exists [], [], bn. by rewrite app_nil_r.
  - rewrite fmap_cons, <- app_comm_cons, call_mods_q_loop_item.
    destruct (_call_mods'' fb batch_size) as [[[pred_str accuracy] batch_num]|e]
      eqn:Hfb; [|done].
    cbv zeta.
    destruct (call_mods_q_loop' _ _ _) as [tr' [r'|e]] eqn:Hrest;
      cbn [fst snd]; [|done].
    intros [= <- <-].
    apply IH in Hrest as (outs & accs' & bn' & -> & -> & Houts & Hlen); [|done].
    apply call_mods_infos in Hfb as (preds & -> & Hinfo); [|done].
    exists (preds :: outs), (accuracy :: accs'), bn'.
    rewrite <- app_assoc. simpl. repeat split; try done.
    + by constructor.
    + by f_equal.
Qed.

(** X15. A scorer that gets the batches of its queue and then the
    sentinel, and ends normally, has put one list of lines per batch, in
    the order of the batches and each with the identifying fields of the
    records of its batch, in their order, and then has put the sentinel
    back on [features_batch_q]; it has put nothing else. *)
Theorem call_mods_q_conserves batches rest tr r :
  0 < batch_size ->
  _call_mods_q' ((Item <$> batches) ++ Kill :: rest) = (tr, Ok r) ->
  exists (outs : list (list pred)) accuracy_list batch_num_total,
    tr = ((fun ps => To_pred_str (Item (pred_line str_float <$> ps))) <$> outs)
         ++ [To_features Kill]
    /\ r = Some (accuracy_list, batch_num_total)
    /\ Forall2 (fun fb ps => p_info <$> ps = sampleinfo fb) batches outs
    /\ length accuracy_list = length batches.
Proof.
  intros Hbs. unfold _call_mods_q.
  destruct load_model as [[]|e]; [|done]. rewrite act_bind_lift_ok.
  intros (outs & accs' & bn' & -> & -> & Houts & Hlen)%call_mods_q_loop_run;
    [|done].
  by exists outs, accs', bn'.
Qed.

Lemma call_mods_q_loop_sentinel msgs : forall accs bn,
  let run := call_mods_q_loop' msgs accs bn in
  feature_puts run.1
  = match run.2 with Ok (Some _) => [Kill] | _ => [] end
  /\ error_puts run.1 = []
  /\ (forall m, To_fast5s m ∉ run.1)
  /\ match run.2 with
     | Ok (Some _) => Kill ∈ msgs
     | Ok None => Kill ∉ msgs
     | Raise _ => True
     end.
Proof.
  induction msgs as [|[fb|] msgs IH]; intros accs bn.
  - simpl. repeat split; try done. intros m H. by apply elem_of_nil in H.
    intros H. by apply elem_of_nil in H.
  - rewrite call_mods_q_loop_item.
    destruct (_call_mods'' fb batch_size) as [[[pred_str accuracy] batch_num]|e].
    + specialize (IH (accs ++ [accuracy]) (bn + batch_num)). cbv zeta in *.
      destruct IH as (Hf & He & Hq & Hk). cbn [fst snd].
      repeat split.
      * exact Hf.
      * exact He.
      * intros m H. apply elem_of_cons in H as [H|H]; [done|]. by apply Hq in H.
      * destruct (call_mods_q_loop' _ _ _).2 as [[?|]|]; [|  |done].
        -- by apply elem_of_cons; right.
        -- intros H. apply elem_of_cons in H as [H|H]; [done|]. by apply Hk.
    + cbv zeta. simpl. repeat split; try done. intros m H. by apply elem_of_nil in H.
  - cbv zeta. rewrite call_mods_q_loop_kill. cbn [fst snd].
    repeat split; try done.
    + intros m H. by apply list_elem_of_singleton in H.
    + by apply elem_of_cons; left.
Qed.

(** X16. A scorer puts the sentinel back on [features_batch_q] exactly
    when it returns, which it does only if the sentinel is among the
    messages it got; then the sentinel is its only put on that queue. A
    scorer that fails to load the model or dies on a batch puts no
    sentinel, and none puts anything on [fast5s_q] or [errornum_q]. *)
Theorem call_mods_q_sentinel msgs :
  let run := _call_mods_q' msgs in
  feature_puts run.1
  = match run.2 with Ok (Some _) => [Kill] | _ => [] end
  /\ error_puts run.1 = []
  /\ (forall m, To_fast5s m ∉ run.1)
  /\ match run.2 with
     | Ok (Some _) => Kill ∈ msgs
     | Ok None => Kill ∉ msgs
     | Raise _ => run.1 = [] \/ exists fb, Item fb ∈ msgs
     end.
Proof.
  intros run. subst run. unfold _call_mods_q.
  destruct load_model as [[]|e].
  - rewrite act_bind_lift_ok.
    destruct (call_mods_q_loop_sentinel msgs [] 0) as (Hf & He & Hq & Hk).
    repeat split; try done.
    destruct (call_mods_q_loop' msgs [] 0).2 as [[?|]|] eqn:Hr; try done.
    destruct msgs as [|[fb|] msgs].
    + done.
    + right. exists fb. by apply elem_of_cons; left.
    + by rewrite call_mods_q_loop_kill in Hr.
  - simpl. repeat split; try done; [|by left].
    intros m H. by apply elem_of_nil in H.
Qed.

End ScorerProcessProperties.

(** ** The writer process *)

Lemma endswith_refl (t : string) : endswith t t = true.
Proof. destruct t; simpl; by rewrite ?Ascii.eqb_refl, ?String.eqb_refl. Qed.

Lemma endswith_app (t suffix : string) : endswith (t ++ suffix) suffix = true.
Proof.
  induction t as [|c t IH]; [apply endswith_refl|].
  change (String c t ++ suffix)%string with (String c (t ++ suffix)%string).
  cbn [endswith]. rewrite IH. apply orb_true_r.
Qed.

(** [endswith] is what its name says. *)
Lemma endswith_spec (t suffix : string) :
  endswith t suffix = true <-> exists u, t = (u ++ suffix)%string.
Proof.
  split.
  - induction t as [|c t IH]; cbn [endswith].
    + rewrite orb_false_r. intros ->%String.eqb_eq. by exists ""%string.
    + intros [->%String.eqb_eq|[u ->]%IH]%orb_true_iff.
      * by exists ""%string.
      * by exists (String c u).
  - intros [u ->]. apply endswith_app.
Qed.

Lemma writes_app tr1 tr2 : writes (tr1 ++ tr2) = writes tr1 ++ writes tr2.
Proof. apply omap_app. Qed.

Lemma writes_write (ts : list string) : writes (File_write <$> ts) = ts.
Proof. induction ts as [|t ts IH]; [done|]. unfold writes in *. simpl. by f_equal. Qed.

(** The loop on messages without a sentinel: every line is written and
    flushed, and the loop does not end. *)
Lemma writer_loop_items (batches : list (list string)) :
  let run := writer_loop (Item <$> batches) in
  run.2 = false
  /\ Forall (fun ev => ev = File_flush \/ exists t, ev = File_write t) run.1
  /\ writes run.1 = (fun l => l ++ newline)%string <$> concat batches.
Proof.
  induction batches as [|b batches IH]; [by repeat split|].
  cbv zeta in *. rewrite fmap_cons. cbn [writer_loop fst snd].
  destruct IH as (Hr & Hev & Hw). repeat split; [done| |].
  - apply Forall_app. split.
    + apply Forall_fmap, Forall_forall. intros t _. right. by eexists.
    + constructor; [by left|done].
  - rewrite writes_app, writes_write. cbn [concat]. rewrite fmap_app.
    f_equal. exact Hw.
Qed.

(** What the loop does on messages without a sentinel: for each list, in
    the order of the queue, its lines and then one flush. *)
Lemma writer_loop_body (batches : list (list string)) :
  (writer_loop (Item <$> batches)).1
  = concat ((fun pred_str : list string =>
               (File_write <$> ((fun l => l ++ newline)%string <$> pred_str))
               ++ [File_flush]) <$> batches).
Proof.
  induction batches as [|b batches IH]; [done|].
  rewrite !fmap_cons. cbn [writer_loop fst concat]. rewrite IH.
  by rewrite <- app_assoc.
Qed.

(** The loop on messages with a sentinel adds the close to what it does on
    the messages before the sentinel, and returns. *)
Lemma writer_loop_kill (batches : list (list string)) rest :
  writer_loop ((Item <$> batches) ++ Kill :: rest)
  = ((writer_loop (Item <$> batches)).1 ++ [File_close], true).
Proof.
  induction batches as [|b batches IH]; [done|].
  rewrite fmap_cons, <- app_comm_cons. cbn [writer_loop fst snd].
  rewrite IH. cbn [fst snd]. by rewrite <- app_assoc.
Qed.

(** X17. The writer on the lists of lines of its queue, followed by the
    sentinel: it opens the file; then, for each list in the order of the
    queue, it writes every line of the list followed by a line feed and
    flushes once, after the last line of the list; it does nothing else
    to the file, closes it and returns; what follows the sentinel is not
    read. Without the sentinel the same is done and the file is never
    closed. *)
Theorem writer_output write_fp is_gzip (batches : list (list string))
    (rest : list (msg (list string))) :
  let run := _write_predstr_to_file write_fp ((Item <$> batches) ++ Kill :: rest)
               is_gzip in
  let waiting := _write_predstr_to_file write_fp (Item <$> batches) is_gzip in
  (exists path body,
     run = ((if is_gzip then Gzip_open path else Open path)
              :: body ++ [File_close], true)
     /\ waiting = ((if is_gzip then Gzip_open path else Open path) :: body, false)
     /\ body
        = concat ((fun pred_str : list string =>
                     (File_write <$> ((fun l => l ++ newline)%string <$> pred_str))
                     ++ [File_flush]) <$> batches)
     /\ Forall (fun ev => ev = File_flush \/ exists t, ev = File_write t) body
     /\ writes body = (fun l => l ++ newline)%string <$> concat batches)
  /\ writes run.1 = (fun l => l ++ newline)%string <$> concat batches
  /\ writes waiting.1 = (fun l => l ++ newline)%string <$> concat batches
  /\ (File_close ∉ waiting.1).
Proof.
  intros run waiting. subst run waiting. unfold _write_predstr_to_file.
  rewrite writer_loop_kill. cbn [fst snd].
  destruct (writer_loop_items batches) as (Hr & Hev & Hw). cbv zeta in *.
  set (body := (writer_loop (Item <$> batches)).1) in *.
  assert (File_close ∉ body) as Hclose.
  { intros H. rewrite Forall_forall in Hev. apply Hev in H as [H|[t H]]; done. }
  repeat split.
  - destruct is_gzip.
    + eexists _, body. repeat split; try done.
      * rewrite (surjective_pairing (writer_loop _)) at 1. by rewrite Hr.
      * apply writer_loop_body.
    + eexists write_fp, body. repeat split; try done.
      * rewrite (surjective_pairing (writer_loop _)) at 1. by rewrite Hr.
      * apply writer_loop_body.
  - destruct is_gzip; unfold writes in *; simpl;
      rewrite omap_app, Hw; simpl; by rewrite app_nil_r.
  - destruct is_gzip; unfold writes in *; simpl; exact Hw.
  - intros H. apply elem_of_cons in H as [H|H]; [by destruct is_gzip|done].
Qed.

(** X18. The path the writer opens. With [is_gzip] it ends in [.gz]: the
    path given when that ends in [.gz], and else the path given with
    [.gz] appended, which is a path the writer would leave as it is.
    Without [is_gzip] it is the path given, whatever its ending. *)
Theorem writer_path write_fp msgs :
  let gz := _write_predstr_to_file write_fp msgs true in
  let plain := _write_predstr_to_file write_fp msgs false in
  (exists path rest,
     gz.1 = Gzip_open path :: rest
     /\ endswith path ".gz" = true
     /\ (exists u, path = (u ++ ".gz")%string)
     /\ path = (if endswith write_fp ".gz" then write_fp
                else (write_fp ++ ".gz")%string)
     /\ opened_path (_write_predstr_to_file path msgs true).1 = Some path)
  /\ opened_path plain.1 = Some write_fp.
Proof.
  intros gz plain. subst gz plain. unfold _write_predstr_to_file.
  cbn [fst snd opened_path]. split; [|done].
  destruct (endswith write_fp ".gz") eqn:Hgz; cbn [negb].
  - eexists write_fp, _. repeat split; try done.
    + by apply endswith_spec.
    + by rewrite Hgz.
  - eexists (write_fp ++ ".gz")%string, _. repeat split.
    + apply endswith_app.
    + by eexists.
    + by rewrite endswith_app.
Qed.

(** ** The readers of fast5 files *)

Lemma mapR_Raise {X Y} (f : X -> result Y) (xs : list X) (e : exn) :
  mapR f xs = Raise e -> exists x, x ∈ xs /\ f x = Raise e.
Proof.
  induction xs as [|x xs IH]; simpl; [done|].
  destruct (f x) as [y|e'] eqn:Hx; simpl.
  - destruct (mapR f xs) as [ys|e'] eqn:Hxs; simpl; [done|].
    intros [= ->]. destruct (IH eq_refl) as (x' & Hin & Hx').
    exists x'. split; [by apply elem_of_cons; right|done].
  - intros [= ->]. exists x. split; [by apply elem_of_cons; left|done].
Qed.

Section Fast5ReaderProperties.

Variable base2code_dna : ascii -> option Z.
Variable _extract_features : list string -> result (list feature * Z).

Local Abbreviation sample_of_feature' := (sample_of_feature base2code_dna).
Local Abbreviation _read_features_from_fast5s' :=
  (_read_features_from_fast5s base2code_dna _extract_features).
Local Abbreviation read_features_fast5s_q_loop' :=
  (read_features_fast5s_q_loop base2code_dna _extract_features).
Local Abbreviation _read_features_fast5s_q' :=
  (_read_features_fast5s_q base2code_dna _extract_features).

Lemma sample_of_feature_inv f x :
  sample_of_feature' f = Ok x ->
  s_info x = Py.join Py.tab
               [f_chrom f; Py.str_int (f_pos f); f_alignstrand f;
                Py.str_int (f_loc_in_ref f); f_readname f; f_strand f]
  /\ mapR (Py.getitem base2code_dna) (list_ascii_of_string (f_k_mer f))
     = Ok (s_kmer x)
  /\ s_means x = f_signal_means f /\ s_stds x = f_signal_stds f
  /\ s_lens x = f_signal_lens f /\ s_signals x = f_kmer_base_signals f
  /\ s_label x = f_methy_label f.
Proof.
  unfold sample_of_feature.
  destruct (mapR _ (list_ascii_of_string _)) as [kmer|e]; simpl; [|done].
  by intros [= <-].
Qed.

Lemma batch_of_features features_list samples :
  Forall2 (fun f x => sample_of_feature' f = Ok x) features_list samples ->
  let fb := batch_of samples in
  sampleinfo fb
  = (fun f => Py.join Py.tab
                [f_chrom f; Py.str_int (f_pos f); f_alignstrand f;
                 Py.str_int (f_loc_in_ref f); f_readname f; f_strand f])
    <$> features_list
  /\ mapR (fun f => mapR (Py.getitem base2code_dna)
                        (list_ascii_of_string (f_k_mer f))) features_list
     = Ok (kmers fb)
  /\ base_means fb = f_signal_means <$> features_list
  /\ base_stds fb = f_signal_stds <$> features_list
  /\ base_signal_lens fb = f_signal_lens <$> features_list
  /\ k_signals fb = f_kmer_base_signals <$> features_list
  /\ labels fb = f_methy_label <$> features_list.
Proof.
  induction 1 as [|f x fl xs Hf _ IH]; [done|].
  apply sample_of_feature_inv in Hf as (H1 & H2 & H3 & H4 & H5 & H6 & H7).
  cbv zeta in *. destruct IH as (I1 & I2 & I3 & I4 & I5 & I6 & I7).
  unfold batch_of in *. cbn [sampleinfo kmers base_means base_stds
    base_signal_lens k_signals labels] in *.
  rewrite !fmap_cons. cbn [mapR]. rewrite H2, I2. simpl.
  by rewrite H1, H3, H4, H5, H6, H7, I1, I3, I4, I5, I6, I7.
Qed.

(** X19. [_read_features_from_fast5s] passes the error count of
    [_extract_features] on and returns one Feature Batch, whatever the
    number of features: its seven lists have one entry per feature, in the
    order of the features: the six identifying fields joined by tabs, the
    k-mer as codes, and the other fields as they are. For no features it
    is the empty batch. A base that is not a key of [base2code_dna] raises
    [KeyError]. *)
Theorem read_features_from_fast5s_one_batch fast5s :
  match _read_features_from_fast5s' fast5s with
  | Ok (features_batches, error) =>
      exists features_list fb,
        _extract_features fast5s = Ok (features_list, error)
        /\ features_batches = [fb]
        /\ balanced fb
        /\ sampleinfo fb
           = (fun f => Py.join Py.tab
                         [f_chrom f; Py.str_int (f_pos f); f_alignstrand f;
                          Py.str_int (f_loc_in_ref f); f_readname f; f_strand f])
             <$> features_list
        /\ mapR (fun f => mapR (Py.getitem base2code_dna)
                              (list_ascii_of_string (f_k_mer f))) features_list
           = Ok (kmers fb)
        /\ base_means fb = f_signal_means <$> features_list
        /\ base_stds fb = f_signal_stds <$> features_list
        /\ base_signal_lens fb = f_signal_lens <$> features_list
        /\ k_signals fb = f_kmer_base_signals <$> features_list
        /\ labels fb = f_methy_label <$> features_list
        /\ (features_list = [] -> fb = empty_batch)
  | Raise e =>
      _extract_features fast5s = Raise e
      \/ (e = KeyError
          /\ exists features_list error c,
               _extract_features fast5s = Ok (features_list, error)
               /\ (exists f, f ∈ features_list
                             /\ c ∈ list_ascii_of_string (f_k_mer f))
               /\ base2code_dna c = None)
  end.
Proof.
  unfold _read_features_from_fast5s.
  destruct (_extract_features fast5s) as [[features_list error]|e]; simpl;
    [|by left].
  destruct (mapR sample_of_feature' features_list) as [samples|e] eqn:Hs; simpl.
  - exists features_list, (batch_of samples).
    change empty_batch with (batch_of []). rewrite foldl_push_batch_of. simpl.
    apply mapR_Forall2 in Hs.
    destruct (batch_of_features _ _ Hs) as (I1 & I2 & I3 & I4 & I5 & I6 & I7).
    split; [done|]. split; [done|]. split; [apply balanced_batch_of|].
    do 7 (split; [done|]).
    intros ->. by inversion Hs.
  - right. apply mapR_Raise in Hs as (f & Hf & Hs).
    unfold sample_of_feature in Hs.
    destruct (mapR _ (list_ascii_of_string (f_k_mer f))) as [kmer|e'] eqn:Hk;
      simpl in Hs; [done|].
    injection Hs as ->. apply mapR_Raise in Hk as (c & Hc & Hk).
    unfold Py.getitem in Hk. destruct (base2code_dna c) eqn:Hn; [done|].
    injection Hk as <-. split; [done|].
    exists features_list, error, c. split; [done|]. split; [|done]. by exists f.
Qed.

Lemma read_features_from_fast5s_single fast5s features_batches error :
  _read_features_from_fast5s' fast5s = Ok (features_batches, error) ->
  exists fb, features_batches = [fb].
Proof.
  unfold _read_features_from_fast5s.
  destruct (_extract_features fast5s) as [[features_list error']|e]; simpl;
    [|done].
  destruct (mapR sample_of_feature' features_list) as [samples|e]; simpl; [|done].
  intros [= <- <-]. by eexists.
Qed.

Lemma read_features_fast5s_q_loop_kill msgs f5_num :
  read_features_fast5s_q_loop' (Kill :: msgs) f5_num
  = ([To_fast5s Kill], Ok (Some f5_num)).
Proof. reflexivity. Qed.

Lemma read_features_fast5s_q_loop_item fast5s msgs f5_num :
  read_features_fast5s_q_loop' (Item fast5s :: msgs) f5_num
  = match _read_features_from_fast5s' fast5s with
    | Ok (features_batches, error) =>
        let rest := read_features_fast5s_q_loop' msgs
                      (f5_num + Z.of_nat (length fast5s)) in
        (To_errornum error
           :: ((fun fb => To_features (Item fb)) <$> features_batches) ++ rest.1,
         rest.2)
    | Raise e => ([], Raise e)
    end.
Proof.
  cbn [read_features_fast5s_q_loop]. cbv zeta.
  destruct (_read_features_from_fast5s' fast5s) as [[features_batches error]|e].
  - rewrite act_bind_lift_ok. by rewrite act_bind_emit, act_bind_trace.
  - done.
Qed.

Lemma read_features_fast5s_q_loop_run groups rest : forall f5_num tr r,
  read_features_fast5s_q_loop' ((Item <$> groups) ++ Kill :: rest) f5_num
  = (tr, Ok r) ->
  exists results : list (features_batch * Z),
    Forall2 (fun fast5s res =>
               _read_features_from_fast5s' fast5s = Ok ([res.1], res.2))
            groups results
    /\ tr = concat ((fun res => [To_errornum res.2; To_features (Item res.1)])
                    <$> results) ++ [To_fast5s Kill]
    /\ r = Some (f5_num + Z.of_nat (length (concat groups))).
Proof.
  induction groups as [|g groups IH]; intros f5_num tr r.
  - rewrite fmap_nil, app_nil_l, read_features_fast5s_q_loop_kill.
    intros [= <- <-]. exists []. repeat split; [constructor|].
    simpl. do 2 f_equal. lia.
  - rewrite fmap_cons, <- app_comm_cons, read_features_fast5s_q_loop_item.
    destruct (_read_features_from_fast5s' g) as [[features_batches error]|e]
      eqn:Hg; [|done].
    destruct (read_features_from_fast5s_single _ _ _ Hg) as [fb ->]. cbv zeta.
    destruct (read_features_fast5s_q_loop' _ _) as [tr' [r'|e]] eqn:Hrest;
      cbn [fst snd]; [|done].
    intros [= <- <-].
    apply IH in Hrest as (results & Hres & -> & ->).
    exists ((fb, error) :: results). repeat split.
    + by constructor.
    + cbn [concat]. rewrite length_app. f_equal. lia.
Qed.

(** X20. A reader of fast5 files that gets the groups of files of its
    queue and then the sentinel, and ends normally: for each group, in
    the order of the queue, it has put the error count of the group on
    [errornum_q] and then the one Feature Batch of the group on
    [features_batch_q]; then it has put the sentinel back on [fast5s_q],
    and [f5_num] counts the files of all groups. It puts no sentinel on
    [features_batch_q]. *)
Theorem read_features_fast5s_q_run groups rest tr r :
  _read_features_fast5s_q' ((Item <$> groups) ++ Kill :: rest) = (tr, Ok r) ->
  exists results : list (features_batch * Z),
    Forall2 (fun fast5s res =>
               _read_features_from_fast5s' fast5s = Ok ([res.1], res.2))
            groups results
    /\ tr = concat ((fun res => [To_errornum res.2; To_features (Item res.1)])
                    <$> results) ++ [To_fast5s Kill]
    /\ r = Some (Z.of_nat (length (concat groups)))
    /\ feature_puts tr = Item <$> results.*1
    /\ error_puts tr = results.*2.
Proof.
  unfold _read_features_fast5s_q.
  intros (results & Hres & -> & ->)%read_features_fast5s_q_loop_run.
  exists results. repeat split; try done.
  - rewrite feature_puts_app. simpl. rewrite app_nil_r. clear.
    induction results as [|res results IH]; [done|].
    rewrite !fmap_cons. cbn [concat]. rewrite feature_puts_app, IH. done.
  - rewrite error_puts_app. simpl. rewrite app_nil_r. clear.
    induction results as [|res results IH]; [done|].
    rewrite !fmap_cons. cbn [concat]. rewrite error_puts_app, IH. done.
Qed.

End Fast5ReaderProperties.

(** ** The two worker loops on a shared queue *)





(** ** Sentinel fan-out *)


(** The scorer that takes [ex_bad_batch] is ended by [KeyError]; the
    other scorer leaves its loop, and the pool cannot move any more: one
    of the two scorers has not met the sentinel. *)
Lemma sentinel_fan_out_raised :
  _call_mods 24 128 (fun x => x) ex_str_float ex_code2base_dna
    ex_accuracy_score ex_np_mean ex_model ex_bad_batch 2 = Raise KeyError
  /\ _call_mods_q_run 24 128 (fun x => x) ex_str_float ex_code2base_dna
       ex_accuracy_score ex_np_mean ex_model 2 ex_schedule_raised
       (pool_init [ex_bad_batch; ex_batch] 2) = Some ex_pool_raised
  /\ (forall i,
        _call_mods_q_step 24 128 (fun x => x) ex_str_float ex_code2base_dna
          ex_accuracy_score ex_np_mean ex_model 2 i ex_pool_raised = None)
  /\ p_workers ex_pool_raised = [Worker Raised 0 0; Worker Exited 1 1]
  /\ ~ Forall (fun w => w_pc w = Exited /\ w_seen w = 1%nat
                        /\ w_reposted w = 1%nat)
              (p_workers ex_pool_raised)
  /\ _call_mods_q 24 128 (fun x => x) ex_str_float ex_code2base_dna
       ex_accuracy_score ex_np_mean ex_model (Ok tt) 2
       [Item ex_bad_batch; Kill] = ([], Raise KeyError).
Proof.
  split; [vm_compute; reflexivity|]. split; [vm_compute; reflexivity|].
  split; [by intros [|[|i]]|]. split; [reflexivity|].
  split; [|vm_compute; reflexivity].
  intros Hall. apply Forall_cons in Hall as [[Hpc _] _]. discriminate Hpc.
Qed.

(** ** The stages in a row *)

Lemma sampleinfo_flush_groups (gs : list (list (list (string * sample)))) :
  concat (sampleinfo <$> ((fun g => batch_of (snd <$> concat g)) <$> gs))
  = (fun rec => s_info rec.2) <$> concat (concat gs).
Proof.
  induction gs as [|g gs IH]; [done|].
  rewrite !fmap_cons. cbn [concat]. rewrite IH, concat_app, fmap_app.
  f_equal. unfold batch_of. cbn [sampleinfo]. by rewrite <- list_fmap_compose.
Qed.

Lemma pred_puts_preds {X} (f : X -> string) (outs : list (list X)) :
  pred_puts ((fun ps : list X => To_pred_str (Item (f <$> ps))) <$> outs)
  = Item <$> ((fun ps : list X => f <$> ps) <$> outs).
Proof.
  induction outs as [|o outs IH]; [done|]. unfold pred_puts in *. simpl.
  by f_equal.
Qed.

Lemma fmap_concat_infos (batches : list features_batch) (outs : list (list pred)) :
  Forall2 (fun fb ps => p_info <$> ps = sampleinfo fb) batches outs ->
  p_info <$> concat outs = concat (sampleinfo <$> batches).
Proof.
  induction 1 as [|fb ps batches outs Hfb _ IH]; [done|].
  rewrite fmap_cons. cbn [concat]. by rewrite fmap_app, Hfb, IH.
Qed.

Section PipelineProperties.

Variable py_strip : string -> string.
Variable base2code_dna : ascii -> option Z.
Variable py_float : string -> option spec_float.
Variable py_int : string -> option Z.
Variables prec emax : Z.
Variable py_round6 : spec_float -> spec_float.
Variable str_float : spec_float -> string.
Variable code2base_dna : Z -> option string.
Variable accuracy_score : list Z -> list Z -> result spec_float.
Variable np_mean : list spec_float -> spec_float.
Variable model :
  list (list Z) -> list (list spec_float) -> list (list spec_float) ->
  list (list Z) -> list (list (list spec_float)) ->
  result (list (list spec_float)).
Variable load_model : result unit.
Variable batch_size : Z.
Variable _extract_features : list string -> result (list feature * Z).

Local Abbreviation parse_line' := (parse_line py_strip base2code_dna py_float py_int).
Local Abbreviation _read_features_file' :=
  (_read_features_file py_strip base2code_dna py_float py_int).
Local Abbreviation _call_mods_q' :=
  (_call_mods_q prec emax py_round6 str_float code2base_dna accuracy_score
     np_mean model load_model batch_size).
Local Abbreviation _read_features_fast5s_q' :=
  (_read_features_fast5s_q base2code_dna _extract_features).

(** The run of the reader of a feature file whose lines parse. *)
Lemma read_features_file_run F lines recs :
  1 <= F -> lines <> [] ->
  mapR parse_line' lines = Ok recs ->
  exists batches report,
    _read_features_file' lines F = ((Item <$> batches) ++ [Kill], Ok report)
    /\ concat (sampleinfo <$> batches) = (fun rec => s_info rec.2) <$> recs.
Proof.
  intros HF Hne Hparse.
  destruct (chunks_spec (Z.to_nat F) (runs recs)) as (Hcat & _); [lia|].
  destruct lines as [|line lines]; [done|]. simpl in Hparse.
  destruct (parse_line' line) as [[readid x]|] eqn:Hline; simpl in Hparse; [|done].
  destruct (mapR parse_line' lines) as [recs'|] eqn:Hlines; simpl in Hparse; [|done].
  injection Hparse as <-.
  apply parse_line_inv in Hline as [Hid Hx].
  unfold _read_features_file.
  rewrite Hid, act_bind_lift_ok, Hx, act_bind_lift_ok.
  pose proof (reader_loop_flush_law py_strip base2code_dna py_float py_int
                F HF lines recs' [(readid, x)] (readid, x)
                0 0 Hlines eq_refl ltac:(lia)) as Hloop.
  rewrite Z.mod_0_l in Hloop by lia.
  specialize (Hloop eq_refl). cbn [fst] in Hloop.
  change (push_sample empty_batch x) with (batch_of (snd <$> [(readid, x)])).
  rewrite Hloop. eexists _, _. split; [done|].
  unfold flush_law_batches.
  change ([(readid, x)] ++ recs') with ((readid, x) :: recs') in *.
  by rewrite sampleinfo_flush_groups, Hcat, concat_runs.
Qed.

(** A scorer followed by the writer. *)
Lemma score_and_write batches tr r write_fp is_gzip :
  0 < batch_size ->
  _call_mods_q' ((Item <$> batches) ++ [Kill]) = (tr, Ok r) ->
  let writer := _write_predstr_to_file write_fp (pred_puts tr ++ [Kill]) is_gzip in
  writer.2 = true
  /\ (exists stats, r = Some stats)
  /\ feature_puts tr = [Kill]
  /\ exists preds,
       writes writer.1 = (fun p => pred_line str_float p ++ newline)%string <$> preds
       /\ p_info <$> preds = concat (sampleinfo <$> batches).
Proof.
  intros Hbs. unfold _call_mods_q.
  destruct load_model as [[]|e]; [|done]. rewrite act_bind_lift_ok.
  intros (outs & accs' & bn' & -> & -> & Houts & Hlen)%call_mods_q_loop_run;
    [|done].
  unfold _write_predstr_to_file.
  rewrite pred_puts_app, feature_puts_app.
  rewrite pred_puts_preds. cbn [pred_puts omap app]. rewrite app_nil_r.
  rewrite writer_loop_kill. cbn [fst snd].
  destruct (writer_loop_items
              ((fun ps : list pred => pred_line str_float <$> ps) <$> outs))
    as (_ & _ & Hw). cbv zeta in Hw.
  split; [done|]. split; [by eexists|]. split.
  { clear. induction outs as [|o outs IH]; [done|]. exact IH. }
  exists (concat outs). split.
  - assert (forall ev tr', writes (ev :: tr' ++ [File_close]) = writes (ev :: tr'))
      as Hclose.
    { intros ev tr'. change (ev :: tr' ++ [File_close])
        with ((ev :: tr') ++ [File_close]).
      rewrite writes_app. simpl. by rewrite app_nil_r. }
    rewrite Hclose.
    assert (forall tr', writes ((if is_gzip
              then Gzip_open (if negb (endswith write_fp ".gz")
                              then (write_fp ++ ".gz")%string else write_fp)
              else Open write_fp) :: tr') = writes tr') as Hopen
      by (intros tr'; by destruct is_gzip).
    rewrite Hopen, Hw.
    clear. induction outs as [|o outs IH]; [done|].
    rewrite fmap_cons. cbn [concat]. rewrite !fmap_app, IH.
    by rewrite <- list_fmap_compose.
  - by apply fmap_concat_infos.
Qed.

(** X21. A feature file through the three stages, with one scorer: the
    reader puts its batches and the sentinel, the scorer gets them in that
    order, the writer gets what the scorer put and then the sentinel of
    the orchestrator. When the lines parse and the scorer ends normally,
    the writer returns and the result file holds one line per line of the
    feature file, in the order of the feature file, each one starting
    with the six identifying fields of its line. *)
Theorem file_pipeline lines recs F write_fp is_gzip r :
  1 <= F -> 0 < batch_size -> lines <> [] ->
  mapR parse_line' lines = Ok recs ->
  let reader := _read_features_file' lines F in
  let scorer := _call_mods_q' reader.1 in
  scorer.2 = Ok r ->
  let writer := _write_predstr_to_file write_fp (pred_puts scorer.1 ++ [Kill])
                  is_gzip in
  writer.2 = true
  /\ (exists stats, r = Some stats)
  /\ feature_puts scorer.1 = [Kill]
  /\ length (writes writer.1) = length lines
  /\ exists preds,
       writes writer.1 = (fun p => pred_line str_float p ++ newline)%string <$> preds
       /\ p_info <$> preds = (fun rec => s_info rec.2) <$> recs.
Proof.
  intros HF Hbs Hne Hparse reader scorer Hr writer.
  destruct (read_features_file_run F lines recs HF Hne Hparse)
    as (batches & report & Hrd & Hinfos).
  subst writer scorer reader. rewrite Hrd in *. cbn [fst] in *.
  destruct (_call_mods_q' _) as [tr r'] eqn:Hsc. cbn [snd fst] in *. subst r'.
  destruct (score_and_write batches tr r write_fp is_gzip Hbs Hsc)
    as (Hw & Hret & Hk & preds & Hwr & Hp).
  split; [done|]. split; [done|]. split; [done|]. split.
  - rewrite Hwr, length_fmap.
    rewrite <- (length_fmap p_info), Hp, Hinfos, length_fmap.
    by apply mapR_length in Hparse.
  - exists preds. split; [done|]. by rewrite Hp.
Qed.

(** X22. A directory through the four stages, with one reader and one
    scorer: the reader gets the groups of fast5 files and the sentinel of
    the orchestrator, the scorer what the reader put on
    [features_batch_q] and then the sentinel of the orchestrator, the
    writer what the scorer put and the sentinel. When reader and scorer
    end normally, the writer returns and the result file holds one line
    per feature extracted, in the order of the groups and of the features
    of a group; a group without features adds no line. *)
Theorem fast5_pipeline groups write_fp is_gzip r1 r2 :
  0 < batch_size ->
  let reader := _read_features_fast5s_q' ((Item <$> groups) ++ [Kill]) in
  reader.2 = Ok r1 ->
  let scorer := _call_mods_q' (feature_puts reader.1 ++ [Kill]) in
  scorer.2 = Ok r2 ->
  let writer := _write_predstr_to_file write_fp (pred_puts scorer.1 ++ [Kill])
                  is_gzip in
  writer.2 = true
  /\ r1 = Some (Z.of_nat (length (concat groups)))
  /\ exists (extracted : list (list feature * Z)) preds,
       Forall2 (fun fast5s res => _extract_features fast5s = Ok res)
               groups extracted
       /\ error_puts reader.1 = extracted.*2
       /\ writes writer.1
          = (fun p => pred_line str_float p ++ newline)%string <$> preds
       /\ p_info <$> preds
          = (fun f => Py.join Py.tab
                        [f_chrom f; Py.str_int (f_pos f); f_alignstrand f;
                         Py.str_int (f_loc_in_ref f); f_readname f; f_strand f])
            <$> concat extracted.*1.
Proof.
  intros Hbs reader Hr1 scorer Hr2 writer. subst writer scorer reader.
  destruct (_read_features_fast5s_q' _) as [tr1 r1'] eqn:Hrd.
  cbn [fst snd] in *. subst r1'. unfold _read_features_fast5s_q in Hrd.
  apply read_features_fast5s_q_loop_run in Hrd as (results & Hres & -> & ->).
  assert (feature_puts
            (concat ((fun res : features_batch * Z =>
                        [To_errornum res.2; To_features (Item res.1)]) <$> results)
             ++ [To_fast5s Kill]) = Item <$> results.*1) as Hfp.
  { rewrite feature_puts_app. simpl. rewrite app_nil_r. clear.
    induction results as [|res results IH]; [done|].
    rewrite !fmap_cons. cbn [concat]. by rewrite feature_puts_app, IH. }
  assert (error_puts
            (concat ((fun res : features_batch * Z =>
                        [To_errornum res.2; To_features (Item res.1)]) <$> results)
             ++ [To_fast5s Kill]) = results.*2) as Hep.
  { rewrite error_puts_app. simpl. rewrite app_nil_r. clear.
    induction results as [|res results IH]; [done|].
    rewrite !fmap_cons. cbn [concat]. by rewrite error_puts_app, IH. }
  rewrite Hfp in *. rewrite Hep.
  destruct (_call_mods_q' _) as [tr2 r2'] eqn:Hsc. cbn [fst snd] in *. subst r2'.
  destruct (score_and_write results.*1 tr2 r2 write_fp is_gzip Hbs Hsc)
    as (Hw & _ & _ & preds & Hwr & Hp).
  split; [done|]. split; [f_equal; lia|].
  assert (exists extracted : list (list feature * Z),
            Forall2 (fun fast5s res => _extract_features fast5s = Ok res)
                    groups extracted
            /\ results.*2 = extracted.*2
            /\ concat (sampleinfo <$> results.*1)
               = (fun f => Py.join Py.tab
                             [f_chrom f; Py.str_int (f_pos f); f_alignstrand f;
                              Py.str_int (f_loc_in_ref f); f_readname f;
                              f_strand f])
                 <$> concat extracted.*1) as (extracted & Hex & He & Hinfo).
  { clear -Hres. induction Hres as [|g res groups results Hg _ IH].
    - exists []. by repeat split; [constructor|..].
    - destruct IH as (extracted & Hex & He & Hinfo).
      unfold _read_features_from_fast5s in Hg.
      destruct (_extract_features g) as [[fl error]|e] eqn:Hext; simpl in Hg;
        [|done].
      destruct (mapR (sample_of_feature base2code_dna) fl) as [samples|e] eqn:Hs;
        simpl in Hg; [|done].
      injection Hg as Hfb Herr.
      change empty_batch with (batch_of []) in Hfb.
      rewrite foldl_push_batch_of in Hfb. simpl in Hfb.
      apply mapR_Forall2 in Hs.
      destruct (batch_of_features base2code_dna _ _ Hs) as (I1 & _).
      exists ((fl, error) :: extracted). split; [by constructor|].
      rewrite !fmap_cons. cbn [concat fst snd]. split.
      + by rewrite Herr, He.
      + by rewrite <- Hfb, I1, Hinfo, fmap_app. }
  exists extracted, preds. split; [done|]. split; [done|]. split; [done|].
  by rewrite Hp.
Qed.

End PipelineProperties.
(** ** The fields of an output line *)

(** A decimal numeral holds no tab. *)
Lemma has_char_string_of_uint (d : Decimal.uint) :
  has_char "009" (NilEmpty.string_of_uint d) = false.
Proof. induction d; simpl; done. Qed.

Lemma has_char_str_int (n : Z) : has_char "009" (Py.str_int n) = false.
Proof.
  unfold Py.str_int, NilZero.string_of_int.
  destruct (Z.to_int n) as [d|d].
  - unfold NilZero.string_of_uint. destruct d; try apply has_char_string_of_uint.
    done.
  - cbn [has_char]. simpl. unfold NilZero.string_of_uint.
    destruct d; try apply has_char_string_of_uint. done.
Qed.

Lemma string_app_assoc (t u v : string) :
  ((t ++ u) ++ v = t ++ (u ++ v))%string.
Proof.
  induction t as [|x t IH]; [done|].
  change (String x ((t ++ u) ++ v)%string = String x (t ++ (u ++ v))%string).
  by f_equal.
Qed.

(** Joining a join with further words joins all the words. *)
Lemma join_join (sep : string) (ws rest : list string) :
  ws <> [] -> rest <> [] ->
  Py.join sep (Py.join sep ws :: rest) = Py.join sep (ws ++ rest).
Proof.
  intros Hws Hrest. unfold Py.join.
  destruct rest as [|r rest]; [done|].
  induction ws as [|w ws IH]; [done|].
  destruct ws as [|w' ws].
  - done.
  - change (String.concat sep ((w :: w' :: ws) ++ r :: rest))
      with (w ++ sep ++ String.concat sep ((w' :: ws) ++ r :: rest))%string.
    rewrite <- IH by done.
    change (String.concat sep (w :: w' :: ws))
      with (w ++ sep ++ String.concat sep (w' :: ws))%string.
    cbn [String.concat].
    by rewrite !string_app_assoc.
Qed.

(** X23. An output line splits on tabs into the identifying fields of
    its record followed by [prob_0], [prob_1], the called label and the
    k-mer window, provided none of these texts holds a tab: ten fields for
    the six identifying fields of a record. The label, a decimal numeral,
    never holds one. *)
Theorem pred_line_fields (str_float : spec_float -> string) (p : pred)
    (words : list string) :
  words <> [] ->
  Forall (fun w => has_char "009" w = false) words ->
  p_info p = Py.join Py.tab words ->
  has_char "009" (str_float (p_prob0 p)) = false ->
  has_char "009" (str_float (p_prob1 p)) = false ->
  has_char "009" (p_seq p) = false ->
  Py.split "009" (pred_line str_float p)
  = words ++ [str_float (p_prob0 p); str_float (p_prob1 p);
              Py.str_int (p_label p); p_seq p]
  /\ length (Py.split "009" (pred_line str_float p)) = (length words + 4)%nat.
Proof.
  intros Hne Hwords Hinfo H0 H1 Hseq.
  assert (Py.split "009" (pred_line str_float p)
          = words ++ [str_float (p_prob0 p); str_float (p_prob1 p);
                      Py.str_int (p_label p); p_seq p]) as Hsplit.
  { unfold pred_line. rewrite Hinfo. unfold Py.tab.
    rewrite join_join by done. apply split_join.
    - by destruct words.
    - apply Forall_app. split; [done|].
      repeat constructor; try done. apply has_char_str_int. }
  split; [done|]. rewrite Hsplit, length_app. done.
Qed.

(** ** The further properties on concrete inputs *)

Lemma reader_batches_good_witness :
  Item (batch_of (snd <$> take 3 ex_records))
    ∈ (_read_features_file (fun t => t) ex_base2code_dna ex_float ex_int
         ex_file 2).1
  /\ balanced (batch_of (snd <$> take 3 ex_records))
  /\ sampleinfo (batch_of (snd <$> take 3 ex_records)) <> [].
Proof.
  assert (Item (batch_of (snd <$> take 3 ex_records))
            ∈ (_read_features_file (fun t => t) ex_base2code_dna ex_float ex_int
                 ex_file 2).1) as Hin.
  { vm_compute. constructor. }
  split; [exact Hin|].
  exact (reader_batches_good (fun t => t) ex_base2code_dna ex_float ex_int
           ex_file 2 _ Hin).
Defined.

Lemma read_features_file_zero_witness :
  _read_features_file (fun t => t) ex_base2code_dna ex_float ex_int
    ex_file_one_read 0
  = ([Item (batch_of (take 2 ex_records).*2); Kill], Ok (1, 1))
  /\ _read_features_file (fun t => t) ex_base2code_dna ex_float ex_int ex_file 0
     = ([], Raise ZeroDivisionError).
Proof.
  split.
  - apply (proj1 (read_features_file_zero (fun t => t) ex_base2code_dna ex_float
                    ex_int ex_file_one_read (take 2 ex_records)
                    ltac:(discriminate) ltac:(vm_compute; reflexivity))).
    vm_compute. reflexivity.
  - apply (proj2 (read_features_file_zero (fun t => t) ex_base2code_dna ex_float
                    ex_int ex_file ex_records
                    ltac:(discriminate) ltac:(vm_compute; reflexivity))).
    vm_compute. lia.
Defined.

Lemma sampleinfo_fields_witness :
  Py.split "009"%char (s_info ex_record.2)
  = take 6 (words_of (fun t => t) (ex_line "10" "read1"))
  /\ Py.split "009"%char (s_info ex_record.2) !! 4%nat = Some "read1"%string
  /\ length (Py.split "009"%char (s_info ex_record.2)) = 6%nat.
Proof.
  apply (sampleinfo_fields (fun t => t) ex_base2code_dna ex_float ex_int
           (ex_line "10" "read1") "read1" ex_record.2).
  vm_compute. reflexivity.
Defined.

Lemma call_mods_pointwise_witness :
  exists pred_str,
    ex_scored.1.1 = pred_line ex_str_float <$> pred_str
    /\ mapR (pred_of_record 24 128 (fun x => x) ex_code2base_dna ex_model
               ex_batch 2) (seq 0 (length (sampleinfo ex_batch)))
       = Ok pred_str.
Proof.
  apply (call_mods_pointwise 24 128 (fun x => x) ex_str_float ex_code2base_dna
           ex_accuracy_score ex_np_mean ex_model ex_batch 2
           ex_scored.1.1 ex_scored.1.2 ex_scored.2).
  - lia.
  - vm_compute. reflexivity.
Defined.

Lemma call_mods_batch_size_irrelevant_witness :
  ex_scored_1.1.1 = ex_scored.1.1.
Proof.
  apply (call_mods_batch_size_irrelevant 24 128 (fun x => x) ex_str_float
           ex_code2base_dna ex_accuracy_score ex_np_mean ex_model ex_batch 1 2
           ex_scored_1.1.1 ex_scored_1.1.2 ex_scored_1.2
           ex_scored.1.1 ex_scored.1.2 ex_scored.2).
  - lia.
  - lia.
  - vm_compute. reflexivity.
  - vm_compute. reflexivity.
  - intros i Hi. destruct i as [|[|[|i]]]; [vm_compute; reflexivity..|].
    simpl in Hi. lia.
Defined.

Lemma call_mods_degenerate_witness :
  _call_mods 24 128 (fun x => x) ex_str_float ex_code2base_dna ex_accuracy_score
    ex_np_mean ex_model ex_batch 0 = Raise ZeroDivisionError
  /\ _call_mods 24 128 (fun x => x) ex_str_float ex_code2base_dna
       ex_accuracy_score ex_np_mean ex_model ex_batch (-2)
     = Ok ([], S754_zero false, 0)
  /\ _call_mods 24 128 (fun x => x) ex_str_float ex_code2base_dna
       ex_accuracy_score ex_np_mean ex_model empty_batch 2
     = Ok ([], S754_zero false, 0).
Proof.
  split; [|split].
  - apply (proj1 (call_mods_degenerate 24 128 (fun x => x) ex_str_float
                    ex_code2base_dna ex_accuracy_score ex_np_mean ex_model
                    ex_batch 0)).
    reflexivity.
  - apply (proj1 (proj2 (call_mods_degenerate 24 128 (fun x => x) ex_str_float
                           ex_code2base_dna ex_accuracy_score ex_np_mean ex_model
                           ex_batch (-2)))).
    lia.
  - apply (proj2 (proj2 (call_mods_degenerate 24 128 (fun x => x) ex_str_float
                           ex_code2base_dna ex_accuracy_score ex_np_mean ex_model
                           empty_batch 2))).
    + reflexivity.
    + discriminate.
Defined.

Lemma call_mods_batch_num_witness :
  ex_scored.2 = - (- 3 / 2)
  /\ (ex_scored.2 - 1) * 2 < 3 <= ex_scored.2 * 2.
Proof.
  apply (call_mods_batch_num 24 128 (fun x => x) ex_str_float ex_code2base_dna
           ex_accuracy_score ex_np_mean ex_model ex_batch 2
           ex_scored.1.1 ex_scored.1.2 ex_scored.2).
  - lia.
  - vm_compute. reflexivity.
Defined.

Lemma process_budget_witness :
  0 <= 2
  /\ Z.of_nat (length (started (_call_mods_from_fast5s_gpu 3 ex_args).1)) = 4
  /\ Z.of_nat (length (started (_call_mods_from_fast5s_cpu2 2 ex_args).1)) = 4
  /\ Z.of_nat (length (started (call_mods_from_file true 3 2 ex_args).1)) <= 3.
Proof.
  assert (0 <= 2) as Hcpu by lia. split; [exact Hcpu|].
  destruct (process_budget true 3 2 ex_args Hcpu)
    as (Hgpu & _ & Hcpu2 & Hfile & _).
  split; [exact (Hgpu eq_refl)|]. split; [exact Hcpu2|exact Hfile].
Defined.

Lemma call_mods_q_conserves_witness :
  exists (outs : list (list pred)) accuracy_list batch_num_total,
    ex_scorer_run.1
    = ((fun ps => To_pred_str (Item (pred_line ex_str_float <$> ps))) <$> outs)
      ++ [To_features Kill]
    /\ ex_scorer_run.2 = Some (accuracy_list, batch_num_total)
    /\ Forall2 (fun fb ps => p_info <$> ps = sampleinfo fb) [ex_batch] outs
    /\ length accuracy_list = length [ex_batch].
Proof.
  apply (call_mods_q_conserves 24 128 (fun x => x) ex_str_float ex_code2base_dna
           ex_accuracy_score ex_np_mean ex_model (Ok tt) 2 [ex_batch] []).
  - lia.
  - vm_compute. reflexivity.
Defined.

Lemma read_features_from_fast5s_one_batch_witness :
  _read_features_from_fast5s ex_base2code_dna ex_extract_features []
  = Ok ([empty_batch], 0).
Proof.
  pose proof (read_features_from_fast5s_one_batch ex_base2code_dna
                ex_extract_features []) as H.
  destruct (_read_features_from_fast5s ex_base2code_dna ex_extract_features [])
    as [[features_batches error]|e] eqn:Hrun; [|vm_compute in Hrun; discriminate].
  destruct H as (features_list & fb & Hext & -> & _ & _ & _ & _ & _ & _ & _ & _
                 & Hempty).
  injection Hext as <- <-. by rewrite (Hempty eq_refl).
Defined.

Lemma read_features_fast5s_q_run_witness :
  exists results : list (features_batch * Z),
    Forall2 (fun fast5s res =>
               _read_features_from_fast5s ex_base2code_dna ex_extract_features
                 fast5s = Ok ([res.1], res.2))
            ex_groups results
    /\ ex_fast5_run.1
       = concat ((fun res => [To_errornum res.2; To_features (Item res.1)])
                 <$> results) ++ [To_fast5s Kill]
    /\ ex_fast5_run.2 = Some (Z.of_nat (length (concat ex_groups)))
    /\ feature_puts ex_fast5_run.1 = Item <$> results.*1
    /\ error_puts ex_fast5_run.1 = results.*2.
Proof.
  apply (read_features_fast5s_q_run ex_base2code_dna ex_extract_features
           ex_groups []).
  vm_compute. reflexivity.
Defined.

Lemma file_pipeline_witness :
  let reader := _read_features_file (fun t => t) ex_base2code_dna ex_float ex_int
                  ex_file 2 in
  let scorer := _call_mods_q 24 128 (fun x => x) ex_str_float ex_code2base_dna
                  ex_accuracy_score ex_np_mean ex_model (Ok tt) 2 reader.1 in
  let writer := _write_predstr_to_file "calls.tsv" (pred_puts scorer.1 ++ [Kill])
                  false in
  writer.2 = true
  /\ (exists stats, ex_file_scorer_end = Some stats)
  /\ feature_puts scorer.1 = [Kill]
  /\ length (writes writer.1) = length ex_file
  /\ exists preds,
       writes writer.1
       = (fun p => pred_line ex_str_float p ++ newline)%string <$> preds
       /\ p_info <$> preds = (fun rec => s_info rec.2) <$> ex_records.
Proof.
  apply (file_pipeline (fun t => t) ex_base2code_dna ex_float ex_int 24 128
           (fun x => x) ex_str_float ex_code2base_dna ex_accuracy_score
           ex_np_mean ex_model (Ok tt) 2 ex_file ex_records 2 "calls.tsv" false
           ex_file_scorer_end).
  - lia.
  - lia.
  - discriminate.
  - vm_compute. reflexivity.
  - vm_compute. reflexivity.
Defined.

Lemma fast5_pipeline_witness :
  let reader := _read_features_fast5s_q ex_base2code_dna ex_extract_features
                  ((Item <$> ex_groups) ++ [Kill]) in
  let scorer := _call_mods_q 24 128 (fun x => x) ex_str_float ex_code2base_dna
                  ex_accuracy_score ex_np_mean ex_model (Ok tt) 2
                  (feature_puts reader.1 ++ [Kill]) in
  let writer := _write_predstr_to_file "calls.tsv" (pred_puts scorer.1 ++ [Kill])
                  true in
  writer.2 = true
  /\ ex_fast5_run.2 = Some (Z.of_nat (length (concat ex_groups)))
  /\ exists (extracted : list (list feature * Z)) preds,
       Forall2 (fun fast5s res => ex_extract_features fast5s = Ok res)
               ex_groups extracted
       /\ error_puts reader.1 = extracted.*2
       /\ writes writer.1
          = (fun p => pred_line ex_str_float p ++ newline)%string <$> preds
       /\ p_info <$> preds
          = (fun f => Py.join Py.tab
                        [f_chrom f; Py.str_int (f_pos f); f_alignstrand f;
                         Py.str_int (f_loc_in_ref f); f_readname f; f_strand f])
            <$> concat extracted.*1.
Proof.
  apply (fast5_pipeline ex_base2code_dna 24 128 (fun x => x) ex_str_float
           ex_code2base_dna ex_accuracy_score ex_np_mean ex_model (Ok tt) 2
           ex_extract_features ex_groups "calls.tsv" true
           ex_fast5_run.2 ex_fast5_scorer_end).
  - lia.
  - vm_compute. reflexivity.
  - vm_compute. reflexivity.
Defined.

Lemma pred_line_fields_witness :
  Py.split "009"
    (pred_line ex_str_float
       (Pred (ex_info "10" "read1") (sf32 3 (-2)) (sf32 1 (-2)) 0 "TACGT"))
  = ["chr1"; "10"; "+"; "5"; "read1"; "t"; ex_str_float (sf32 3 (-2));
     ex_str_float (sf32 1 (-2)); "0"; "TACGT"]%string
  /\ length (Py.split "009"
               (pred_line ex_str_float
                  (Pred (ex_info "10" "read1") (sf32 3 (-2)) (sf32 1 (-2)) 0
                        "TACGT"))) = 10%nat.
Proof.
  apply (pred_line_fields ex_str_float
           (Pred (ex_info "10" "read1") (sf32 3 (-2)) (sf32 1 (-2)) 0 "TACGT")
           ["chr1"; "10"; "+"; "5"; "read1"; "t"]%string).
  - discriminate.
  - repeat constructor.
  - reflexivity.
  - vm_compute. reflexivity.
  - vm_compute. reflexivity.
  - reflexivity.
Defined.

